(** * Open3D GUI: capture pipeline, interaction dispatcher, viewport host

    A shallow embedding of

    - [FilamentRenderToBuffer] (Visualization/Rendering/Filament/FilamentRenderToBuffer.cpp),
    - the interactors, the [Interactors] dispatcher and [SceneWidget]
      (GUI/SceneWidget.cpp),
    - [NumberEdit::SetLimits] (GUI/NumberEdit.cpp),

    together with the properties of them that the design document states. *)

From stdpp Require Import base decidable countable gmap.
From Stdlib Require Import List Bool NArith ZArith QArith Qround Qminmax Lia.
From Stdlib Require Import Reals Lra.
From Stdlib Require Lqa String Ascii PrimFloat.
Import ListNotations.

Set Implicit Arguments.

(* ===================================================================== *)
(** ** Off-screen capture: [FilamentRenderToBuffer]                        *)
(* ===================================================================== *)

Module RenderToBuffer.

(** Addresses returned by the allocator; [None] is [nullptr]. *)
Definition Ptr := N.
Definition Scene := N.

(** [RenderToBuffer::Buffer], the argument of a [BufferReadyCallback]. *)
Record Buffer := mkBuffer {
  width  : N;
  height : N;
  bytes  : option Ptr;
  size   : N
}.

(** The literal [{0, 0, nullptr, 0}]. *)
Definition empty_buffer : Buffer := mkBuffer 0 0 None 0.

(** A [BufferReadyCallback] is client code.  What matters to the pipeline
    is that it is called with a [Buffer] and that, while it runs, it may
    call back into the public interface of the object, that is into
    [RequestFrame].  A handler therefore carries a name, by which its
    invocations are told apart, and a body that maps the buffer it
    receives to the sequence of re-entrant requests it makes. *)
Inductive BufferReadyCallback : Type :=
| Handler (name : nat) (body : Buffer -> Reentry)
with Reentry : Type :=
| Return
| ThenRequestFrame (scene : option Scene) (cb : BufferReadyCallback)
                   (rest : Reentry).

Scheme callback_mut := Induction for BufferReadyCallback Sort Prop
  with reentry_mut := Induction for Reentry Sort Prop.

Definition handler_name (cb : BufferReadyCallback) : nat :=
  match cb with Handler n _ => n end.

(** A handler that does not call back into the pipeline. *)
Definition inert (cb : BufferReadyCallback) : Prop :=
  match cb with Handler _ body => forall b, body b = Return end.

(** The data members of the class that the request path reads or writes
    ([parent_], [engine_], [renderer_], [swapchain_] and [view_] are
    handles into the rendering engine). *)
Record State := mkState {
  width_       : N;
  height_      : N;
  buffer_      : option Ptr;
  buffer_size_ : N;
  callback_    : option BufferReadyCallback;
  frame_done_  : bool;
  pending_     : bool
}.

Definition set_pending (b : bool) (s : State) : State :=
  mkState (width_ s) (height_ s) (buffer_ s) (buffer_size_ s)
          (callback_ s) (frame_done_ s) b.
Definition set_frame_done (b : bool) (s : State) : State :=
  mkState (width_ s) (height_ s) (buffer_ s) (buffer_size_ s)
          (callback_ s) b (pending_ s).
Definition set_buffer (p : option Ptr) (s : State) : State :=
  mkState (width_ s) (height_ s) p (buffer_size_ s)
          (callback_ s) (frame_done_ s) (pending_ s).
Definition set_callback (cb : BufferReadyCallback) (s : State) : State :=
  mkState (width_ s) (height_ s) (buffer_ s) (buffer_size_ s)
          (Some cb) (frame_done_ s) (pending_ s).

(** The freshly constructed object (member initialisers of the header). *)
Definition initial : State := mkState 0 0 None 0 None true false.

(** What an execution does that is visible from outside the object:
    calls of client callbacks, recorded with the argument and with the
    values [pending_] and [frame_done_] had when the call was made, and
    calls into the renderer. *)
Inductive Event : Type :=
| Called (name : nat) (arg : Buffer) (pending_then frame_done_then : bool)
| BeginFrame (ok : bool)
| RenderView
| ReadPixels (dst : option Ptr) (len : N)
| EndFrame.

(** Commands: state passing with a log of events. *)
Definition Cmd := State -> State * list Event.

Definition bind (c : Cmd) (k : Cmd) : Cmd :=
  fun s => let (s1, t1) := c s in
           let (s2, t2) := k s1 in (s2, t1 ++ t2).
Definition modify (f : State -> State) : Cmd := fun s => (f s, []).
Notation "c1 ;;; c2" := (bind c1 c2) (at level 62, right associativity).

Section Pipeline.

(** [malloc] of the C library: the address it returns for a size. *)
Variable malloc : N -> option Ptr.

(** [FilamentRenderToBuffer::RequestFrame], over the function that calls
    a callback. *)
Definition RequestFrame_with
    (call : BufferReadyCallback -> Buffer -> Cmd)
    (scene : option Scene) (callback : BufferReadyCallback) : Cmd :=
  fun s =>
  match scene with
  | None => call callback empty_buffer s
  | Some _ =>
      if pending_ s then call callback empty_buffer s
      else
        (modify (set_pending true) ;;;
         modify (fun s => match buffer_ s with
                          | None => set_buffer (malloc (buffer_size_ s)) s
                          | Some _ => s
                          end) ;;;
         modify (set_callback callback)) s
  end.

(** Calling a callback: the call is logged, then the body runs, and each
    request it makes is a [RequestFrame] on the same object. *)
Fixpoint invoke (cb : BufferReadyCallback) (arg : Buffer) (s : State)
    {struct cb} : State * list Event :=
  match cb with
  | Handler name body =>
      let (s', t) := reenter (body arg) s in
      (s', Called name arg (pending_ s) (frame_done_ s) :: t)
  end
with reenter (r : Reentry) (s : State) {struct r} : State * list Event :=
  match r with
  | Return => (s, [])
  | ThenRequestFrame scene cb rest =>
      let (s1, t1) := RequestFrame_with invoke scene cb s in
      let (s2, t2) := reenter rest s1 in
      (s2, t1 ++ t2)
  end.

Definition RequestFrame : option Scene -> BufferReadyCallback -> Cmd :=
  RequestFrame_with invoke.

(** [ReadPixelsCallback(void*, size_t, void* user)], where [user] holds
    the object and the copy of [callback_] made when the read-back was
    issued.  The argument of the callback is built from the members
    before the call; [frame_done_] is assigned after it returns.  An
    empty [std::function] cannot be called: that is [None]. *)
Definition ReadPixelsCallback (user : option BufferReadyCallback) (s : State)
    : option (State * list Event) :=
  match user with
  | None => None
  | Some callback =>
      let (s1, t) :=
        invoke callback
               (mkBuffer (width_ s) (height_ s) (buffer_ s) (buffer_size_ s))
               s in
      Some (set_frame_done true s1, t)
  end.

(** One turn of the loop as the renderer decides it: whether
    [beginFrame] accepts the frame, and whether the renderer completes an
    outstanding read-back while the frame is ended. *)
Record Frame := mkFrame { begin_ok : bool; completes : bool }.

(** How a call of [Render] ends: it returns; or the renderer's answers
    are used up while the loop is still turning; or the completion calls
    an empty [std::function]. *)
Inductive Outcome : Type :=
| Returned (s : State) (t : list Event)
| Spinning
| BadFunctionCall.

Definition prepend (t0 : list Event) (o : Outcome) : Outcome :=
  match o with
  | Returned s t => Returned s (t0 ++ t)
  | other => other
  end.

(** The [while (!frame_done_)] loop of [Render].  [shotDone] is the local
    of that name; [user_param] is the read-back the renderer still owes. *)
Fixpoint Render_loop (sched : list Frame) (shotDone : bool)
    (user_param : option (option BufferReadyCallback)) (s : State)
    : Outcome :=
  if frame_done_ s then Returned s []
  else
    match sched with
    | [] => Spinning
    | f :: sched' =>
        if begin_ok f then
          let shot :=
            if shotDone then []
            else [ReadPixels (buffer_ s) (buffer_size_ s)] in
          let user_param' :=
            if shotDone then user_param else Some (callback_ s) in
          match (if completes f then user_param' else None) with
          | Some user =>
              match ReadPixelsCallback user s with
              | None => BadFunctionCall
              | Some (s1, t1) =>
                  prepend (BeginFrame true :: RenderView :: shot
                             ++ EndFrame :: t1)
                          (Render_loop sched' true None s1)
              end
          | None =>
              prepend (BeginFrame true :: RenderView :: shot ++ [EndFrame])
                      (Render_loop sched' true user_param' s)
          end
        else
          prepend [BeginFrame false]
                  (Render_loop sched' shotDone user_param s)
    end.

(** [FilamentRenderToBuffer::Render]. *)
Definition Render (sched : list Frame) (s : State) : Outcome :=
  match Render_loop sched false None (set_frame_done false s) with
  | Returned s' t => Returned (set_pending false s') t
  | other => other
  end.

End Pipeline.

(** The renderer completes a read-back in some frame it has accepted. *)
Definition delivers (sched : list Frame) : bool :=
  existsb (fun f => begin_ok f && completes f) sched.

(** Projections of a log. *)
Definition is_call (e : Event) : bool :=
  match e with Called _ _ _ _ => true | _ => false end.
Definition is_read (e : Event) : bool :=
  match e with ReadPixels _ _ => true | _ => false end.
Definition calls (t : list Event) : list Event := filter is_call t.
Definition reads (t : list Event) : list Event := filter is_read t.

(** The argument a logged call received. *)
Definition call_arg (e : Event) : option Buffer :=
  match e with Called _ arg _ _ => Some arg | _ => None end.

(** A logged call was rejected: it received the zero-sized buffer. *)
Definition rejected (e : Event) : Prop := call_arg e = Some empty_buffer.

(** A call made from inside a callback while a request is pending: it
    got the zero-sized buffer, and the flags had the given values. *)
Definition nested_rejection (d : bool) (e : Event) : Prop :=
  exists n, e = Called n empty_buffer true d.

(** The buffer the completion hands to the client. *)
Definition frame_of (s : State) : Buffer :=
  mkBuffer (width_ s) (height_ s) (buffer_ s) (buffer_size_ s).

(** The log of the loop up to the completion: frames the renderer turned
    down, then the first frame it accepted, in which the read-back is
    issued, then frames without a further read-back and without a call. *)
Definition loop_prefix (shotDone : bool) (s : State) (pre : list Event)
    : Prop :=
  calls pre = [] /\
  if shotDone then reads pre = []
  else exists k rest,
         pre = repeat (BeginFrame false) k
               ++ BeginFrame true :: RenderView
               :: ReadPixels (buffer_ s) (buffer_size_ s) :: rest
         /\ reads rest = [].

(** A request that is being served, for running the code: a 4 x 2
    target, its buffer allocated, and a client callback that asks for
    another frame as soon as it is handed this one. *)
Definition demo_malloc (n : N) : option Ptr := Some 4096%N.
Definition demo_inner : BufferReadyCallback := Handler 2 (fun _ => Return).
Definition demo_client : BufferReadyCallback :=
  Handler 1 (fun _ => ThenRequestFrame (Some 7%N) demo_inner Return).
Definition demo_busy : State :=
  mkState 4 2 (Some 4096%N) 24 (Some demo_client) true true.
Definition demo_sched : list Frame :=
  [mkFrame false false; mkFrame true false; mkFrame true true].

End RenderToBuffer.

(* ===================================================================== *)
(** ** Vectors and bounding boxes                                          *)
(* ===================================================================== *)

(** [float] and [double] quantities are taken as real numbers: the
    statements below are about which expression the code evaluates, and
    rounding is outside the model. *)
Module Geometry.

Local Open Scope R_scope.

(** [Eigen::Vector3f] / [Eigen::Vector3d]. *)
Record Vec3 := mkVec3 { vx : R; vy : R; vz : R }.

Definition vadd (a b : Vec3) : Vec3 :=
  mkVec3 (vx a + vx b) (vy a + vy b) (vz a + vz b).
Definition vsub (a b : Vec3) : Vec3 :=
  mkVec3 (vx a - vx b) (vy a - vy b) (vz a - vz b).
Definition vscale (k : R) (a : Vec3) : Vec3 :=
  mkVec3 (k * vx a) (k * vy a) (k * vz a).
Definition squaredNorm (a : Vec3) : R :=
  vx a * vx a + vy a * vy a + vz a * vz a.
Definition norm (a : Vec3) : R := sqrt (squaredNorm a).

(** Modelled from the spec: [geometry::AxisAlignedBoundingBox]
    (Open3D/Geometry/BoundingVolume.h) is not among the sources.  The
    design document describes the bounding volume as the axis-aligned
    min/max corners of the content; its extent is the difference of the
    corners, its centre their midpoint, and its maximal extent the
    largest component of the extent. *)
Record AxisAlignedBoundingBox := mkBox { min_bound : Vec3; max_bound : Vec3 }.

Definition GetMinBound (b : AxisAlignedBoundingBox) : Vec3 := min_bound b.
Definition GetMaxBound (b : AxisAlignedBoundingBox) : Vec3 := max_bound b.
Definition GetExtent (b : AxisAlignedBoundingBox) : Vec3 :=
  vsub (max_bound b) (min_bound b).
Definition GetCenter (b : AxisAlignedBoundingBox) : Vec3 :=
  vscale (1 / 2) (vadd (min_bound b) (max_bound b)).
Definition GetMaxExtent (b : AxisAlignedBoundingBox) : R :=
  Rmax (Rmax (vx (GetExtent b)) (vy (GetExtent b))) (vz (GetExtent b)).

End Geometry.

(* ===================================================================== *)
(** ** Input events (Open3D/GUI/Events.h)                                  *)
(* ===================================================================== *)

Module Events.

Inductive MouseButton : Set :=
| NONE | LEFT | MIDDLE | RIGHT | BUTTON4 | BUTTON5.

Definition MouseButton_eqb (a b : MouseButton) : bool :=
  match a, b with
  | NONE, NONE | LEFT, LEFT | MIDDLE, MIDDLE | RIGHT, RIGHT
  | BUTTON4, BUTTON4 | BUTTON5, BUTTON5 => true
  | _, _ => false
  end.

(** A [MouseEvent] has a type and, in a union, the data of that type:
    the button of a button event, the deltas of a wheel event. *)
Inductive MouseEventType : Type :=
| MOVE
| BUTTON_DOWN (button : MouseButton)
| DRAG
| BUTTON_UP (button : MouseButton)
| WHEEL (dy : R) (isTrackpad : bool).

Record MouseEvent := mkMouse {
  type : MouseEventType;
  x : Z;
  y : Z;
  modifiers : Z   (* bit mask of KeyModifier *)
}.

Inductive KeyEventType : Set := DOWN | UP.
Record KeyEvent := mkKey { ktype : KeyEventType; key : N }.

(** The header that gives the enumerators of [KeyModifier] and the key
    codes their values is not among the sources, and [__APPLE__] is fixed
    by the platform: the code is read over any choice of them. *)
Record Codes := mkCodes {
  SHIFT : Z;
  CTRL : Z;
  ALT : Z;
  META : Z;
  KEY_UP : N;
  KEY_DOWN : N;
  KEY_LEFT : N;
  KEY_RIGHT : N;
  APPLE : bool
}.

(** The test [e.modifiers & int(KeyModifier::M)]. *)
Definition has_modifier (m flag : Z) : bool := negb (Z.land m flag =? 0)%Z.

(** One-bit modifier flags on a desktop platform, for running the code on
    concrete events. *)
Definition desktop : Codes :=
  mkCodes 1 2 4 8 265 264 263 262 false.

End Events.

(* ===================================================================== *)
(** ** The interactors of SceneWidget.cpp                                  *)
(* ===================================================================== *)

Module Interactor.

Import Geometry Events.

(** [MatrixInteractorLogic::DragType]. *)
Module DragType.
Inductive t : Set := MOUSE | WHEEL | TWO_FINGER.
End DragType.

(** The logic classes ([MatrixInteractorLogic] and those derived from it)
    are not among the sources.  A transform request made of one of them
    is recorded as a call; the notifications an interactor sends to its
    client are recorded likewise. *)
Inductive Call : Type :=
| StartMouseDrag
| ResetMouseDrag
| UpdateMouseDragUI
| EndMouseDrag
| Rotate (dx dy : Z)
| RotateZ (dx dy : Z)
| RotateFly (dx dy : Z)
| Pan (dx dy : Z)
| Dolly (dy : R) (drag_type : DragType.t)
| Zoom (dy : R) (drag_type : DragType.t)
| MoveLocal (v : Vec3)
| RotateLocal (angle_rad : R) (axis : Vec3)
| OnLightDirChanged
| OnRotationChanged.

(** Modelled from the spec: of a logic object only what its setters
    store is kept, the view size ([SetViewSize]), the bounding box
    ([SetBoundingBox], read back by [GetBoundingBox]) and the centre of
    rotation ([SetCenterOfRotation]). *)
Record Logic := mkLogic {
  view_width : Z;
  view_height : Z;
  model_bounds : AxisAlignedBoundingBox;
  center_of_rotation : Vec3
}.

Definition SetViewSize (w h : Z) (l : Logic) : Logic :=
  mkLogic w h (model_bounds l) (center_of_rotation l).
Definition SetBoundingBox (b : AxisAlignedBoundingBox) (l : Logic) : Logic :=
  mkLogic (view_width l) (view_height l) b (center_of_rotation l).
Definition SetCenterOfRotation (c : Vec3) (l : Logic) : Logic :=
  mkLogic (view_width l) (view_height l) (model_bounds l) c.

(** *** RotateSunInteractor and RotateIBLInteractor *)

Record Rotator := mkRotator {
  r_logic : Logic;
  r_mouse_down_x_ : Z;
  r_mouse_down_y_ : Z;
  r_on_changed_ : bool     (* whether the std::function is set *)
}.

Definition RotateSun_Mouse (e : MouseEvent) (s : Rotator)
    : Rotator * list Call :=
  match type e with
  | BUTTON_DOWN _ =>
      (mkRotator (r_logic s) (x e) (y e) (r_on_changed_ s), [StartMouseDrag])
  | DRAG =>
      let dx := (x e - r_mouse_down_x_ s)%Z in
      let dy := (y e - r_mouse_down_y_ s)%Z in
      (s, Rotate dx dy ::
          (if r_on_changed_ s then [OnLightDirChanged] else []))
  | WHEEL _ _ => (s, [])
  | BUTTON_UP _ => (s, [EndMouseDrag])
  | MOVE => (s, [])
  end.

(** [RotationInteractor::State], [SceneWidget::Controls] and
    [Widget::DrawResult]. *)
Module State.
Inductive t : Set := NONE | PAN | DOLLY | ROTATE_XY | ROTATE_Z.
End State.

Module Controls.
Inductive t : Set := ROTATE_OBJ | FLY | ROTATE_SUN | ROTATE_IBL | ROTATE_MODEL.
End Controls.

Module DrawResult.
Inductive t : Set := NONE | REDRAW.
End DrawResult.

(** The body of [Tick] is a sequence of guarded calls of the lambdas
    [move], [rotate] and [rotateZ]; each of them makes its calls and sets
    [redraw]. *)
Definition Ticked := (list Call * bool)%type.
Definition lambda (calls : list Call) : Ticked := (calls, true).
Definition when (b : bool) (a : Ticked) : Ticked :=
  if b then a else ([], false).
Definition and_then (a b : Ticked) : Ticked :=
  (fst a ++ fst b, snd a || snd b).
Infix "+>" := and_then (at level 62, right associativity).

Section WithCodes.

Variable K : Codes.

Definition RotateIBL_Mouse (e : MouseEvent) (s : Rotator)
    : Rotator * list Call :=
  match type e with
  | BUTTON_DOWN _ =>
      (mkRotator (r_logic s) (x e) (y e) (r_on_changed_ s), [StartMouseDrag])
  | DRAG =>
      let dx := (x e - r_mouse_down_x_ s)%Z in
      let dy := (y e - r_mouse_down_y_ s)%Z in
      (s, (if has_modifier (modifiers e) (META K)
           then RotateZ dx dy else Rotate dx dy) ::
          (if r_on_changed_ s then [OnRotationChanged] else []))
  | WHEEL _ _ => (s, [])
  | BUTTON_UP _ => (s, [EndMouseDrag])
  | MOVE => (s, [])
  end.

(** *** FlyInteractor *)

Record Fly := mkFly {
  f_logic : Logic;
  last_mouse_x_ : Z;
  last_mouse_y_ : Z;
  keys_down_ : gset N
}.

Definition Fly_Mouse (e : MouseEvent) (s : Fly) : Fly * list Call :=
  match type e with
  | BUTTON_DOWN _ =>
      (mkFly (f_logic s) (x e) (y e) (keys_down_ s), [StartMouseDrag])
  | DRAG =>
      let dx := (x e - last_mouse_x_ s)%Z in
      let dy := (y e - last_mouse_y_ s)%Z in
      (mkFly (f_logic s) (x e) (y e) (keys_down_ s),
       if has_modifier (modifiers e) (META K)
       then [ResetMouseDrag; RotateZ dx dy]
       else [RotateFly (- dx) (- dy)])
  | WHEEL _ _ => (s, [])
  | BUTTON_UP _ => (s, [EndMouseDrag])
  | MOVE => (s, [])
  end.

Definition Fly_Key (e : KeyEvent) (s : Fly) : Fly :=
  match ktype e with
  | DOWN => mkFly (f_logic s) (last_mouse_x_ s) (last_mouse_y_ s)
                  ({[ key e ]} ∪ keys_down_ s)
  | UP => mkFly (f_logic s) (last_mouse_x_ s) (last_mouse_y_ s)
                (keys_down_ s ∖ {[ key e ]})
  end.

(** The lambda [HasKey]. *)
Definition HasKey (s : Fly) (k : N) : bool := bool_decide (k ∈ keys_down_ s).

(** The step of a translation key: [0.0025f * bounds.GetExtent().norm()]. *)
Definition Fly_dist (s : Fly) : R :=
  (0.0025 * norm (GetExtent (model_bounds (f_logic s))))%R.
Definition Fly_angle_rad : R := 0.0075%R.

(** [FlyInteractor::Tick]: the calls made and the value of [redraw]. *)
Definition Fly_Tick (s : Fly) : Ticked :=
  if bool_decide (keys_down_ s = ∅) then ([], false)
  else
    let dist := Fly_dist s in
    let angle_rad := Fly_angle_rad in
    let move (v : Vec3) := lambda [MoveLocal v] in
    let rotate (a : R) (axis : Vec3) := lambda [RotateLocal a axis] in
    let rotateZ (dy : Z) := lambda [StartMouseDrag; RotateZ 0 dy] in
    when (HasKey s 97)  (move (mkVec3 (- dist) 0 0)) +>
    when (HasKey s 100) (move (mkVec3 dist 0 0)) +>
    when (HasKey s 119) (move (mkVec3 0 0 (- dist))) +>
    when (HasKey s 115) (move (mkVec3 0 0 dist)) +>
    when (HasKey s 113) (move (mkVec3 0 dist 0)) +>
    when (HasKey s 122) (move (mkVec3 0 (- dist) 0)) +>
    when (HasKey s 101) (rotateZ (-2)%Z) +>
    when (HasKey s 114) (rotateZ 2%Z) +>
    when (HasKey s (KEY_UP K))    (rotate angle_rad (mkVec3 1 0 0)) +>
    when (HasKey s (KEY_DOWN K))  (rotate (- angle_rad)%R (mkVec3 1 0 0)) +>
    when (HasKey s (KEY_LEFT K))  (rotate angle_rad (mkVec3 0 1 0)) +>
    when (HasKey s (KEY_RIGHT K)) (rotate (- angle_rad)%R (mkVec3 0 1 0)).

(** *** RotationInteractor, RotateModelInteractor, RotateCameraInteractor *)

Record Rotation := mkRotation {
  rot_logic : Logic;
  mouse_down_x_ : Z;
  mouse_down_y_ : Z;
  state_ : State.t
}.

(** The state a button-down selects; a button other than the left and the
    right one leaves [state_] as it is. *)
Definition button_down_state (button : MouseButton) (m : Z) (old : State.t)
    : State.t :=
  if MouseButton_eqb button LEFT then
    if has_modifier m (SHIFT K) then
      if has_modifier m (if APPLE K then ALT K else CTRL K)
      then State.ROTATE_Z
      else State.DOLLY
    else if has_modifier m (CTRL K) then State.PAN
    else if has_modifier m (META K) then State.ROTATE_Z
    else State.ROTATE_XY
  else if MouseButton_eqb button RIGHT then State.PAN
  else old.

(** [RotationInteractor::Mouse]. *)
Definition Rotation_Mouse (e : MouseEvent) (s : Rotation)
    : Rotation * list Call :=
  match type e with
  | BUTTON_DOWN button =>
      (mkRotation (rot_logic s) (x e) (y e)
                  (button_down_state button (modifiers e) (state_ s)),
       [StartMouseDrag])
  | DRAG =>
      let dx := (x e - mouse_down_x_ s)%Z in
      let dy := (y e - mouse_down_y_ s)%Z in
      (s,
       match state_ s with
       | State.NONE => []
       | State.PAN => [Pan dx dy]
       | State.DOLLY => [Dolly (IZR dy) DragType.MOUSE]
       | State.ROTATE_XY => [Rotate dx dy]
       | State.ROTATE_Z => [RotateZ dx dy]
       end ++ [UpdateMouseDragUI])
  | WHEEL dy isTrackpad =>
      (s, [Dolly (2.0 * dy)%R
                 (if isTrackpad then DragType.TWO_FINGER
                  else DragType.WHEEL)])
  | BUTTON_UP _ =>
      (mkRotation (rot_logic s) (mouse_down_x_ s) (mouse_down_y_ s)
                  State.NONE,
       [EndMouseDrag])
  | MOVE => (s, [])
  end.

(** [RotateCameraInteractor::Mouse]. *)
Definition RotateCamera_Mouse (e : MouseEvent) (s : Rotation)
    : Rotation * list Call :=
  match type e with
  | WHEEL dy isTrackpad =>
      if (modifiers e =? SHIFT K)%Z then
        (s, [Zoom dy (if isTrackpad then DragType.TWO_FINGER
                      else DragType.WHEEL)])
      else Rotation_Mouse e s
  | _ => Rotation_Mouse e s
  end.

(** *** The dispatcher [Interactors] *)

Inductive Which : Set := rotate | fly | sun | ibl | model.

Definition Which_eqb (a b : Which) : bool :=
  match a, b with
  | rotate, rotate | fly, fly | sun, sun | ibl, ibl | model, model => true
  | _, _ => false
  end.

(** [current_] and [override_] point to one of the five interactors or
    are null. *)
Record Interactors := mkInteractors {
  rotate_ : Rotation;
  fly_ : Fly;
  sun_ : Rotator;
  ibl_ : Rotator;
  model_ : Rotation;
  current_ : option Which;
  override_ : option Which
}.

Definition set_current (c : option Which) (s : Interactors) : Interactors :=
  mkInteractors (rotate_ s) (fly_ s) (sun_ s) (ibl_ s) (model_ s)
                c (override_ s).
Definition set_override (o : option Which) (s : Interactors) : Interactors :=
  mkInteractors (rotate_ s) (fly_ s) (sun_ s) (ibl_ s) (model_ s)
                (current_ s) o.

(** The virtual call [w->Mouse(e)]: the interactor pointed to handles the
    event; the result names it and lists the calls it made. *)
Definition call_Mouse (w : Which) (e : MouseEvent) (s : Interactors)
    : Interactors * (Which * list Call) :=
  match w with
  | rotate =>
      let (r, c) := RotateCamera_Mouse e (rotate_ s) in
      (mkInteractors r (fly_ s) (sun_ s) (ibl_ s) (model_ s)
                     (current_ s) (override_ s), (rotate, c))
  | fly =>
      let (r, c) := Fly_Mouse e (fly_ s) in
      (mkInteractors (rotate_ s) r (sun_ s) (ibl_ s) (model_ s)
                     (current_ s) (override_ s), (fly, c))
  | sun =>
      let (r, c) := RotateSun_Mouse e (sun_ s) in
      (mkInteractors (rotate_ s) (fly_ s) r (ibl_ s) (model_ s)
                     (current_ s) (override_ s), (sun, c))
  | ibl =>
      let (r, c) := RotateIBL_Mouse e (ibl_ s) in
      (mkInteractors (rotate_ s) (fly_ s) (sun_ s) r (model_ s)
                     (current_ s) (override_ s), (ibl, c))
  | model =>
      let (r, c) := Rotation_Mouse e (model_ s) in
      (mkInteractors (rotate_ s) (fly_ s) (sun_ s) (ibl_ s) r
                     (current_ s) (override_ s), (model, c))
  end.

Definition is_current (w : Which) (s : Interactors) : bool :=
  match current_ s with Some c => Which_eqb c w | None => false end.

(** The condition under which [Interactors::Mouse] arms the override. *)
Definition arms (e : MouseEvent) : bool :=
  match type e with
  | BUTTON_DOWN button =>
      MouseButton_eqb button MIDDLE || (modifiers e =? ALT K)%Z
  | _ => false
  end.

Definition is_button_up (e : MouseEvent) : bool :=
  match type e with BUTTON_UP _ => true | _ => false end.

(** [Interactors::Mouse]: the new state and, when the event was handed to
    an interactor, which one and what it did. *)
Definition Mouse (e : MouseEvent) (s : Interactors)
    : Interactors * option (Which * list Call) :=
  let s1 :=
    if is_current rotate s && arms e then set_override (Some sun) s
    else s in
  let '(s2, handled) :=
    match override_ s1 with
    | Some o => let (s', h) := call_Mouse o e s1 in (s', Some h)
    | None =>
        match current_ s1 with
        | Some c => let (s', h) := call_Mouse c e s1 in (s', Some h)
        | None => (s1, None)
        end
    end in
  let s3 :=
    match override_ s2 with
    | Some _ => if is_button_up e then set_override None s2 else s2
    | None => s2
    end in
  (s3, handled).

(** [Interactors::Key]; only the fly interactor has a handler that does
    anything. *)
Definition Key (e : KeyEvent) (s : Interactors) : Interactors :=
  match current_ s with
  | Some fly =>
      mkInteractors (rotate_ s) (Fly_Key e (fly_ s)) (sun_ s) (ibl_ s)
                    (model_ s) (current_ s) (override_ s)
  | _ => s
  end.

(** [Interactors::Tick]; [MouseInteractor::Tick] returns false unless
    overridden, and only [FlyInteractor] overrides it. *)
Definition Tick (s : Interactors) : list Call * DrawResult.t :=
  match current_ s with
  | Some fly =>
      let (calls, redraw) := Fly_Tick (fly_ s) in
      (calls, if redraw then DrawResult.REDRAW else DrawResult.NONE)
  | _ => ([], DrawResult.NONE)
  end.

Definition GetControls (s : Interactors) : Controls.t :=
  if is_current fly s then Controls.FLY
  else if is_current sun s then Controls.ROTATE_SUN
  else if is_current ibl s then Controls.ROTATE_IBL
  else if is_current model s then Controls.ROTATE_MODEL
  else Controls.ROTATE_OBJ.

Definition SetControls (mode : Controls.t) (s : Interactors) : Interactors :=
  match mode with
  | Controls.ROTATE_OBJ => set_current (Some rotate) s
  | Controls.FLY => set_current (Some fly) s
  | Controls.ROTATE_SUN => set_current (Some sun) s
  | Controls.ROTATE_IBL => set_current (Some ibl) s
  | Controls.ROTATE_MODEL => set_current (Some model) s
  end.

Definition on_rotation_logic (f : Logic -> Logic) (r : Rotation) : Rotation :=
  mkRotation (f (rot_logic r)) (mouse_down_x_ r) (mouse_down_y_ r) (state_ r).
Definition on_rotator_logic (f : Logic -> Logic) (r : Rotator) : Rotator :=
  mkRotator (f (r_logic r)) (r_mouse_down_x_ r) (r_mouse_down_y_ r)
            (r_on_changed_ r).
Definition on_fly_logic (f : Logic -> Logic) (r : Fly) : Fly :=
  mkFly (f (f_logic r)) (last_mouse_x_ r) (last_mouse_y_ r) (keys_down_ r).

(** [Interactors::SetBoundingBox]: all five logic objects get the box. *)
Definition Interactors_SetBoundingBox (b : AxisAlignedBoundingBox)
    (s : Interactors) : Interactors :=
  mkInteractors (on_rotation_logic (SetBoundingBox b) (rotate_ s))
                (on_fly_logic (SetBoundingBox b) (fly_ s))
                (on_rotator_logic (SetBoundingBox b) (sun_ s))
                (on_rotator_logic (SetBoundingBox b) (ibl_ s))
                (on_rotation_logic (SetBoundingBox b) (model_ s))
                (current_ s) (override_ s).

(** [Interactors::SetCenterOfRotation]: only [rotate_] gets it. *)
Definition Interactors_SetCenterOfRotation (c : Vec3) (s : Interactors)
    : Interactors :=
  mkInteractors (on_rotation_logic (SetCenterOfRotation c) (rotate_ s))
                (fly_ s) (sun_ s) (ibl_ s) (model_ s)
                (current_ s) (override_ s).

End WithCodes.

(** The dispatcher as its constructor leaves it, [current_] pointing to
    the orbit-camera interactor, over the initial value [l] of the logic
    objects. *)
Definition new_Interactors (l : Logic) : Interactors :=
  mkInteractors (mkRotation l 0 0 State.NONE) (mkFly l 0 0 ∅)
                (mkRotator l 0 0 false) (mkRotator l 0 0 false)
                (mkRotation l 0 0 State.NONE)
                (Some rotate) None.

(** Handing a sequence of mouse events to the dispatcher, in order; for
    each, what [Mouse] reports. *)
Fixpoint Mouse_all (K : Codes) (es : list MouseEvent) (s : Interactors)
    : Interactors * list (option (Which * list Call)) :=
  match es with
  | [] => (s, [])
  | e :: es' =>
      let (s1, h) := Mouse K e s in
      let (s2, hs) := Mouse_all K es' s1 in
      (s2, h :: hs)
  end.

(** The local axis a translation key of the fly interactor moves along. *)
Definition translation_axis (k : N) : option Vec3 :=
  if (k =? 97)%N then Some (mkVec3 (-1) 0 0)        (* a *)
  else if (k =? 100)%N then Some (mkVec3 1 0 0)     (* d *)
  else if (k =? 119)%N then Some (mkVec3 0 0 (-1))  (* w *)
  else if (k =? 115)%N then Some (mkVec3 0 0 1)     (* s *)
  else if (k =? 113)%N then Some (mkVec3 0 1 0)     (* q *)
  else if (k =? 122)%N then Some (mkVec3 0 (-1) 0)  (* z *)
  else None.

(** The keys that move the camera, in the order [FlyInteractor::Tick]
    tests them. *)
Definition translation_keys : list N := [97; 100; 119; 115; 113; 122]%N.

(** The vectors of the [MoveLocal] requests of a log, in order. *)
Fixpoint moves (cs : list Call) : list Vec3 :=
  match cs with
  | [] => []
  | MoveLocal v :: cs' => v :: moves cs'
  | _ :: cs' => moves cs'
  end.

(** One step of length [dist] along the axis of each translation key
    for which [held] holds, in the order of the keys. *)
Definition steps (held : N -> bool) (dist : R) : list Vec3 :=
  flat_map (fun k =>
              match translation_axis k with
              | Some axis => if held k then [vscale dist axis] else []
              | None => []
              end)
           translation_keys.

(** The delta a [Dolly] request carries. *)
Definition dolly_delta (c : Call) : option R :=
  match c with Dolly dy _ => Some dy | _ => None end.

(** Modelled from the spec: [MatrixInteractorLogic::Dolly], which turns
    the delta and the source of a dolly request into a distance along
    the view axis, is not among the sources.  The design document says
    that the source selects the mapping of the magnitude to the
    distance, and that the scale of the discrete wheel is twice that of
    the trackpad and drag sources.  [unit] is the distance that the
    trackpad and drag sources give a delta of 1. *)
Definition dolly_scale (unit : R) (source : DragType.t) : R :=
  match source with
  | DragType.WHEEL => (2 * unit)%R
  | DragType.TWO_FINGER | DragType.MOUSE => unit
  end.

(** The distance of a [Dolly] request. *)
Definition dolly_distance (unit : R) (c : Call) : option R :=
  match c with
  | Dolly dy source => Some (dolly_scale unit source * dy)%R
  | _ => None
  end.

(** Values for running the code. *)
Definition origin : Vec3 := mkVec3 0 0 0.
Definition demo_logic : Logic := mkLogic 640 480 (mkBox origin origin) origin.
Definition demo_orbit : Interactors := new_Interactors demo_logic.
Definition middle_down : MouseEvent := mkMouse (BUTTON_DOWN MIDDLE) 100 100 0.
Definition middle_up : MouseEvent := mkMouse (BUTTON_UP MIDDLE) 130 90 0.
Definition drag_to (x y : Z) : MouseEvent := mkMouse DRAG x y 0.
(** Left button pressed with alt and shift held ([ALT | SHIFT] of
    [desktop]). *)
Definition left_down_alt_shift : MouseEvent :=
  mkMouse (BUTTON_DOWN LEFT) 100 100 5.
Definition left_down_alt : MouseEvent :=
  mkMouse (BUTTON_DOWN LEFT) 100 100 4.

(** A fly interactor over a box of extent (3, 4, 0), with [w] held. *)
Definition demo_fly : Fly :=
  mkFly (mkLogic 640 480 (mkBox origin (mkVec3 3 4 0)) origin) 0 0 {[ 119%N ]}.

End Interactor.

(* ===================================================================== *)
(** ** The viewport host [SceneWidget]                                     *)
(* ===================================================================== *)

Module SceneWidget.

Import Geometry Events Interactor.
Local Open Scope R_scope.

Definition NEAR_PLANE : R := 0.1.
Definition MIN_FAR_PLANE : R := 1.0.

Module FovType.
Inductive t : Set := Vertical | Horizontal.
End FovType.

Module CameraPreset.
Inductive t : Set := PLUS_X | PLUS_Y | PLUS_Z.
End CameraPreset.

(** The arguments of [Camera::SetProjection]. *)
Record Projection := mkProjection {
  fov : R;
  aspect : R;
  near : R;
  far : R;
  fov_type : FovType.t
}.

(** Modelled from the spec: [visualization::Camera] is not among the
    sources.  The camera handle gives its position, which is also the
    translation of its model matrix, its forward vector and its
    projection parameters; [SetProjection] stores the parameters. *)
Record Camera := mkCamera {
  position : Vec3;
  forward : Vec3;
  projection : Projection
}.

Definition GetPosition (c : Camera) : Vec3 := position c.
Definition GetForwardVector (c : Camera) : Vec3 := forward c.
Definition GetModelMatrix_translation (c : Camera) : Vec3 := position c.
Definition SetProjection (fov aspect near far : R) (ty : FovType.t)
    (c : Camera) : Camera :=
  mkCamera (position c) (forward c) (mkProjection fov aspect near far ty).

(** [SceneWidget::Impl], with the size of the widget's frame. *)
Record Impl := mkImpl {
  camera_ : Camera;
  bounds_ : AxisAlignedBoundingBox;
  controls_ : Interactors;
  frame_width : Z;
  frame_height : Z
}.

Section WithCamera.

(** [Camera::LookAt(center, eye, up)] is taken as it comes. *)
Variable LookAt : Vec3 -> Vec3 -> Vec3 -> Camera -> Camera.

(** [SceneWidget::GoToCameraPreset]. *)
Definition GoToCameraPreset (preset : CameraPreset.t) (w : Impl) : Impl :=
  let max_dim := 1.25 * GetMaxExtent (bounds_ w) in
  let center := GetCenter (bounds_ w) in
  let '(eye, up) :=
    match preset with
    | CameraPreset.PLUS_X =>
        (mkVec3 (vx center + max_dim) (vy center) (vz center), mkVec3 0 1 0)
    | CameraPreset.PLUS_Y =>
        (mkVec3 (vx center) (vy center + max_dim) (vz center), mkVec3 1 0 0)
    | CameraPreset.PLUS_Z =>
        (mkVec3 (vx center) (vy center) (vz center + max_dim), mkVec3 0 1 0)
    end in
  mkImpl (LookAt center eye up (camera_ w))
         (bounds_ w)
         (Interactors_SetCenterOfRotation center (controls_ w))
         (frame_width w) (frame_height w).

(** The far plane [SetupCamera] computes, from the box and from the
    distance [far3] of the camera from the origin. *)
Definition far_plane (b : AxisAlignedBoundingBox) (far3 : R) : R :=
  let far1 := norm (GetMinBound b) in
  let far2 := norm (GetMaxBound b) in
  let model_size := 2.0 * norm (GetExtent b) in
  Rmax MIN_FAR_PLANE (Rmax (Rmax far1 far2) far3 + model_size).

(** The far plane as the sentence of the design document reads, to be
    compared with [far_plane], which is the code: the largest of the
    fixed minimum, the distances of the two corners from the origin and
    the distance [far3] of the camera from the origin, and to that
    twice the extent added. *)
Definition far_plane_as_described (b : AxisAlignedBoundingBox) (far3 : R)
    : R :=
  let far1 := norm (GetMinBound b) in
  let far2 := norm (GetMaxBound b) in
  let model_size := 2.0 * norm (GetExtent b) in
  Rmax (Rmax (Rmax MIN_FAR_PLANE far1) far2) far3 + model_size.

(** [SceneWidget::SetupCamera]. *)
Definition SetupCamera (verticalFoV : R)
    (geometry_bounds : AxisAlignedBoundingBox) (center_of_rotation : Vec3)
    (w : Impl) : Impl :=
  let w1 := mkImpl (camera_ w) geometry_bounds
                   (Interactors_SetBoundingBox geometry_bounds (controls_ w))
                   (frame_width w) (frame_height w) in
  let w2 := GoToCameraPreset CameraPreset.PLUS_Z w1 in
  let aspect :=
    if (0 <? frame_height w2)%Z
    then IZR (frame_width w2) / IZR (frame_height w2)
    else 1.0 in
  let far3 := norm (GetModelMatrix_translation (camera_ w2)) in
  let far := far_plane (bounds_ w2) far3 in
  mkImpl (SetProjection verticalFoV aspect NEAR_PLANE far FovType.Vertical
                        (camera_ w2))
         (bounds_ w2) (controls_ w2) (frame_width w2) (frame_height w2).

End WithCamera.

(** A [LookAt] that puts the camera at the eye and leaves the rest of
    it, for running the code. *)
Definition LookAt_eye (center eye up : Vec3) (c : Camera) : Camera :=
  mkCamera eye (forward c) (projection c).

(** A small box along the z axis, from the origin to (0, 0, 2/5), and a
    widget around it. *)
Definition small_box : AxisAlignedBoundingBox :=
  mkBox origin (mkVec3 0 0 (2 / 5)).
Definition small_widget : Impl :=
  mkImpl (mkCamera origin (mkVec3 0 0 (-1))
                   (mkProjection 60 1 NEAR_PLANE 100 FovType.Vertical))
         small_box demo_orbit 640 480.

Definition Controls_eqb (a b : Controls.t) : bool :=
  match a, b with
  | Controls.ROTATE_OBJ, Controls.ROTATE_OBJ
  | Controls.FLY, Controls.FLY
  | Controls.ROTATE_SUN, Controls.ROTATE_SUN
  | Controls.ROTATE_IBL, Controls.ROTATE_IBL
  | Controls.ROTATE_MODEL, Controls.ROTATE_MODEL => true
  | _, _ => false
  end.

Definition set_controls (c : Interactors) (w : Impl) : Impl :=
  mkImpl (camera_ w) (bounds_ w) c (frame_width w) (frame_height w).

(** [SceneWidget::SetViewControls]. *)
Definition SetViewControls (mode : Controls.t) (w : Impl) : Impl :=
  if Controls_eqb mode Controls.ROTATE_OBJ
     && Controls_eqb (GetControls (controls_ w)) Controls.FLY
  then
    let w1 := set_controls (SetControls mode (controls_ w)) w in
    let to_center := vsub (GetCenter (bounds_ w1)) (GetPosition (camera_ w1)) in
    let forward := GetForwardVector (camera_ w1) in
    let center :=
      vadd (GetPosition (camera_ w1)) (vscale (norm to_center) forward) in
    set_controls (Interactors_SetCenterOfRotation center (controls_ w1)) w1
  else
    set_controls (SetControls mode (controls_ w)) w.

(** The centre about which the orbit camera rotates. *)
Definition orbit_center (w : Impl) : Vec3 :=
  center_of_rotation (rot_logic (rotate_ (controls_ w))).

End SceneWidget.

(* ===================================================================== *)
(** ** [NumberEdit]                                                        *)
(* ===================================================================== *)

(** The values of a [NumberEdit] are doubles.  [SetValue] and [SetLimits]
    only copy, compare and round them to integers, which is exact on
    finite doubles: they are taken as rationals. *)
Module NumberEdit.

Local Open Scope Q_scope.

Inductive Type_ : Set := INT | DOUBLE.

Record Impl := mkImpl {
  type_ : Type_;
  value_ : Q;
  min_value_ : Q;
  max_value_ : Q
}.

(** [std::round]: to the nearest integer, halves away from zero. *)
Definition round (v : Q) : Q :=
  if Qle_bool 0 v then inject_Z (Qfloor (v + (1 # 2)))
  else inject_Z (Qceiling (v - (1 # 2))).

(** [std::min(a, b)] is [b < a ? b : a]; [std::max(a, b)] is
    [a < b ? b : a]. *)
Definition Qlt_bool (a b : Q) : bool := negb (Qle_bool b a).
Definition std_min (a b : Q) : Q := if Qlt_bool b a then b else a.
Definition std_max (a b : Q) : Q := if Qlt_bool a b then b else a.

Definition SetValue (val : Q) (s : Impl) : Impl :=
  match type_ s with
  | INT => mkImpl (type_ s) (round val) (min_value_ s) (max_value_ s)
  | DOUBLE => mkImpl (type_ s) val (min_value_ s) (max_value_ s)
  end.

Definition GetMinimumValue (s : Impl) : Q := min_value_ s.
Definition GetMaximumValue (s : Impl) : Q := max_value_ s.
Definition GetDoubleValue (s : Impl) : Q := value_ s.

(** [NumberEdit::SetLimits]. *)
Definition SetLimits (min_value max_value : Q) (s : Impl) : Impl :=
  let s1 :=
    match type_ s with
    | INT => mkImpl (type_ s) (value_ s) (round min_value) (round max_value)
    | DOUBLE => mkImpl (type_ s) (value_ s) min_value min_value
    end in
  mkImpl (type_ s1)
         (std_min max_value (std_max min_value (value_ s1)))
         (min_value_ s1) (max_value_ s1).

(** A floating-point edit holding 25, with the limits of the header. *)
Definition demo_edit : Impl :=
  mkImpl DOUBLE 25 (-2000000000) 2000000000.

End NumberEdit.

(* ===================================================================== *)
(** ** Sessions of the dispatcher                                          *)
(* ===================================================================== *)

(** The public members of [Interactors] as operations, and what a
    sequence of them does, starting from the constructor. *)
Module Session.

Import Geometry Events Interactor.

(** [Interactors::SetViewSize]: all five logic objects get the size. *)
Definition Interactors_SetViewSize (w h : Z) (s : Interactors) : Interactors :=
  mkInteractors (on_rotation_logic (SetViewSize w h) (rotate_ s))
                (on_fly_logic (SetViewSize w h) (fly_ s))
                (on_rotator_logic (SetViewSize w h) (sun_ s))
                (on_rotator_logic (SetViewSize w h) (ibl_ s))
                (on_rotation_logic (SetViewSize w h) (model_ s))
                (current_ s) (override_ s).

Inductive Op : Type :=
| OpMouse (e : MouseEvent)
| OpKey (e : KeyEvent)
| OpTick
| OpSetControls (mode : Controls.t)
| OpSetViewSize (w h : Z)
| OpSetBoundingBox (b : AxisAlignedBoundingBox)
| OpSetCenterOfRotation (c : Vec3).

Definition step (K : Codes) (o : Op) (s : Interactors) : Interactors :=
  match o with
  | OpMouse e => fst (Mouse K e s)
  | OpKey e => Key e s
  | OpTick => s          (* [Tick] changes no member of the dispatcher *)
  | OpSetControls mode => SetControls mode s
  | OpSetViewSize w h => Interactors_SetViewSize w h s
  | OpSetBoundingBox b => Interactors_SetBoundingBox b s
  | OpSetCenterOfRotation c => Interactors_SetCenterOfRotation c s
  end.

Definition run (K : Codes) (ops : list Op) (s : Interactors) : Interactors :=
  fold_left (fun s o => step K o s) ops s.

(** The keys [FlyInteractor::Tick] looks for. *)
Definition tick_keys (K : Codes) : list N :=
  [97; 100; 119; 115; 113; 122; 101; 114;
   KEY_UP K; KEY_DOWN K; KEY_LEFT K; KEY_RIGHT K]%N.

(** A drag gesture of the fly interactor: the button goes down at
    [(x0, y0)] and the pointer is dragged through the points [ps], with
    the modifier mask [m] throughout; the calls made, in order. *)
Fixpoint Fly_drags (K : Codes) (m : Z) (ps : list (Z * Z)) (s : Fly)
    : Fly * list Call :=
  match ps with
  | [] => (s, [])
  | (px, py) :: ps' =>
      let (s1, c1) := Fly_Mouse K (mkMouse DRAG px py m) s in
      let (s2, c2) := Fly_drags K m ps' s1 in
      (s2, c1 ++ c2)
  end.

(** The sum of the deltas of the [RotateFly] requests of a log. *)
Fixpoint RotateFly_total (cs : list Call) : Z * Z :=
  match cs with
  | [] => (0, 0)%Z
  | RotateFly dx dy :: cs' =>
      let (tx, ty) := RotateFly_total cs' in ((dx + tx)%Z, (dy + ty)%Z)
  | _ :: cs' => RotateFly_total cs'
  end.

(** Mouse events handed to a rotation interactor, one after the other. *)
Fixpoint Rotation_all (K : Codes) (es : list MouseEvent) (s : Rotation)
    : Rotation :=
  match es with
  | [] => s
  | e :: es' => Rotation_all K es' (fst (Rotation_Mouse K e s))
  end.

(** Neither a button-down nor a button-up. *)
Definition within_gesture (e : MouseEvent) : bool :=
  match type e with
  | BUTTON_DOWN _ | BUTTON_UP _ => false
  | _ => true
  end.

(** The request a drag makes in a state of the rotation interactor. *)
Definition drag_request (st : State.t) (dx dy : Z) : list Call :=
  match st with
  | State.NONE => []
  | State.PAN => [Pan dx dy]
  | State.DOLLY => [Dolly (IZR dy) DragType.MOUSE]
  | State.ROTATE_XY => [Rotate dx dy]
  | State.ROTATE_Z => [RotateZ dx dy]
  end.

End Session.

(* ===================================================================== *)
(** ** Sizing the capture target                                           *)
(* ===================================================================== *)

(** [SetDimensions] and [CopySettings] of [FilamentRenderToBuffer], over
    the members of [RenderToBuffer.State] and the handles that module
    leaves out. *)
Module RenderTarget.

Import RenderToBuffer.

(** [std::size_t] is taken as 64 bits wide, [std::uint32_t] as 32. *)
Definition wrap64 (n : N) : N := (n mod 2 ^ 64)%N.
Definition wrap32 (n : N) : N := (n mod 2 ^ 32)%N.

(** [filament::Viewport]. *)
Record Viewport := mkViewport {
  left : Z;
  bottom : Z;
  vp_width : N;
  vp_height : N
}.

(** Modelled from the spec: [FilamentView] is declared in the sources
    (FilamentView.h) but not defined there.  A view is known by its
    address; of a view its viewport is kept, which [SetViewport(x, y, w,
    h)] stores, narrowing the sizes to [std::uint32_t] as its
    declaration says, and which [GetNativeView()->getViewport()]
    returns. *)
Definition Views := gmap N Viewport.

Record Target := mkTarget {
  core : State;
  swapchain_ : option (N * N);  (* the size the swap chain was made for *)
  view_ : option N              (* [FilamentView*], [None] for null *)
}.

Definition set_dimensions (w h : N) (p : option Ptr) (s : State) : State :=
  mkState w h p (wrap64 (wrap64 (wrap64 (w * h) * 3) * 1))
          (callback_ s) (frame_done_ s) (pending_ s).

Section Sizing.

(** [realloc] of the C library. *)
Variable realloc : Ptr -> N -> option Ptr.

(** [FilamentRenderToBuffer::SetDimensions].  The old swap chain is
    destroyed and a new one created; the view, which is dereferenced, has
    to be there: with a null [view_] the call is undefined, which is
    [None]. *)
Definition SetDimensions (width height : N) (t : Target) (views : Views)
    : option (Target * Views) :=
  match view_ t with
  | None => None
  | Some v =>
      match views !! v with
      | None => None
      | Some _ =>
          let views' :=
            <[ v := mkViewport 0 0 (wrap32 width) (wrap32 height) ]> views in
          let size := wrap64 (wrap64 (wrap64 (width * height) * 3) * 1) in
          let buffer' :=
            match buffer_ (core t) with
            | Some p => realloc p size
            | None => None
            end in
          Some (mkTarget (set_dimensions width height buffer' (core t))
                         (Some (width, height))
                         (Some v),
                views')
      end
  end.

(** [FilamentRenderToBuffer::CopySettings]; [view] is the result of the
    [dynamic_cast] to [FilamentView]. *)
Definition CopySettings (view : option N) (t : Target) (views : Views)
    : option (Target * Views) :=
  let t1 := mkTarget (core t) (swapchain_ t) view in
  match view with
  | None => Some (t1, views)
  | Some v =>
      match views !! v with
      | None => None
      | Some vp => SetDimensions (vp_width vp) (vp_height vp) t1 views
      end
  end.

End Sizing.

(** The size of the buffer agrees with the dimensions. *)
Definition sized (s : State) : Prop :=
  buffer_size_ s = wrap64 (width_ s * height_ s * 3).

(** What the request path leaves alone: the dimensions, the size of the
    buffer, and the buffer once there is one. *)
Definition same_target (s s' : State) : Prop :=
  width_ s' = width_ s
  /\ height_ s' = height_ s
  /\ buffer_size_ s' = buffer_size_ s
  /\ (forall p, buffer_ s = Some p -> buffer_ s' = Some p).

(** Values for running the code: a view of 640 x 480 at (10, 20). *)
Definition demo_views : Views := {[ 1%N := mkViewport 10 20 640 480 ]}.
Definition demo_target : Target := mkTarget initial None None.
Definition demo_realloc (p : Ptr) (n : N) : option Ptr := Some (p + 1)%N.

End RenderTarget.

(* ===================================================================== *)
(** ** Reading a [NumberEdit]                                              *)
(* ===================================================================== *)

Module NumberEditValue.

Import NumberEdit.

(** The conversion of a double to [int] drops the fraction; a value
    whose integer part is no [int] has no defined conversion. *)
Definition truncate (v : Q) : Z := Z.quot (Qnum v) (Zpos (Qden v)).
Definition INT_MIN : Z := (- 2 ^ 31)%Z.
Definition INT_MAX : Z := (2 ^ 31 - 1)%Z.

(** [NumberEdit::GetIntValue]: [int(impl_->value_)]. *)
Definition GetIntValue (s : Impl) : option Z :=
  let z := truncate (value_ s) in
  if (INT_MIN <=? z)%Z && (z <=? INT_MAX)%Z then Some z else None.

End NumberEditValue.

(* ===================================================================== *)
(** ** [ListView]                                                          *)
(* ===================================================================== *)

Module ListView.

Local Open Scope Z_scope.

(** [std::size_t] is taken as 64 bits wide and [int] as 32; the
    conversion of a [size_t] to [int] keeps the low 32 bits, read as a
    two's complement number. *)
Definition to_size_t (z : Z) : Z := z mod 2 ^ 64.
Definition to_int (z : Z) : Z := (z + 2 ^ 31) mod 2 ^ 32 - 2 ^ 31.

Definition NO_SELECTION : Z := -1.

Record Impl := mkImpl {
  items_ : list String.string;
  selected_index_ : Z
}.

(** [items_.size()]. *)
Definition size (s : Impl) : Z := Z.of_nat (length (items_ s)).

(** The list as the constructor leaves it. *)
Definition new_ListView : Impl := mkImpl [] NO_SELECTION.

Definition SetItems (items : list String.string) (s : Impl) : Impl :=
  mkImpl items NO_SELECTION.

Definition GetSelectedIndex (s : Impl) : Z := selected_index_ s.

(** [items_[i]]: defined for an index below the size only. *)
Definition at_index (s : Impl) (i : Z) : option String.string :=
  if (0 <=? i) && (i <? size s) then nth_error (items_ s) (Z.to_nat i)
  else None.

(** [ListView::GetSelectedValue]; [None] stands for an access outside
    the vector. *)
Definition GetSelectedValue (s : Impl) : option String.string :=
  if (selected_index_ s <? 0) || (selected_index_ s >=? to_int (size s))
  then Some String.EmptyString
  else at_index s (selected_index_ s).

(** [ListView::SetSelectedIndex]:
    [std::min(int(items_.size() - 1), index)]. *)
Definition SetSelectedIndex (index : Z) (s : Impl) : Impl :=
  mkImpl (items_ s) (Z.min (to_int (to_size_t (size s - 1))) index).

(** A list of three items, for running the code. *)
Import String.StringSyntax.
Local Open Scope string_scope.
Definition demo_list : Impl := SetItems ["red"; "green"; "blue"] new_ListView.

End ListView.

(* ===================================================================== *)
(** ** [Application]: windows and the resource path                        *)
(* ===================================================================== *)

Module Application.

(** *** The set of windows *)

(** The members of [Application::Impl] that [AddWindow], [RemoveWindow],
    [Quit] and [OnTerminate] touch.  A window is known by its address. *)
Record Impl := mkImpl {
  windows_ : gset N;
  windows_to_be_destroyed_ : gset N;
  should_quit_ : bool
}.

(** Calls made of a window. *)
Inductive WindowCall : Type :=
| OnResize (w : N)
| Show (w : N).

(** [Application::AddWindow]. *)
Definition AddWindow (w : N) (s : Impl) : Impl * list WindowCall :=
  (mkImpl ({[ w ]} ∪ windows_ s) (windows_to_be_destroyed_ s)
          (should_quit_ s),
   [OnResize w; Show w]).

(** [Application::RemoveWindow]. *)
Definition RemoveWindow (w : N) (s : Impl) : Impl :=
  let s1 :=
    if bool_decide (w ∈ windows_ s)
    then mkImpl (windows_ s ∖ {[ w ]})
                ({[ w ]} ∪ windows_to_be_destroyed_ s)
                (should_quit_ s)
    else s in
  if bool_decide (windows_ s1 = ∅)
  then mkImpl (windows_ s1) (windows_to_be_destroyed_ s1) true
  else s1.

Section Quitting.

(** [windows_.begin()->get()]: some window of a set that is not empty;
    which one is up to the hash table. *)
Variable begin : gset N -> N.

(** The loop of [Application::Quit], for at most [fuel] turns; [None]
    when it is still turning after them. *)
Fixpoint Quit_loop (fuel : nat) (s : Impl) : option Impl :=
  if bool_decide (windows_ s = ∅) then Some s
  else
    match fuel with
    | O => None
    | S fuel' => Quit_loop fuel' (RemoveWindow (begin (windows_ s)) s)
    end.

(** [Application::OnTerminate], after the loop of [Quit]. *)
Definition OnTerminate (fuel : nat) (s : Impl) : option Impl :=
  match Quit_loop fuel s with
  | Some s' => Some (mkImpl (windows_ s') ∅ (should_quit_ s'))
  | None => None
  end.

End Quitting.

(** A choice of [begin], for running the code: the first element
    listed. *)
Definition first_window (X : gset N) : N := default 0%N (head (elements X)).

(** *** [FindResourcePath] *)

Import String.StringSyntax Ascii.AsciiSyntax.

Local Open Scope char_scope.
Definition slash : Ascii.ascii := "/".
Definition backslash : Ascii.ascii := "\".
Definition colon : Ascii.ascii := ":".
Local Close Scope char_scope.

Definition npos : N := (2 ^ 64 - 1)%N.
Definition wrap64 (z : Z) : N := Z.to_N (z mod 2 ^ 64).

(** [s.size()]. *)
Definition size (s : String.string) : N := N.of_nat (String.length s).

(** [s.substr(0, n)]. *)
Fixpoint substr0 (n : N) (s : String.string) : String.string :=
  match s with
  | String.EmptyString => String.EmptyString
  | String.String c s' =>
      if (n =? 0)%N then String.EmptyString
      else String.String c (substr0 (n - 1) s')
  end.

(** [s.rfind(pat)] for a pattern that is not empty: the position of the
    last occurrence, or [npos]. *)
Fixpoint rfind_from (pat s : String.string) (i : N) : option N :=
  match s with
  | String.EmptyString => None
  | String.String c s' =>
      match rfind_from pat s' (i + 1) with
      | Some j => Some j
      | None => if String.prefix pat s then Some i else None
      end
  end.

Definition rfind (pat s : String.string) : N :=
  match rfind_from pat s 0 with
  | Some i => i
  | None => npos
  end.

(** [s[i]], for [i] up to the size: the character there, the null
    character at the size. *)
Definition at_ (s : String.string) (i : nat) : Ascii.ascii :=
  match String.get i s with
  | Some c => c
  | None => Ascii.zero
  end.

(** The loop that turns backslashes into slashes. *)
Fixpoint slashes (s : String.string) : String.string :=
  match s with
  | String.EmptyString => String.EmptyString
  | String.String c s' =>
      String.String (if Ascii.eqb c backslash then slash else c)
                    (slashes s')
  end.

(** The test for an absolute path. *)
Definition is_absolute (argv0 : String.string) : bool :=
  Ascii.eqb (at_ argv0 0) slash
  || ((3 <? size argv0)%N
      && Ascii.eqb (at_ argv0 1) colon
      && Ascii.eqb (at_ argv0 2) slash).

(** What the function asks of its surroundings: the working directory,
    which directories exist, and whether it was compiled for macOS. *)
Record Env := mkEnv {
  GetWorkingDirectory : String.string;
  DirectoryExists : String.string -> bool;
  APPLE : bool
}.

Local Open Scope string_scope.

(** Concatenation of strings. *)
Infix "+++" := String.append (at level 60, right associativity).

(** [FindResourcePath(argc, argv)]; the argument is [argv[0]], and
    [None] when [argc] is 0 or [argv] is null. *)
Definition FindResourcePath (E : Env) (arg : option String.string)
    : String.string :=
  let argv0 :=
    slashes (match arg with Some a => a | None => String.EmptyString end) in
  let last_slash := rfind "/" argv0 in
  let path := substr0 last_slash argv0 in
  let path :=
    if is_absolute argv0 then path
    else GetWorkingDirectory E +++ "/" +++ path in
  if APPLE E
     && (rfind "MacOS" path =? wrap64 (Z.of_N (size path) - 5))%N
  then substr0 (wrap64 (Z.of_N (size path) - 5)) path +++ "Resources"
  else
    let resource_path := path +++ "/resources" in
    if DirectoryExists E resource_path then resource_path
    else path +++ "/../resources".

(** [Application::Initialize(argc, argv)]: the resource path and the
    path of the font, given the name of the font file. *)
Definition Initialize (E : Env) (arg : option String.string)
    (font_path : String.string) : String.string * String.string :=
  let resource_path_ := FindResourcePath E arg in
  (resource_path_, resource_path_ +++ "/" +++ font_path).

(** [Application::Initialize()]: the working directory stands in for
    [argv[0]]. *)
Definition Initialize_here (E : Env) (font_path : String.string)
    : String.string * String.string :=
  Initialize E (Some (GetWorkingDirectory E)) font_path.

(** A character does not occur in a string. *)
Fixpoint free_of (c : Ascii.ascii) (s : String.string) : bool :=
  match s with
  | String.EmptyString => true
  | String.String d s' => negb (Ascii.eqb d c) && free_of c s'
  end.

(** Surroundings for running the code: no resource directory exists. *)
Definition linux_in (cwd : String.string) : Env :=
  mkEnv cwd (fun _ => false) false.
Definition macos_in (cwd : String.string) : Env :=
  mkEnv cwd (fun _ => false) true.

End Application.

(* ===================================================================== *)
(** ** The render quality of [SceneWidget]                                 *)
(* ===================================================================== *)

(** [SceneWidget::SetRenderQuality], [GetRenderQuality], and what
    [SceneWidget::Mouse], [Key] and [Tick] do around the call of the
    dispatcher: the widget renders fast while the user acts and goes back
    to the best quality a moment after.  Times are doubles, in seconds:
    they are binary64 floating-point numbers, and the subtraction and the
    comparison of the code are those of IEEE 754. *)
Module RenderQuality.

Import Events Interactor.
Import PrimFloat.

(** The two values of [SceneWidget::Quality] that the code names. *)
Inductive Quality : Set := FAST | BEST.

Definition Quality_eqb (a b : Quality) : bool :=
  match a, b with
  | FAST, FAST | BEST, BEST => true
  | _, _ => false
  end.

(** The double nearest to 0.2. *)
Definition DELAY_FOR_BEST_RENDERING_SECS : float := 0x1.999999999999ap-3%float.

(** The members of [ModelDescription] that [SetRenderQuality] reads. *)
Record ModelDescription := mkModel {
  point_clouds : list N;
  fast_point_clouds : list N
}.

(** A call of [Scene::SetEntityEnabled]. *)
Inductive SceneCall : Type :=
| SetEntityEnabled (p : N) (enabled : bool).

Section Host.

Variable K : Codes.

(** The view of the widget, [scene_.GetView(view_id_)]; the code of the
    view is not among the sources, and its two functions are taken as
    they come. *)
Variable View : Type.
Variable GetSampleCount : View -> Z.
Variable SetSampleCount : Z -> View -> View.

(** The view gives back the sample count it was given. *)
Definition keeps_sample_count : Prop :=
  forall (n : Z) (v : View), GetSampleCount (SetSampleCount n v) = n.

(** [int(e.button.button)]: the values of the enumerators of
    [MouseButton] are in a header that is not among the sources. *)
Variable button_code : MouseButton -> Z.

(** The members of [SceneWidget::Impl] that these functions touch, with
    the view; [on_camera_changed_] tells whether the callback is set. *)
Record Impl := mkImpl {
  view_ : View;
  model_ : ModelDescription;
  controls_ : Interactors;
  on_camera_changed_ : bool;
  buttons_down_ : Z;
  last_fast_time_ : float
}.

Definition set_view (v : View) (s : Impl) : Impl :=
  mkImpl v (model_ s) (controls_ s) (on_camera_changed_ s)
         (buttons_down_ s) (last_fast_time_ s).
Definition set_controls (c : Interactors) (s : Impl) : Impl :=
  mkImpl (view_ s) (model_ s) c (on_camera_changed_ s)
         (buttons_down_ s) (last_fast_time_ s).
Definition set_buttons_down (b : Z) (s : Impl) : Impl :=
  mkImpl (view_ s) (model_ s) (controls_ s) (on_camera_changed_ s)
         b (last_fast_time_ s).
Definition set_last_fast_time (t : float) (s : Impl) : Impl :=
  mkImpl (view_ s) (model_ s) (controls_ s) (on_camera_changed_ s)
         (buttons_down_ s) t.

(** [SceneWidget::GetRenderQuality]. *)
Definition GetRenderQuality (s : Impl) : Quality :=
  if (GetSampleCount (view_ s) =? 1)%Z then FAST else BEST.

(** [SceneWidget::SetRenderQuality]: the new state and the calls made of
    the scene. *)
Definition SetRenderQuality (quality : Quality) (s : Impl)
    : Impl * list SceneCall :=
  let currentQuality := GetRenderQuality s in
  if negb (Quality_eqb currentQuality quality) then
    let is_fast := Quality_eqb quality FAST in
    let s1 :=
      if is_fast then set_view (SetSampleCount 1 (view_ s)) s
      else set_view (SetSampleCount 4 (view_ s)) s in
    (s1,
     match fast_point_clouds (model_ s) with
     | [] => []
     | _ :: _ =>
         map (fun p => SetEntityEnabled p (negb is_fast))
             (point_clouds (model_ s))
         ++ map (fun p => SetEntityEnabled p is_fast)
                (fast_point_clouds (model_ s))
     end)
  else (s, []).

(** What a call of [SceneWidget::Mouse] does beside changing the state:
    the calls made of the scene, what the dispatcher reports, and whether
    the callback for a changed camera ran. *)
Record MouseOut := mkMouseOut {
  scene_calls : list SceneCall;
  handled : option (Which * list Call);
  camera_changed : bool
}.

Definition is_move (e : MouseEvent) : bool :=
  match type e with MOVE => true | _ => false end.

(** [SceneWidget::Mouse]; [now] is what [Application::Now()] gives where
    it is read. *)
Definition Mouse (e : MouseEvent) (now : float) (s : Impl)
    : Impl * MouseOut :=
  let (s1, calls) :=
    if negb (is_move e) then SetRenderQuality FAST s else (s, []) in
  let s2 :=
    match type e with
    | DRAG | WHEEL _ _ => set_last_fast_time now s1
    | _ => s1
    end in
  let s3 :=
    match type e with
    | BUTTON_DOWN button =>
        set_buttons_down (Z.lor (buttons_down_ s2) (button_code button)) s2
    | BUTTON_UP button =>
        set_buttons_down
          (Z.land (buttons_down_ s2) (Z.lnot (button_code button))) s2
    | _ => s2
    end in
  let (c, h) := Interactor.Mouse K e (controls_ s3) in
  (set_controls c s3, mkMouseOut calls h (on_camera_changed_ s3)).

(** [SceneWidget::Key]: the new state and whether the callback ran. *)
Definition Key (e : KeyEvent) (s : Impl) : Impl * bool :=
  (set_controls (Interactor.Key e (controls_ s)) s, on_camera_changed_ s).

(** [SceneWidget::Tick]; [now_redraw] and [now_check] are what
    [Application::Now()] gives at the first and at the second place it
    is read.  The calls made of the logic objects and of the scene come
    with the result. *)
Definition Tick (now_redraw now_check : float) (s : Impl)
    : Impl * (list Call * list SceneCall * DrawResult.t) :=
  let (calls, result) := Interactor.Tick K (controls_ s) in
  let (s1, sc1) :=
    match result with
    | DrawResult.REDRAW =>
        let (s', sc) := SetRenderQuality FAST s in
        (set_last_fast_time now_redraw s', sc)
    | DrawResult.NONE => (s, [])
    end in
  if (buttons_down_ s1 =? 0)%Z && Quality_eqb (GetRenderQuality s1) FAST
  then
    if ltb DELAY_FOR_BEST_RENDERING_SECS (sub now_check (last_fast_time_ s1))
    then
      let (s2, sc2) := SetRenderQuality BEST s1 in
      (s2, (calls, sc1 ++ sc2, DrawResult.REDRAW))
    else (s1, (calls, sc1, result))
  else (s1, (calls, sc1, result)).

(** The events a widget gets, with the times read while they are
    handled. *)
Inductive Op : Type :=
| OpMouse (e : MouseEvent) (now : float)
| OpKey (e : KeyEvent)
| OpTick (now_redraw now_check : float).

Definition step (o : Op) (s : Impl) : Impl :=
  match o with
  | OpMouse e now => fst (Mouse e now s)
  | OpKey e => fst (Key e s)
  | OpTick t1 t2 => fst (Tick t1 t2 s)
  end.

Definition run (ops : list Op) (s : Impl) : Impl :=
  fold_left (fun s o => step o s) ops s.

(** The event tells that a button was released. *)
Definition releases (o : Op) : bool :=
  match o with
  | OpMouse e _ => is_button_up e
  | _ => false
  end.

End Host.

(** A view that keeps the sample count it was given, and the buttons as
    one bit each, for running the code. *)
Definition cell_get (v : Z) : Z := v.
Definition cell_set (n : Z) (_ : Z) : Z := n.
Definition one_bit (b : MouseButton) : Z :=
  match b with
  | NONE => 0 | LEFT => 1 | MIDDLE => 2 | RIGHT => 4
  | BUTTON4 => 8 | BUTTON5 => 16
  end.

(** A widget in orbit mode that renders at the best quality, showing a
    point cloud 7 with the fast stand-in 8. *)
Definition demo_widget : Impl Z :=
  mkImpl 4%Z (mkModel [7%N] [8%N]) demo_orbit false 0 0%float.

End RenderQuality.


(* ===================================================================== *)
(** * Properties                                                           *)
(* ===================================================================== *)

(** ** The capture pipeline *)

Unset Implicit Arguments.

Section CaptureFacts.

Import RenderToBuffer.

Lemma invoke_inert (malloc : N -> option Ptr) cb arg s :
  inert cb ->
  invoke malloc cb arg s =
    (s, [Called (handler_name cb) arg (pending_ s) (frame_done_ s)]).
Proof.
  destruct cb as [n body]; simpl; intros H.
  rewrite H; reflexivity.
Qed.

(** While a request is pending no callback, whatever it asks for, changes
    the object: every request it makes is turned down. *)
Lemma invoke_while_pending (malloc : N -> option Ptr) :
  forall cb arg s,
    pending_ s = true ->
    exists t,
      invoke malloc cb arg s =
        (s, Called (handler_name cb) arg true (frame_done_ s) :: t)
      /\ Forall (nested_rejection (frame_done_ s)) t.
Proof.
  intros cb.
  induction cb using callback_mut with
    (P0 := fun r => forall s, pending_ s = true ->
             exists t, reenter malloc r s = (s, t)
                       /\ Forall (nested_rejection (frame_done_ s)) t).
  - (* Handler *)
    intros arg s Hp; simpl.
    destruct (H arg s Hp) as (t & Ht & Hall).
    exists t; rewrite Ht, Hp; auto.
  - (* Return *)
    intros s _; exists []; simpl; auto.
  - (* ThenRequestFrame *)
    intros s Hp; simpl.
    assert (Hreq : RequestFrame_with malloc (invoke malloc) scene cb s
                   = invoke malloc cb empty_buffer s).
    { unfold RequestFrame_with. destruct scene; [rewrite Hp|]; reflexivity. }
    rewrite Hreq.
    destruct (IHcb empty_buffer s Hp) as (t1 & Ht1 & Hall1).
    destruct (IHcb0 s Hp) as (t2 & Ht2 & Hall2).
    rewrite Ht1, Ht2.
    eexists; split; [reflexivity|].
    simpl; constructor; [exists (handler_name cb); reflexivity|].
    apply Forall_app; auto.
Qed.

Lemma nested_rejection_rejected d e : nested_rejection d e -> rejected e.
Proof. intros (n & ->); reflexivity. Qed.

Lemma loop_prefix_skip shotDone s pre :
  loop_prefix shotDone s pre ->
  loop_prefix shotDone s (BeginFrame false :: pre).
Proof.
  intros [Hc Hr]; split; [exact Hc|].
  destruct shotDone; [exact Hr|].
  destruct Hr as (k & rest & -> & Hrest).
  exists (S k), rest; split; [reflexivity|exact Hrest].
Qed.

Lemma loop_prefix_frame s pre :
  loop_prefix true s pre ->
  forall shotDone,
  loop_prefix shotDone s
    (BeginFrame true :: RenderView
       :: (if shotDone then []
           else [ReadPixels (buffer_ s) (buffer_size_ s)]) ++ EndFrame :: pre).
Proof.
  intros [Hc Hr] [|]; split; simpl; auto.
  exists 0%nat, (EndFrame :: pre); split; [reflexivity|exact Hr].
Qed.

Lemma Render_loop_done (malloc : N -> option Ptr) sched shotDone user s :
  frame_done_ s = true ->
  Render_loop malloc sched shotDone user s = Returned s [].
Proof.
  intros H; destruct sched; simpl; rewrite H; reflexivity.
Qed.

(** The loop, run on a pending request whose callback is [cb], with a
    renderer that completes the read-back in some accepted frame. *)
Lemma Render_loop_delivers (malloc : N -> option Ptr) cb :
  forall (sched : list Frame) (shotDone : bool)
         (user : option (option BufferReadyCallback)) (s : State),
    frame_done_ s = false ->
    pending_ s = true ->
    callback_ s = Some cb ->
    (shotDone = true -> user = Some (Some cb)) ->
    delivers sched = true ->
    exists pre nested,
      Render_loop malloc sched shotDone user s =
        Returned (set_frame_done true s)
                 (pre ++ Called (handler_name cb) (frame_of s) true false
                      :: nested)
      /\ loop_prefix shotDone s pre
      /\ Forall (nested_rejection false) nested
      /\ invoke malloc cb (frame_of s) s =
           (s, Called (handler_name cb) (frame_of s) true false :: nested).
Proof.
  induction sched as [|f sched' IH]; intros shotDone user s Hd Hp Hcb Hu Hdel.
  - discriminate.
  - simpl. rewrite Hd.
    assert (Hu' : (if shotDone then user else Some (callback_ s))
                  = Some (Some cb)).
    { destruct shotDone; [apply Hu; reflexivity | rewrite Hcb; reflexivity]. }
    rewrite Hu'.
    simpl in Hdel.
    destruct (begin_ok f); simpl in Hdel.
    + destruct (completes f); simpl in Hdel.
      * (* the read-back completes while this frame is ended *)
        unfold ReadPixelsCallback.
        destruct (invoke_while_pending malloc cb (frame_of s) s Hp)
          as (t & Ht & Hall).
        fold (frame_of s). rewrite Hd in Ht. rewrite Ht.
        rewrite Render_loop_done by reflexivity.
        exists (BeginFrame true :: RenderView
                  :: (if shotDone then []
                      else [ReadPixels (buffer_ s) (buffer_size_ s)])
                  ++ [EndFrame]), t.
        rewrite Hd in Hall.
        refine (conj _ (conj _ (conj Hall eq_refl))).
        -- simpl. rewrite app_nil_r, <- app_assoc. reflexivity.
        -- apply (loop_prefix_frame s []). split; reflexivity.
      * (* a frame is submitted and ended without the completion *)
        destruct (IH true (Some (Some cb)) s Hd Hp Hcb (fun _ => eq_refl) Hdel)
          as (pre & nested & Hrun & Hpre & Hall & Hin).
        rewrite Hrun.
        exists (BeginFrame true :: RenderView
                  :: (if shotDone then []
                      else [ReadPixels (buffer_ s) (buffer_size_ s)])
                  ++ EndFrame :: pre), nested.
        refine (conj _ (conj _ (conj Hall Hin))).
        -- simpl. rewrite <- !app_assoc. reflexivity.
        -- apply loop_prefix_frame; exact Hpre.
    + (* beginFrame turns the frame down *)
      destruct (IH shotDone user s Hd Hp Hcb Hu Hdel)
        as (pre & nested & Hrun & Hpre & Hall & Hin).
      rewrite Hrun.
      exists (BeginFrame false :: pre), nested.
      refine (conj _ (conj _ (conj Hall Hin))).
      -- reflexivity.
      -- apply loop_prefix_skip; exact Hpre.
Qed.

(** Without a completion in an accepted frame the loop does not exit. *)
Lemma Render_loop_spins (malloc : N -> option Ptr) :
  forall (sched : list Frame) (shotDone : bool)
         (user : option (option BufferReadyCallback)) (s : State),
    frame_done_ s = false ->
    delivers sched = false ->
    Render_loop malloc sched shotDone user s = Spinning.
Proof.
  induction sched as [|f sched' IH]; intros shotDone user s Hd Hdel;
    simpl; rewrite Hd; [reflexivity|].
  simpl in Hdel. apply orb_false_iff in Hdel as [Hf Hdel].
  destruct (begin_ok f); simpl in Hf.
  - rewrite Hf. rewrite IH by assumption. reflexivity.
  - rewrite IH by assumption. reflexivity.
Qed.

Lemma RequestFrame_rejecting (malloc : N -> option Ptr) scene cb s :
  scene = None \/ pending_ s = true ->
  RequestFrame malloc scene cb s = invoke malloc cb empty_buffer s.
Proof.
  unfold RequestFrame, RequestFrame_with.
  intros [-> | Hp]; [reflexivity|].
  rewrite Hp. destruct scene; reflexivity.
Qed.

(** C1.  A [RequestFrame] without a scene, or while a request is pending,
    does nothing but call the callback it was given, at once, with the
    zero-sized buffer [{0, 0, nullptr, 0}]: the call is made on the object
    as it was, and no member is written.  For a callback that does not
    itself call back into the object the call is the only one made and
    the object is returned as it was; while a request is pending this
    holds of the object for every callback, since what the callback
    requests in turn is rejected in the same way.  Nothing is queued:
    [pending_], [callback_] and [buffer_] of the request in flight are
    untouched, and a later [Render] behaves as if the call had not been
    made. *)
Theorem RequestFrame_rejects_and_keeps_request
    (malloc : N -> option Ptr) (s : State) (scene : option Scene)
    (cb : BufferReadyCallback) :
  scene = None \/ pending_ s = true ->
  RequestFrame malloc scene cb s = invoke malloc cb empty_buffer s
  /\ (inert cb \/ pending_ s = true ->
      exists nested,
        RequestFrame malloc scene cb s =
          (s, Called (handler_name cb) empty_buffer
                     (pending_ s) (frame_done_ s)
                :: nested)
        /\ Forall rejected nested
        /\ (inert cb -> nested = [])
        /\ forall sched,
             Render malloc sched (fst (RequestFrame malloc scene cb s))
             = Render malloc sched s).
Proof.
  intros Hrej.
  split; [exact (RequestFrame_rejecting malloc scene cb s Hrej)|].
  intros Hcb.
  rewrite (RequestFrame_rejecting malloc scene cb s Hrej).
  destruct Hcb as [Hin | Hp].
  - exists []. rewrite (invoke_inert malloc cb empty_buffer s Hin).
    repeat split; auto.
  - destruct (invoke_while_pending malloc cb empty_buffer s Hp)
      as (t & Ht & Hall).
    exists t. rewrite Ht, Hp. refine (conj eq_refl (conj _ (conj _ _))).
    + eapply Forall_impl; [|exact Hall].
      intros e; apply nested_rejection_rejected.
    + intros Hin. rewrite (invoke_inert malloc cb empty_buffer s Hin) in Ht.
      injection Ht as _ Ht. symmetry; exact Ht.
    + reflexivity.
Qed.

Lemma RequestFrame_rejects_and_keeps_request_witness :
  (Some 7%N = None \/ pending_ demo_busy = true)
  /\ exists nested,
       RequestFrame demo_malloc (Some 7%N) demo_inner demo_busy =
         (demo_busy, Called 2 empty_buffer true true :: nested)
       /\ Forall rejected nested
       /\ (inert demo_inner -> nested = [])
       /\ forall sched,
            Render demo_malloc sched
              (fst (RequestFrame demo_malloc (Some 7%N) demo_inner demo_busy))
            = Render demo_malloc sched demo_busy.
Proof.
  assert (H1 : Some 7%N = None \/ pending_ demo_busy = true)
    by (right; reflexivity).
  exact (conj H1
           (proj2 (RequestFrame_rejects_and_keeps_request
                     demo_malloc demo_busy (Some 7%N) demo_inner H1)
                  (or_intror eq_refl))).
Defined.

Example RequestFrame_while_busy :
  RequestFrame demo_malloc (Some 7%N) demo_inner demo_busy
  = (demo_busy, [Called 2 empty_buffer true true]).
Proof. reflexivity. Qed.

Example RequestFrame_without_scene :
  RequestFrame demo_malloc None demo_inner initial
  = (initial, [Called 2 empty_buffer false true]).
Proof. reflexivity. Qed.

(** C2, as it is worded, fails: [RequestFrame] does not run the render
    loop.  On the freshly constructed object, with a scene, it returns
    having submitted no frame and called nothing, and the request is
    still pending. *)
Lemma RequestFrame_returns_before_any_frame :
  snd (RequestFrame demo_malloc (Some 7%N) demo_inner initial) = []
  /\ pending_ (fst (RequestFrame demo_malloc (Some 7%N) demo_inner initial))
     = true
  /\ ~ (exists arg p d,
          In (Called (handler_name demo_inner) arg p d)
             (snd (RequestFrame demo_malloc (Some 7%N) demo_inner initial))).
Proof.
  split; [reflexivity|]. split; [reflexivity|].
  intros (arg & p & d & []).
Qed.

(** C2, amended.  With a scene and no request pending, [RequestFrame]
    sets [pending_], allocates the buffer if there is none, stores the
    callback, and returns without submitting a frame or calling the
    callback.  The loop is [Render], a separate member: it submits
    frames, issues the read-back in the first frame the renderer accepts
    and in no other, goes on until the completion of the read-back has
    called the stored callback with [{width_, height_, buffer_,
    buffer_size_}], then clears [pending_] and returns; as long as the
    renderer does not complete the read-back it does not return. *)
Theorem RequestFrame_stores_and_Render_completes
    (malloc : N -> option Ptr) (s : State) (scene : Scene)
    (cb : BufferReadyCallback) (sched : list Frame) :
  pending_ s = false ->
  delivers sched = true ->
  let s1 :=
    mkState (width_ s) (height_ s)
            (match buffer_ s with
             | None => malloc (buffer_size_ s)
             | Some p => Some p
             end)
            (buffer_size_ s) (Some cb) (frame_done_ s) true in
  RequestFrame malloc (Some scene) cb s = (s1, [])
  /\ (exists pre nested,
        Render malloc sched s1 =
          Returned (set_pending false (set_frame_done true s1))
                   (pre ++ Called (handler_name cb) (frame_of s1) true false
                        :: nested)
        /\ loop_prefix false s1 pre
        /\ Forall (nested_rejection false) nested
        /\ (inert cb -> nested = []))
  /\ (forall sched', delivers sched' = false ->
                     Render malloc sched' s1 = Spinning).
Proof.
  intros Hp Hdel s1.
  split; [|split].
  - unfold RequestFrame, RequestFrame_with. rewrite Hp.
    unfold bind, modify, set_callback, set_pending, set_buffer, s1. simpl.
    destruct (buffer_ s) eqn:Hb; simpl; rewrite ?Hb; reflexivity.
  - destruct (Render_loop_delivers malloc cb sched false None
                (set_frame_done false s1) eq_refl eq_refl eq_refl
                (fun H => False_ind _ (diff_false_true H)) Hdel)
      as (pre & nested & Hrun & Hpre & Hall & Hcall).
    exists pre, nested. unfold Render. rewrite Hrun.
    refine (conj eq_refl (conj Hpre (conj Hall _))).
    intros Hin. rewrite (invoke_inert malloc cb _ _ Hin) in Hcall.
    injection Hcall as Hcall. symmetry; exact Hcall.
  - intros sched' Hno. unfold Render.
    rewrite Render_loop_spins by (auto; reflexivity). reflexivity.
Qed.

Lemma RequestFrame_stores_and_Render_completes_witness :
  pending_ initial = false
  /\ delivers demo_sched = true
  /\ let s1 := mkState 0 0 (Some 4096%N) 0 (Some demo_inner) true true in
     RequestFrame demo_malloc (Some 7%N) demo_inner initial = (s1, [])
     /\ (exists pre nested,
           Render demo_malloc demo_sched s1 =
             Returned (set_pending false (set_frame_done true s1))
                      (pre ++ Called 2 (frame_of s1) true false :: nested)
           /\ loop_prefix false s1 pre
           /\ Forall (nested_rejection false) nested
           /\ (inert demo_inner -> nested = []))
     /\ (forall sched', delivers sched' = false ->
                        Render demo_malloc sched' s1 = Spinning).
Proof.
  exact (conj eq_refl (conj eq_refl
           (RequestFrame_stores_and_Render_completes
              demo_malloc initial 7%N demo_inner demo_sched
              eq_refl eq_refl))).
Defined.

Example Render_after_RequestFrame :
  Render demo_malloc demo_sched
         (fst (RequestFrame demo_malloc (Some 7%N) demo_inner initial))
  = Returned (mkState 0 0 (Some 4096%N) 0 (Some demo_inner) true false)
             [BeginFrame false;
              BeginFrame true; RenderView; ReadPixels (Some 4096%N) 0;
              EndFrame;
              BeginFrame true; RenderView; EndFrame;
              Called 2 (mkBuffer 0 0 (Some 4096%N) 0) true false].
Proof. reflexivity. Qed.

(** C10.  The completion calls the client's callback first and sets
    [frame_done_] after it has returned, and [Render] clears [pending_]
    only when the loop has exited.  So the callback, and every call made
    from inside it, runs with [pending_] set and [frame_done_] clear, and
    every [RequestFrame] made from inside it is rejected: its callback
    gets the zero-sized buffer, and the object is left with the same
    stored callback and buffer. *)
Theorem completion_callback_runs_while_pending
    (malloc : N -> option Ptr) (s : State) (cb : BufferReadyCallback)
    (sched : list Frame) :
  pending_ s = true ->
  callback_ s = Some cb ->
  delivers sched = true ->
  exists pre nested,
    Render malloc sched s =
      Returned (set_pending false (set_frame_done true s))
               (pre ++ Called (handler_name cb) (frame_of s) true false
                    :: nested)
    /\ calls pre = []
    /\ Forall (nested_rejection false) nested
    /\ (forall name scene' cb',
          cb = Handler name (fun _ => ThenRequestFrame scene' cb' Return) ->
          inert cb' ->
          nested = [Called (handler_name cb') empty_buffer true false]).
Proof.
  intros Hp Hcb Hdel.
  destruct (Render_loop_delivers malloc cb sched false None
              (set_frame_done false s) eq_refl Hp Hcb
              (fun H => False_ind _ (diff_false_true H)) Hdel)
    as (pre & nested & Hrun & [Hpre _] & Hall & Hcall).
  exists pre, nested. unfold Render. rewrite Hrun.
  refine (conj eq_refl (conj Hpre (conj Hall _))).
  intros name scene' cb' -> Hin.
  (* the one nested request, traced through the completion *)
  simpl in Hcall.
  assert (Hreq : RequestFrame_with malloc (invoke malloc) scene' cb'
                                   (set_frame_done false s)
                 = invoke malloc cb' empty_buffer (set_frame_done false s)).
  { apply (RequestFrame_rejecting malloc scene' cb'). right; exact Hp. }
  rewrite Hreq, (invoke_inert malloc cb' _ _ Hin) in Hcall.
  simpl in Hcall. rewrite Hp in Hcall.
  injection Hcall as Hcall. symmetry; exact Hcall.
Qed.

Lemma completion_callback_runs_while_pending_witness :
  pending_ demo_busy = true
  /\ callback_ demo_busy = Some demo_client
  /\ delivers demo_sched = true
  /\ exists pre nested,
       Render demo_malloc demo_sched demo_busy =
         Returned (set_pending false (set_frame_done true demo_busy))
                  (pre ++ Called 1 (frame_of demo_busy) true false :: nested)
       /\ calls pre = []
       /\ Forall (nested_rejection false) nested
       /\ (forall name scene' cb',
             demo_client
             = Handler name (fun _ => ThenRequestFrame scene' cb' Return) ->
             inert cb' ->
             nested = [Called (handler_name cb') empty_buffer true false]).
Proof.
  exact (conj eq_refl (conj eq_refl (conj eq_refl
           (completion_callback_runs_while_pending
              demo_malloc demo_busy demo_client demo_sched
              eq_refl eq_refl eq_refl)))).
Defined.

Example Render_with_reentrant_client :
  Render demo_malloc demo_sched demo_busy
  = Returned (mkState 4 2 (Some 4096%N) 24 (Some demo_client) true false)
             [BeginFrame false;
              BeginFrame true; RenderView; ReadPixels (Some 4096%N) 24;
              EndFrame;
              BeginFrame true; RenderView; EndFrame;
              Called 1 (mkBuffer 4 2 (Some 4096%N) 24) true false;
              Called 2 empty_buffer true false].
Proof. reflexivity. Qed.

End CaptureFacts.

(** ** The dispatcher *)

Section DispatcherFacts.

Import Geometry Events Interactor.

Lemma call_Mouse_pointers (K : Codes) w e s :
  current_ (fst (call_Mouse K w e s)) = current_ s
  /\ override_ (fst (call_Mouse K w e s)) = override_ s.
Proof.
  destruct w; simpl;
    [ destruct (RotateCamera_Mouse K e (rotate_ s))
    | destruct (Fly_Mouse K e (fly_ s))
    | destruct (RotateSun_Mouse e (sun_ s))
    | destruct (RotateIBL_Mouse K e (ibl_ s))
    | destruct (Rotation_Mouse K e (model_ s)) ]; simpl; auto.
Qed.

Lemma call_Mouse_sun (K : Codes) e s :
  snd (call_Mouse K sun e s) = (sun, snd (RotateSun_Mouse e (sun_ s)))
  /\ rotate_ (fst (call_Mouse K sun e s)) = rotate_ s.
Proof.
  simpl. destruct (RotateSun_Mouse e (sun_ s)); simpl; auto.
Qed.

Lemma call_Mouse_rotate (K : Codes) e s :
  snd (call_Mouse K rotate e s)
  = (rotate, snd (RotateCamera_Mouse K e (rotate_ s))).
Proof.
  simpl. destruct (RotateCamera_Mouse K e (rotate_ s)); reflexivity.
Qed.

(** [Mouse] when an override is in force once the arming test is done. *)
Lemma Mouse_overridden (K : Codes) e s o :
  override_ (if is_current rotate s && arms K e
             then set_override (Some sun) s else s) = Some o ->
  let s1 := if is_current rotate s && arms K e
            then set_override (Some sun) s else s in
  snd (Mouse K e s) = Some (snd (call_Mouse K o e s1))
  /\ override_ (fst (Mouse K e s))
     = (if is_button_up e then None else Some o)
  /\ rotate_ (fst (Mouse K e s)) = rotate_ (fst (call_Mouse K o e s1)).
Proof.
  intros Ho s1. unfold Mouse. fold s1. fold s1 in Ho. rewrite Ho.
  pose proof (call_Mouse_pointers K o e s1) as [_ Hov].
  destruct (call_Mouse K o e s1) as [s' h]; simpl in *.
  rewrite Hov, Ho.
  destruct (is_button_up e); simpl; rewrite ?Hov, ?Ho; auto.
Qed.

(** [Mouse] when no override is in force after the arming test. *)
Lemma Mouse_plain (K : Codes) e s c :
  override_ s = None ->
  is_current rotate s && arms K e = false ->
  current_ s = Some c ->
  snd (Mouse K e s) = Some (snd (call_Mouse K c e s))
  /\ override_ (fst (Mouse K e s)) = None.
Proof.
  intros Ho Harm Hc. unfold Mouse. rewrite Harm, Ho, Hc.
  pose proof (call_Mouse_pointers K c e s) as [_ Hov].
  destruct (call_Mouse K c e s) as [s' h]; simpl in *.
  rewrite Hov, Ho. simpl. rewrite Hov, Ho. auto.
Qed.

Lemma button_up_does_not_arm (K : Codes) e :
  is_button_up e = true -> arms K e = false.
Proof. unfold is_button_up, arms. destruct (type e); auto; discriminate. Qed.

(** Every button-up leaves the dispatcher without an override. *)
Lemma button_up_clears (K : Codes) e s :
  is_button_up e = true -> override_ (fst (Mouse K e s)) = None.
Proof.
  intros Hup.
  pose proof (button_up_does_not_arm K e Hup) as Harm.
  destruct (override_ s) as [o|] eqn:Ho.
  - destruct (Mouse_overridden K e s o) as (_ & H & _).
    + rewrite Harm, andb_false_r; exact Ho.
    + rewrite H, Hup; reflexivity.
  - unfold Mouse. rewrite Harm, andb_false_r, Ho.
    destruct (current_ s) as [c|]; simpl.
    + pose proof (call_Mouse_pointers K c e s) as [_ Hov].
      destruct (call_Mouse K c e s) as [s' h]; simpl in *.
      rewrite Hov, Ho; simpl. rewrite Hov; exact Ho.
    + rewrite Ho; exact Ho.
Qed.

Lemma arms_button_down (K : Codes) e b :
  type e = BUTTON_DOWN b ->
  arms K e = MouseButton_eqb b MIDDLE || (modifiers e =? ALT K)%Z.
Proof. unfold arms; intros ->; reflexivity. Qed.

Lemma is_current_rotate s : current_ s = Some rotate -> is_current rotate s = true.
Proof. unfold is_current; intros ->; reflexivity. Qed.

(** C3, as it is worded, fails: a button-down that carries the alt
    modifier together with shift, on the left button and with the
    orbit-camera interactor active, does not arm the light-rotation
    override; the orbit-camera interactor handles it. *)
Lemma alt_with_shift_does_not_arm :
  current_ demo_orbit = Some rotate
  /\ override_ demo_orbit = None
  /\ has_modifier (modifiers left_down_alt_shift) (ALT desktop) = true
  /\ override_ (fst (Mouse desktop left_down_alt_shift demo_orbit)) <> Some sun
  /\ snd (Mouse desktop left_down_alt_shift demo_orbit)
     = Some (rotate, [StartMouseDrag]).
Proof.
  repeat split; try reflexivity. discriminate.
Qed.

(** C3, amended.  With the orbit-camera interactor active, a button-down
    whose button is the middle one, or whose modifier mask is exactly the
    alt modifier, arms the light-rotation interactor as the override and
    is handled by it.  While that override is armed every mouse event is
    handled by the light-rotation interactor and the orbit-camera
    interactor is left as it was.  Every button-up leaves the dispatcher
    without an override, the event having gone to the override if there
    was one.  With no override armed, an event that does not arm one (a
    drag never does) is handled by the orbit-camera interactor. *)
Theorem override_armed_routed_and_cleared
    (K : Codes) (s : Interactors) (e : MouseEvent) :
  current_ s = Some rotate ->
  (forall b, type e = BUTTON_DOWN b ->
             b = MIDDLE \/ modifiers e = ALT K ->
     override_ (fst (Mouse K e s)) = Some sun
     /\ snd (Mouse K e s) = Some (sun, [StartMouseDrag])
     /\ rotate_ (fst (Mouse K e s)) = rotate_ s)
  /\ (override_ s = Some sun ->
      snd (Mouse K e s) = Some (sun, snd (RotateSun_Mouse e (sun_ s)))
      /\ rotate_ (fst (Mouse K e s)) = rotate_ s
      /\ override_ (fst (Mouse K e s))
         = (if is_button_up e then None else Some sun))
  /\ (is_button_up e = true -> override_ (fst (Mouse K e s)) = None)
  /\ (type e = DRAG -> arms K e = false)
  /\ (override_ s = None -> arms K e = false ->
      snd (Mouse K e s)
        = Some (rotate, snd (RotateCamera_Mouse K e (rotate_ s)))
      /\ override_ (fst (Mouse K e s)) = None).
Proof.
  intros Hcur.
  pose proof (is_current_rotate s Hcur) as Hrot.
  refine (conj _ (conj _ (conj (button_up_clears K e s) (conj _ _)))).
  - (* arming *)
    intros b Hty Hb.
    assert (Harm : arms K e = true).
    { rewrite (arms_button_down K e b Hty).
      destruct Hb as [-> | ->]; [reflexivity|].
      rewrite Z.eqb_refl; apply orb_true_r. }
    destruct (Mouse_overridden K e s sun) as (Hh & Ho & Hr);
      [rewrite Hrot, Harm; reflexivity|].
    rewrite Hrot, Harm in Hh, Hr; cbn [andb] in Hh, Hr.
    destruct (call_Mouse_sun K e (set_override (Some sun) s)) as [Hs Hk].
    rewrite Hh, Ho, Hr, Hk.
    unfold is_button_up; rewrite Hty.
    refine (conj eq_refl (conj _ eq_refl)).
    simpl. unfold RotateSun_Mouse. rewrite Hty. reflexivity.
  - (* armed *)
    intros Hov.
    assert (Hs1 : (if is_current rotate s && arms K e
                   then set_override (Some sun) s else s)
                  = set_override (Some sun) s).
    { destruct (is_current rotate s && arms K e); [reflexivity|].
      unfold set_override; rewrite <- Hov; destruct s; reflexivity. }
    destruct (Mouse_overridden K e s sun) as (Hh & Ho & Hr);
      [rewrite Hs1; reflexivity|].
    rewrite Hs1 in Hh, Hr.
    destruct (call_Mouse_sun K e (set_override (Some sun) s)) as [Hs Hk].
    rewrite Hh, Ho, Hr, Hk, Hs. auto.
  - (* a drag does not arm *)
    unfold arms; intros ->; reflexivity.
  - (* not armed *)
    intros Hov Harm.
    destruct (Mouse_plain K e s rotate Hov) as [Hh Ho]; auto.
    { rewrite Harm; apply andb_false_r. }
    rewrite Hh, Ho, call_Mouse_rotate. auto.
Qed.

Lemma override_armed_routed_and_cleared_witness :
  current_ demo_orbit = Some rotate
  /\ override_ (fst (Mouse desktop middle_down demo_orbit)) = Some sun
  /\ snd (Mouse desktop middle_down demo_orbit) = Some (sun, [StartMouseDrag])
  /\ rotate_ (fst (Mouse desktop middle_down demo_orbit)) = rotate_ demo_orbit.
Proof.
  split; [reflexivity|].
  exact (proj1 (override_armed_routed_and_cleared
                  desktop demo_orbit middle_down eq_refl)
               MIDDLE eq_refl (or_introl eq_refl)).
Defined.

(** A whole gesture: the middle button goes down, two drags follow, the
    button goes up, and a further drag comes with no button pressed on
    the way.  The light-rotation interactor handles the gesture, the
    orbit-camera interactor the drag after it. *)
Example middle_button_gesture :
  snd (Mouse_all desktop
         [middle_down; drag_to 110 100; drag_to 130 90; middle_up;
          drag_to 140 90]
         demo_orbit)
  = [Some (sun, [StartMouseDrag]);
     Some (sun, [Rotate 10 0]);
     Some (sun, [Rotate 30 (-10)]);
     Some (sun, [EndMouseDrag]);
     Some (rotate, [UpdateMouseDragUI])].
Proof. reflexivity. Qed.

Lemma alt_with_other_is_not_alt (A other : Z) :
  other <> 0%Z -> Z.land other A = 0%Z -> Z.lor A other <> A.
Proof.
  intros Hne Hdisj Heq.
  pose proof (Z.add_lor_land A other) as H.
  rewrite (Z.land_comm A other), Hdisj, Heq in H. lia.
Qed.

(** C9.  The modifier test of the dispatcher is an equality with the alt
    modifier: on a button other than the middle one a button-down arms
    the override exactly when its modifier mask is alt and nothing else.
    With the orbit-camera interactor active and no override armed, such
    a button-down whose mask is not exactly alt, in particular one that
    carries alt together with a further modifier, does not arm the
    light-rotation override, and the orbit-camera interactor handles
    it. *)
Theorem alt_with_another_modifier_is_not_an_override
    (K : Codes) (s : Interactors) (e : MouseEvent) (b : MouseButton) :
  current_ s = Some rotate ->
  override_ s = None ->
  type e = BUTTON_DOWN b ->
  b <> MIDDLE ->
  (arms K e = true <-> modifiers e = ALT K)
  /\ (modifiers e <> ALT K ->
      override_ (fst (Mouse K e s)) = None
      /\ snd (Mouse K e s) = Some (rotate, [StartMouseDrag]))
  /\ (forall other : Z,
        other <> 0%Z -> Z.land other (ALT K) = 0%Z ->
        modifiers e = Z.lor (ALT K) other ->
        override_ (fst (Mouse K e s)) = None
        /\ snd (Mouse K e s) = Some (rotate, [StartMouseDrag])).
Proof.
  intros Hcur Hov Hty Hb.
  assert (Harms : arms K e = (modifiers e =? ALT K)%Z).
  { rewrite (arms_button_down K e b Hty).
    destruct b; try reflexivity. contradiction Hb; reflexivity. }
  assert (Hplain : modifiers e <> ALT K ->
            override_ (fst (Mouse K e s)) = None
            /\ snd (Mouse K e s) = Some (rotate, [StartMouseDrag])).
  { intros Hm.
    assert (Harm : arms K e = false)
      by (rewrite Harms; apply Z.eqb_neq; exact Hm).
    destruct (Mouse_plain K e s rotate Hov) as [Hh Ho]; auto.
    { rewrite Harm; apply andb_false_r. }
    rewrite Hh, Ho, call_Mouse_rotate.
    refine (conj eq_refl _).
    unfold RotateCamera_Mouse, Rotation_Mouse. rewrite Hty. reflexivity. }
  refine (conj _ (conj Hplain _)).
  - rewrite Harms. apply Z.eqb_eq.
  - intros other Hne Hdisj Hm. apply Hplain. rewrite Hm.
    apply alt_with_other_is_not_alt; assumption.
Qed.

Lemma alt_with_another_modifier_is_not_an_override_witness :
  has_modifier (modifiers left_down_alt_shift) (ALT desktop) = true
  /\ has_modifier (modifiers left_down_alt_shift) (SHIFT desktop) = true
  /\ override_ (fst (Mouse desktop left_down_alt_shift demo_orbit)) = None
  /\ snd (Mouse desktop left_down_alt_shift demo_orbit)
     = Some (rotate, [StartMouseDrag]).
Proof.
  refine (conj eq_refl (conj eq_refl _)).
  refine (proj2 (proj2 (alt_with_another_modifier_is_not_an_override
                          desktop demo_orbit left_down_alt_shift LEFT
                          eq_refl eq_refl eq_refl _))
                (SHIFT desktop) _ eq_refl eq_refl);
    discriminate.
Defined.

(** With alt alone the same button-down arms the override. *)
Example alt_alone_arms :
  Mouse desktop left_down_alt demo_orbit
  = (set_override (Some sun)
       (fst (call_Mouse desktop sun left_down_alt demo_orbit)),
     Some (sun, [StartMouseDrag])).
Proof. reflexivity. Qed.

End DispatcherFacts.

(** ** Real arithmetic of vectors *)

Section GeometryFacts.

Import Geometry.
Local Open Scope R_scope.

Lemma squaredNorm_nonneg v : 0 <= squaredNorm v.
Proof. unfold squaredNorm. nra. Qed.

Lemma norm_nonneg v : 0 <= norm v.
Proof. apply sqrt_pos. Qed.

Lemma norm_vscale k v : 0 <= k -> norm (vscale k v) = k * norm v.
Proof.
  intros Hk. unfold norm.
  replace (squaredNorm (vscale k v)) with ((k * k) * squaredNorm v)
    by (unfold squaredNorm, vscale; simpl; ring).
  rewrite sqrt_mult by (try apply squaredNorm_nonneg; nra).
  rewrite sqrt_square by exact Hk. reflexivity.
Qed.

Lemma Vec3_eq a b c a' b' c' :
  a = a' -> b = b' -> c = c' -> mkVec3 a b c = mkVec3 a' b' c'.
Proof. intros -> -> ->; reflexivity. Qed.

End GeometryFacts.

(** ** The fly interactor *)

Section FlyFacts.

Import Geometry Events Interactor.
Local Open Scope R_scope.

Lemma in_and_then_l (c : Call) (a b : Ticked) :
  In c (fst a) -> In c (fst (a +> b)).
Proof. intros H; simpl; apply in_or_app; left; exact H. Qed.

Lemma in_and_then_r (c : Call) (a b : Ticked) :
  In c (fst b) -> In c (fst (a +> b)).
Proof. intros H; simpl; apply in_or_app; right; exact H. Qed.

Lemma redraw_and_then_l (a b : Ticked) : snd a = true -> snd (a +> b) = true.
Proof. intros H; simpl; rewrite H; reflexivity. Qed.

Lemma redraw_and_then_r (a b : Ticked) : snd b = true -> snd (a +> b) = true.
Proof. intros H; simpl; rewrite H; apply orb_true_r. Qed.

Lemma HasKey_held (s : Fly) (k : N) : k ∈ keys_down_ s -> HasKey s k = true.
Proof. intros H; unfold HasKey; apply bool_decide_eq_true_2; exact H. Qed.

Lemma held_not_empty (s : Fly) (k : N) :
  k ∈ keys_down_ s -> bool_decide (keys_down_ s = ∅) = false.
Proof.
  intros H; apply bool_decide_eq_false_2; intros He.
  rewrite He in H. exact (not_elem_of_empty k H).
Qed.

Lemma translation_axis_cases (k : N) (axis : Vec3) :
  translation_axis k = Some axis ->
  (k = 97%N /\ axis = mkVec3 (-1) 0 0) \/
  (k = 100%N /\ axis = mkVec3 1 0 0) \/
  (k = 119%N /\ axis = mkVec3 0 0 (-1)) \/
  (k = 115%N /\ axis = mkVec3 0 0 1) \/
  (k = 113%N /\ axis = mkVec3 0 1 0) \/
  (k = 122%N /\ axis = mkVec3 0 (-1) 0).
Proof.
  unfold translation_axis.
  repeat (match goal with
          | |- context [N.eqb k ?n] =>
              destruct (N.eqb_spec k n) as [-> | _];
              [intros [= <-]; tauto|]
          end).
  discriminate.
Qed.

Lemma axis_unit (k : N) (axis : Vec3) :
  translation_axis k = Some axis -> squaredNorm axis = 1.
Proof.
  intros H. apply translation_axis_cases in H.
  destruct H as [[_ ->]|[[_ ->]|[[_ ->]|[[_ ->]|[[_ ->]|[_ ->]]]]]];
    unfold squaredNorm; simpl; ring.
Qed.

Lemma Fly_dist_nonneg (s : Fly) : 0 <= Fly_dist s.
Proof.
  unfold Fly_dist.
  pose proof (norm_nonneg (GetExtent (model_bounds (f_logic s)))). nra.
Qed.

(** Twice the extent, twice the step. *)
Lemma Fly_dist_doubles (s s' : Fly) :
  GetExtent (model_bounds (f_logic s'))
    = vscale 2 (GetExtent (model_bounds (f_logic s))) ->
  Fly_dist s' = 2 * Fly_dist s.
Proof.
  intros H. unfold Fly_dist. rewrite H, norm_vscale by lra. ring.
Qed.

(** Finding, among the guarded calls of [Tick], the one of a key known
    to be held. *)
Ltac held_call H :=
  first [ apply in_and_then_l; rewrite H; left; f_equal;
          unfold vscale; simpl; apply Vec3_eq; ring
        | apply in_and_then_r; held_call H ].
Ltac held_redraw H :=
  first [ apply redraw_and_then_l; rewrite H; reflexivity
        | apply redraw_and_then_r; held_redraw H ].

Lemma moves_app (a b : list Call) : moves (a ++ b) = moves a ++ moves b.
Proof.
  induction a as [|c a IH]; [reflexivity|].
  destruct c; simpl; rewrite IH; reflexivity.
Qed.

Lemma moves_and_then (a b : Ticked) :
  moves (fst (a +> b)) = moves (fst a) ++ moves (fst b).
Proof. apply moves_app. Qed.

Lemma moves_when_move (b : bool) (v : Vec3) :
  moves (fst (when b (lambda [MoveLocal v]))) = if b then [v] else [].
Proof. destruct b; reflexivity. Qed.

Lemma moves_when_other (b : bool) (cs : list Call) :
  moves cs = [] -> moves (fst (when b (lambda cs))) = [].
Proof. intros H. destruct b; [exact H | reflexivity]. Qed.

(** The [MoveLocal] requests of a tick: one for each held translation
    key and no other. *)
Lemma Fly_Tick_moves (K : Codes) (s : Fly) :
  moves (fst (Fly_Tick K s)) = steps (HasKey s) (Fly_dist s).
Proof.
  unfold Fly_Tick.
  destruct (bool_decide (keys_down_ s = ∅)) eqn:He.
  - apply bool_decide_eq_true_1 in He.
    assert (Hno : forall k, HasKey s k = false).
    { intros k. unfold HasKey. apply bool_decide_eq_false_2.
      rewrite He. apply not_elem_of_empty. }
    unfold steps, translation_keys. simpl. rewrite !Hno. reflexivity.
  - cbv zeta. rewrite !moves_and_then, !moves_when_move.
    rewrite !moves_when_other by reflexivity.
    unfold steps, translation_keys. simpl. rewrite !app_nil_r.
    repeat (f_equal;
            try (match goal with
                 | |- (if ?b then _ else _) = (if ?b then _ else _) =>
                     destruct b; [f_equal; unfold vscale; simpl;
                                  apply Vec3_eq; ring | reflexivity]
                 end)).
Qed.

Lemma steps_length (held : N -> bool) (dist : R) :
  0 <= dist -> Forall (fun v => norm v = dist) (steps held dist).
Proof.
  intros Hd. unfold steps. apply Forall_flat_map. apply Forall_forall.
  intros k _. destruct (translation_axis k) as [axis|] eqn:Hax;
    [|constructor].
  destruct (held k); [|constructor].
  constructor; [|constructor].
  rewrite norm_vscale by exact Hd.
  unfold norm. rewrite (axis_unit k axis Hax), sqrt_1. ring.
Qed.

Lemma steps_double (held : N -> bool) (dist : R) :
  steps held (2 * dist) = map (vscale 2) (steps held dist).
Proof.
  unfold steps. induction translation_keys as [|k ks IH]; [reflexivity|].
  simpl. rewrite map_app, IH. f_equal.
  destruct (translation_axis k) as [axis|]; [|reflexivity].
  destruct (held k); [|reflexivity].
  simpl. f_equal. unfold vscale. simpl. apply Vec3_eq; ring.
Qed.

Lemma steps_held (held : N -> bool) (dist : R) (k : N) (axis : Vec3) :
  translation_axis k = Some axis -> held k = true ->
  In (vscale dist axis) (steps held dist).
Proof.
  intros Hax Hk. unfold steps. apply in_flat_map. exists k. split.
  - apply translation_axis_cases in Hax. unfold translation_keys.
    destruct Hax as [[-> _]|[[-> _]|[[-> _]|[[-> _]|[[-> _]|[-> _]]]]]];
      simpl; tauto.
  - rewrite Hax, Hk. left. reflexivity.
Qed.

(** C6.  In a tick of the fly interactor with one of the keys a, d, w, s,
    q, z held, the camera is moved along the local axis of that key by
    the vector of length [0.0025 * norm (extent of the bounding box)],
    and the tick reports that a redraw is needed; through the dispatcher
    in fly mode the tick returns [REDRAW].  The moves requested in the
    tick are exactly these: one [MoveLocal] for each held translation
    key, along its axis, and no other, each of that length.  The
    movement is linear in the extent: with the same keys held, a box of
    twice the extent makes the tick request the same moves with every
    vector doubled. *)
Theorem Fly_Tick_moves_by_extent
    (K : Codes) (s : Fly) (k : N) (axis : Vec3) :
  translation_axis k = Some axis ->
  k ∈ keys_down_ s ->
  In (MoveLocal (vscale (Fly_dist s) axis)) (fst (Fly_Tick K s))
  /\ moves (fst (Fly_Tick K s)) = steps (HasKey s) (Fly_dist s)
  /\ Forall (fun v =>
               norm v = 0.0025 * norm (GetExtent (model_bounds (f_logic s))))
            (moves (fst (Fly_Tick K s)))
  /\ norm (vscale (Fly_dist s) axis)
     = 0.0025 * norm (GetExtent (model_bounds (f_logic s)))
  /\ snd (Fly_Tick K s) = true
  /\ (forall d : Interactors,
        current_ d = Some fly -> fly_ d = s ->
        Tick K d = (fst (Fly_Tick K s), DrawResult.REDRAW))
  /\ (forall s' : Fly,
        GetExtent (model_bounds (f_logic s'))
          = vscale 2 (GetExtent (model_bounds (f_logic s))) ->
        norm (vscale (Fly_dist s') axis)
          = 2 * norm (vscale (Fly_dist s) axis))
  /\ (forall s' : Fly,
        keys_down_ s' = keys_down_ s ->
        GetExtent (model_bounds (f_logic s'))
          = vscale 2 (GetExtent (model_bounds (f_logic s))) ->
        moves (fst (Fly_Tick K s'))
          = map (vscale 2) (moves (fst (Fly_Tick K s)))).
Proof.
  intros Hax Hk.
  assert (Hnorm : forall t : Fly,
             norm (vscale (Fly_dist t) axis) = Fly_dist t).
  { intros t. rewrite norm_vscale by apply Fly_dist_nonneg.
    unfold norm. rewrite (axis_unit k axis Hax), sqrt_1. ring. }
  assert (Hmove : In (MoveLocal (vscale (Fly_dist s) axis))
                     (fst (Fly_Tick K s))
                  /\ snd (Fly_Tick K s) = true).
  { unfold Fly_Tick. rewrite (held_not_empty s k Hk).
    pose proof (HasKey_held s k Hk) as Hhas.
    apply translation_axis_cases in Hax.
    destruct Hax as [[-> ->]|[[-> ->]|[[-> ->]|[[-> ->]|[[-> ->]|[-> ->]]]]]];
      cbv zeta; split; (held_call Hhas || held_redraw Hhas). }
  destruct Hmove as [Hin Hredraw].
  refine (conj Hin (conj (Fly_Tick_moves K s)
            (conj _ (conj _ (conj Hredraw (conj _ (conj _ _))))))).
  - rewrite Fly_Tick_moves. apply steps_length. apply Fly_dist_nonneg.
  - rewrite Hnorm. reflexivity.
  - intros d Hcur Hfly. unfold Tick. rewrite Hcur, Hfly.
    destruct (Fly_Tick K s) as [calls redraw]; simpl in *.
    rewrite Hredraw. reflexivity.
  - intros s' Hext. rewrite !Hnorm. apply Fly_dist_doubles; exact Hext.
  - intros s' Hkeys Hext. rewrite !Fly_Tick_moves.
    rewrite (Fly_dist_doubles s s' Hext), steps_double.
    f_equal. unfold steps. f_equal.
    unfold HasKey. rewrite Hkeys. reflexivity.
Qed.

Lemma Fly_Tick_moves_by_extent_witness :
  translation_axis 119 = Some (mkVec3 0 0 (-1))
  /\ 119%N ∈ keys_down_ demo_fly
  /\ In (MoveLocal (vscale (Fly_dist demo_fly) (mkVec3 0 0 (-1))))
        (fst (Fly_Tick desktop demo_fly))
  /\ moves (fst (Fly_Tick desktop demo_fly))
     = steps (HasKey demo_fly) (Fly_dist demo_fly)
  /\ norm (vscale (Fly_dist demo_fly) (mkVec3 0 0 (-1)))
     = 0.0025 * norm (GetExtent (model_bounds (f_logic demo_fly)))
  /\ snd (Fly_Tick desktop demo_fly) = true.
Proof.
  assert (H1 : translation_axis 119 = Some (mkVec3 0 0 (-1)))
    by reflexivity.
  assert (H2 : 119%N ∈ keys_down_ demo_fly)
    by (change (119%N ∈ ({[ 119%N ]} : gset N));
        apply elem_of_singleton_2; reflexivity).
  pose proof (Fly_Tick_moves_by_extent desktop demo_fly 119
                (mkVec3 0 0 (-1)) H1 H2) as (Ha & Hm & _ & Hb & Hc & _).
  exact (conj H1 (conj H2 (conj Ha (conj Hm (conj Hb Hc))))).
Defined.

(** With [w] alone held the tick asks for one move and nothing else. *)
Example Fly_Tick_of_one_key :
  exists v, fst (Fly_Tick desktop demo_fly) = [MoveLocal v]
            /\ moves (fst (Fly_Tick desktop demo_fly)) = [v].
Proof.
  eexists. split; vm_compute; reflexivity.
Qed.

End FlyFacts.

(** ** Wheel events of the rotation interactors *)

Section WheelFacts.

Import Geometry Events Interactor.
Local Open Scope R_scope.

(** For the raw delta 1 the request made for a mouse-wheel tick and the
    request made for a trackpad gesture carry the same delta, 2, and
    differ in the source tag only. *)
Example wheel_and_trackpad_request_same_delta :
  snd (Rotation_Mouse desktop (mkMouse (WHEEL 1 false) 0 0 0)
                      (rotate_ demo_orbit))
  = [Dolly (2 * 1) DragType.WHEEL]
  /\ snd (Rotation_Mouse desktop (mkMouse (WHEEL 1 true) 0 0 0)
                         (rotate_ demo_orbit))
     = [Dolly (2 * 1) DragType.TWO_FINGER].
Proof.
  split; simpl; repeat f_equal; lra.
Qed.

(** What the rotation interactor asks for on a wheel event of raw delta
    [dy]: a dolly of [2.0 * dy], for a mouse-wheel tick and for a
    trackpad gesture alike, with the source tag [WHEEL] or
    [TWO_FINGER].  The orbit camera does the same unless the modifier
    mask is exactly shift.  A drag in the dolly state requests the pixel
    delta as it is, with the source [MOUSE]. *)
Lemma wheel_dolly_request
    (K : Codes) (s : Rotation) (dy : R) (isTrackpad : bool) (x y m : Z) :
  Rotation_Mouse K (mkMouse (WHEEL dy isTrackpad) x y m) s
  = (s, [Dolly (2 * dy)
               (if isTrackpad then DragType.TWO_FINGER else DragType.WHEEL)])
  /\ map dolly_delta
         (snd (Rotation_Mouse K (mkMouse (WHEEL dy true) x y m) s))
     = map dolly_delta
         (snd (Rotation_Mouse K (mkMouse (WHEEL dy false) x y m) s))
  /\ (m <> SHIFT K ->
      RotateCamera_Mouse K (mkMouse (WHEEL dy isTrackpad) x y m) s
      = Rotation_Mouse K (mkMouse (WHEEL dy isTrackpad) x y m) s)
  /\ (state_ s = State.DOLLY ->
      snd (Rotation_Mouse K (mkMouse DRAG x y m) s)
      = [Dolly (IZR (y - mouse_down_y_ s)) DragType.MOUSE;
         UpdateMouseDragUI]).
Proof.
  refine (conj _ (conj eq_refl (conj _ _))).
  - unfold Rotation_Mouse; simpl. repeat f_equal. lra.
  - intros Hm. unfold RotateCamera_Mouse; simpl.
    destruct (Z.eqb_spec m (SHIFT K)); [contradiction|reflexivity].
  - intros Hst. unfold Rotation_Mouse; simpl. rewrite Hst. reflexivity.
Qed.

(** C7.  For a wheel event of raw delta [dy] the rotation interactor
    makes one dolly request, of [2.0 * dy], with the source [WHEEL] for
    a discrete mouse-wheel tick and [TWO_FINGER] for a trackpad gesture.
    By the mapping of the design document the distance of the request
    of the wheel tick is twice the distance of the request of the
    trackpad gesture, whatever the raw delta and the unit are; the
    state of the interactor is not changed by either.  The orbit camera
    does the same unless the modifier mask is exactly shift. *)
Theorem wheel_dolly_distance
    (K : Codes) (s : Rotation) (unit dy : R) (x y m : Z) :
  let wheel := Rotation_Mouse K (mkMouse (WHEEL dy false) x y m) s in
  let trackpad := Rotation_Mouse K (mkMouse (WHEEL dy true) x y m) s in
  wheel = (s, [Dolly (2 * dy) DragType.WHEEL])
  /\ trackpad = (s, [Dolly (2 * dy) DragType.TWO_FINGER])
  /\ map (dolly_distance unit) (snd trackpad) = [Some (unit * (2 * dy))]
  /\ map (dolly_distance unit) (snd wheel)
     = [Some (2 * (unit * (2 * dy)))]
  /\ (m <> SHIFT K ->
      RotateCamera_Mouse K (mkMouse (WHEEL dy false) x y m) s = wheel
      /\ RotateCamera_Mouse K (mkMouse (WHEEL dy true) x y m) s = trackpad).
Proof.
  cbv zeta.
  assert (Hw : Rotation_Mouse K (mkMouse (WHEEL dy false) x y m) s
               = (s, [Dolly (2 * dy) DragType.WHEEL])).
  { unfold Rotation_Mouse; simpl. repeat f_equal. lra. }
  assert (Ht : Rotation_Mouse K (mkMouse (WHEEL dy true) x y m) s
               = (s, [Dolly (2 * dy) DragType.TWO_FINGER])).
  { unfold Rotation_Mouse; simpl. repeat f_equal. lra. }
  rewrite Hw, Ht. refine (conj eq_refl (conj eq_refl (conj eq_refl _))).
  split.
  - simpl. f_equal. f_equal. ring.
  - intros Hm. unfold RotateCamera_Mouse; simpl.
    destruct (Z.eqb_spec m (SHIFT K)); [contradiction|].
    split; [exact Hw | exact Ht].
Qed.

End WheelFacts.

(** ** The viewport host *)

Section SceneWidgetFacts.

Import Geometry Events Interactor SceneWidget.
Local Open Scope R_scope.

(** C4.  [SetViewControls(ROTATE_OBJ)] in fly mode makes the orbit-camera
    interactor the active one and sets its centre of rotation to
    [position + norm (bounds centre - position) * forward], taken from
    the camera as it is at the switch.  In every other case
    [SetViewControls] switches the active interactor and does nothing
    else: the centre of rotation stays as it was. *)
Theorem SetViewControls_center_of_rotation
    (mode : Controls.t) (w : Impl) :
  (mode = Controls.ROTATE_OBJ ->
   GetControls (controls_ w) = Controls.FLY ->
   orbit_center (SetViewControls mode w)
   = vadd (position (camera_ w))
          (vscale (norm (vsub (GetCenter (bounds_ w))
                              (position (camera_ w))))
                  (forward (camera_ w)))
   /\ GetControls (controls_ (SetViewControls mode w)) = Controls.ROTATE_OBJ
   /\ camera_ (SetViewControls mode w) = camera_ w)
  /\ (mode <> Controls.ROTATE_OBJ
      \/ GetControls (controls_ w) <> Controls.FLY ->
      SetViewControls mode w = set_controls (SetControls mode (controls_ w)) w
      /\ orbit_center (SetViewControls mode w) = orbit_center w).
Proof.
  split.
  - intros -> Hfly. unfold SetViewControls. rewrite Hfly. simpl.
    repeat split; reflexivity.
  - intros Hother.
    assert (Hcond : Controls_eqb mode Controls.ROTATE_OBJ
                    && Controls_eqb (GetControls (controls_ w)) Controls.FLY
                    = false).
    { destruct Hother as [H | H].
      - destruct mode; try reflexivity. contradiction H; reflexivity.
      - destruct (GetControls (controls_ w)); try apply andb_false_r.
        contradiction H; reflexivity. }
    unfold SetViewControls. rewrite Hcond. split; [reflexivity|].
    destruct mode; reflexivity.
Qed.

(** After a flight that left the camera at (0, 0, 5) looking along x, the
    switch to the orbit camera puts the pivot at (5, 0, 5), not at the
    centre (0, 0, 0) of the box. *)
Example pivot_after_flight :
  let cam := mkCamera (mkVec3 0 0 5) (mkVec3 1 0 0)
                      (mkProjection 60 1 NEAR_PLANE 100 FovType.Vertical) in
  let w := mkImpl cam (mkBox (mkVec3 (-1) (-1) (-1)) (mkVec3 1 1 1))
                  (SetControls Controls.FLY demo_orbit) 640 480 in
  orbit_center (SetViewControls Controls.ROTATE_OBJ w) = mkVec3 5 0 5
  /\ GetCenter (bounds_ w) = mkVec3 0 0 0.
Proof.
  cbv zeta. split.
  - unfold orbit_center, SetViewControls; simpl.
    unfold norm, squaredNorm, vsub, vscale, vadd, GetCenter; simpl.
    replace (_ * _ + _ * _ + _ * _) with (5 * 5) by (simpl; field).
    rewrite sqrt_square by lra. apply Vec3_eq; ring.
  - unfold GetCenter, vscale, vadd; simpl. apply Vec3_eq; field.
Qed.

Lemma Rmax_3 a b c : a <= Rmax (Rmax a b) c /\ b <= Rmax (Rmax a b) c
                     /\ c <= Rmax (Rmax a b) c.
Proof.
  pose proof (Rmax_l a b). pose proof (Rmax_r a b).
  pose proof (Rmax_l (Rmax a b) c). pose proof (Rmax_r (Rmax a b) c).
  repeat split; lra.
Qed.

Lemma norm_along_z (a : R) : 0 <= a -> norm (mkVec3 0 0 a) = a.
Proof.
  intros Ha. unfold norm, squaredNorm. simpl.
  replace (0 * 0 + 0 * 0 + a * a) with (a * a) by ring.
  apply sqrt_square. exact Ha.
Qed.

(** C5, as it is worded, fails on the code.  For the box from the origin
    to (0, 0, 2/5) the two corners are 0 and 2/5 from the origin, the
    [PLUS_Z] preset puts the camera at (0, 0, 7/10), and twice the extent
    is 4/5.  The largest of the fixed minimum 1 and the three distances
    is 1, and with twice the extent added that is 9/5; [SetupCamera]
    sets the far plane to 3/2, the larger of 1 and 7/10 + 4/5. *)
Lemma far_plane_is_not_the_largest_plus_the_extent :
  let w' := SetupCamera LookAt_eye 60 small_box origin small_widget in
  far (projection (camera_ w')) = 3 / 2
  /\ far_plane_as_described
       small_box (norm (GetModelMatrix_translation (camera_ w'))) = 9 / 5
  /\ far (projection (camera_ w'))
     <> far_plane_as_described
          small_box (norm (GetModelMatrix_translation (camera_ w'))).
Proof.
  cbv zeta.
  assert (Hext : GetExtent small_box = mkVec3 0 0 (2 / 5)).
  { unfold GetExtent, small_box, origin, vsub; simpl. apply Vec3_eq; field. }
  assert (Hmax : GetMaxExtent small_box = 2 / 5).
  { unfold GetMaxExtent. rewrite Hext. simpl.
    rewrite (Rmax_left 0 0) by lra. apply Rmax_right. lra. }
  assert (Hpos : position
                   (camera_ (SetupCamera LookAt_eye 60 small_box origin
                                         small_widget))
                 = mkVec3 0 0 (7 / 10)).
  { unfold SetupCamera, GoToCameraPreset, LookAt_eye; simpl.
    rewrite Hmax. apply Vec3_eq; lra. }
  assert (Hfar3 : norm (GetModelMatrix_translation
                          (camera_ (SetupCamera LookAt_eye 60 small_box
                                                origin small_widget)))
                  = 7 / 10).
  { unfold GetModelMatrix_translation. rewrite Hpos.
    apply norm_along_z. lra. }
  assert (Hfar1 : norm (GetMinBound small_box) = 0).
  { unfold GetMinBound, small_box, origin; simpl. apply norm_along_z. lra. }
  assert (Hfar2 : norm (GetMaxBound small_box) = 2 / 5).
  { unfold GetMaxBound, small_box; simpl. apply norm_along_z. lra. }
  assert (Hsize : norm (GetExtent small_box) = 2 / 5).
  { rewrite Hext. apply norm_along_z. lra. }
  assert (Hcode : far (projection
                         (camera_ (SetupCamera LookAt_eye 60 small_box
                                               origin small_widget)))
                  = 3 / 2).
  { change (far (projection
                   (camera_ (SetupCamera LookAt_eye 60 small_box origin
                                         small_widget))))
      with (far_plane small_box
              (norm (GetModelMatrix_translation
                       (camera_ (SetupCamera LookAt_eye 60 small_box
                                             origin small_widget))))).
    rewrite Hfar3. unfold far_plane, MIN_FAR_PLANE.
    rewrite Hfar1, Hfar2, Hsize.
    rewrite (Rmax_right 0 (2 / 5)) by lra.
    rewrite (Rmax_right (2 / 5) (7 / 10)) by lra.
    rewrite Rmax_right by lra. lra. }
  assert (Hsaid : far_plane_as_described
                    small_box
                    (norm (GetModelMatrix_translation
                             (camera_ (SetupCamera LookAt_eye 60 small_box
                                                   origin small_widget))))
                  = 9 / 5).
  { rewrite Hfar3. unfold far_plane_as_described, MIN_FAR_PLANE.
    rewrite Hfar1, Hfar2, Hsize.
    rewrite (Rmax_left 1.0 0) by lra.
    rewrite (Rmax_left 1.0 (2 / 5)) by lra.
    rewrite (Rmax_left 1.0 (7 / 10)) by lra. lra. }
  rewrite Hcode, Hsaid. repeat split; lra.
Qed.

(** C5, amended.  [SetupCamera] sets the far plane to the larger of the
    fixed minimum 1.0 and [max (max far1 far2) far3 + 2 * norm extent],
    twice the extent being added before the comparison with the
    minimum, where
    [far1] and [far2] are the distances from the origin of the min and
    the max corner of the box and [far3] that of the camera, at the
    position the [PLUS_Z] preset of [SetupCamera] itself has just given
    it; so the far plane is at least 1.0 and at least each of the three
    distances plus twice the extent.  The near plane is 0.1. *)
Theorem SetupCamera_far_plane
    (LookAt : Vec3 -> Vec3 -> Vec3 -> Camera -> Camera)
    (verticalFoV : R) (b : AxisAlignedBoundingBox)
    (center_of_rotation : Vec3) (w : Impl) :
  let w' := SetupCamera LookAt verticalFoV b center_of_rotation w in
  let far1 := norm (GetMinBound b) in
  let far2 := norm (GetMaxBound b) in
  let far3 := norm (position (camera_ w')) in
  let model_size := 2 * norm (GetExtent b) in
  far (projection (camera_ w'))
  = Rmax 1 (Rmax (Rmax far1 far2) far3 + model_size)
  /\ near (projection (camera_ w')) = 0.1
  /\ 1 <= far (projection (camera_ w'))
  /\ far1 + model_size <= far (projection (camera_ w'))
  /\ far2 + model_size <= far (projection (camera_ w'))
  /\ far3 + model_size <= far (projection (camera_ w'))
  /\ position (camera_ w')
     = position
         (LookAt (GetCenter b)
                 (mkVec3 (vx (GetCenter b)) (vy (GetCenter b))
                         (vz (GetCenter b) + 1.25 * GetMaxExtent b))
                 (mkVec3 0 1 0) (camera_ w)).
Proof.
  intros w' far1 far2 far3 model_size.
  assert (Hfar : far (projection (camera_ w'))
                 = Rmax 1 (Rmax (Rmax far1 far2) far3 + model_size)).
  { unfold w', SetupCamera, far_plane, MIN_FAR_PLANE; simpl.
    unfold far1, far2, far3, model_size; simpl.
    f_equal; try lra. f_equal. lra. }
  rewrite Hfar.
  pose proof (Rmax_3 far1 far2 far3) as (H1 & H2 & H3).
  pose proof (Rmax_l 1 (Rmax (Rmax far1 far2) far3 + model_size)).
  pose proof (Rmax_r 1 (Rmax (Rmax far1 far2) far3 + model_size)).
  refine (conj eq_refl (conj eq_refl _)).
  repeat split; lra.
Qed.

End SceneWidgetFacts.

(** ** [NumberEdit] *)

Section NumberEditFacts.

Import NumberEdit.
Local Open Scope Q_scope.

Lemma Qlt_bool_true (a b : Q) : Qlt_bool a b = true -> a < b.
Proof.
  unfold Qlt_bool. intros H. apply negb_true_iff in H.
  apply Qnot_le_lt. intros Hle. apply Qle_bool_iff in Hle. congruence.
Qed.

(** [std::min(hi, std::max(lo, v))] lies between the bounds when they are
    in order. *)
Lemma clamp_between (lo hi v : Q) :
  lo <= hi -> lo <= std_min hi (std_max lo v) <= hi.
Proof.
  intros Hle. unfold std_min, std_max.
  destruct (Qlt_bool lo v) eqn:H1.
  - apply Qlt_bool_true in H1.
    destruct (Qlt_bool v hi) eqn:H2.
    + apply Qlt_bool_true in H2. split; apply Qlt_le_weak; assumption.
    + split; [exact Hle | apply Qle_refl].
  - destruct (Qlt_bool lo hi) eqn:H2.
    + split; [apply Qle_refl | exact Hle].
    + split; [exact Hle | apply Qle_refl].
Qed.

(** C8.  [SetLimits(min_value, max_value)] on an edit that is not of the
    integer type stores [min_value] as the minimum and as the maximum as
    well; on one of the integer type it stores [round(min_value)] and
    [round(max_value)].  In both cases the value held becomes
    [min(max_value, max(min_value, value))], which lies between
    [min_value] and [max_value] when these are in order. *)
Theorem SetLimits_stored_bounds (min_value max_value : Q) (s : Impl) :
  let s' := SetLimits min_value max_value s in
  (type_ s = DOUBLE ->
     GetMinimumValue s' = min_value /\ GetMaximumValue s' = min_value)
  /\ (type_ s = INT ->
     GetMinimumValue s' = round min_value
     /\ GetMaximumValue s' = round max_value)
  /\ value_ s' = std_min max_value (std_max min_value (value_ s))
  /\ (min_value <= max_value -> min_value <= value_ s' <= max_value)
  /\ type_ s' = type_ s.
Proof.
  intros s'. unfold s', SetLimits, GetMinimumValue, GetMaximumValue.
  refine (conj _ (conj _ (conj _ (conj _ _)))).
  - intros ->; split; reflexivity.
  - intros ->; split; reflexivity.
  - destruct (type_ s); reflexivity.
  - intros Hle. destruct (type_ s); simpl; apply clamp_between; exact Hle.
  - destruct (type_ s); reflexivity.
Qed.

(** The limits 0 and 10 on a floating-point edit holding 25: the value
    is brought down to 10, and both stored bounds are 0. *)
Example SetLimits_on_double :
  SetLimits 0 10 demo_edit = mkImpl DOUBLE 10 0 0.
Proof. reflexivity. Qed.

Example SetLimits_on_int :
  SetLimits (1 # 2) (19 # 2) (mkImpl INT 25 0 0) = mkImpl INT (19 # 2) 1 10.
Proof. reflexivity. Qed.

Example round_half_away_from_zero :
  round (5 # 2) = 3 /\ round (- (5 # 2)) = - (3) /\ round (12 # 5) = 2
  /\ round (- (12 # 5)) = -(2).
Proof. repeat split; reflexivity. Qed.

End NumberEditFacts.

(** ** Sessions of the dispatcher *)

Section SessionFacts.

Import Geometry Events Interactor Session.

Lemma Mouse_pointers (K : Codes) e s :
  current_ (fst (Mouse K e s)) = current_ s
  /\ (override_ (fst (Mouse K e s)) = None
      \/ override_ (fst (Mouse K e s)) = Some sun
      \/ override_ (fst (Mouse K e s)) = override_ s).
Proof.
  unfold Mouse.
  set (s1 := if is_current rotate s && arms K e
             then set_override (Some sun) s else s).
  assert (Hc1 : current_ s1 = current_ s)
    by (unfold s1; destruct (is_current rotate s && arms K e); reflexivity).
  assert (Ho1 : override_ s1 = Some sun \/ override_ s1 = override_ s)
    by (unfold s1; destruct (is_current rotate s && arms K e); auto).
  assert (Hcall : forall w, current_ (fst (call_Mouse K w e s1)) = current_ s
                            /\ override_ (fst (call_Mouse K w e s1))
                               = override_ s1).
  { intros w. destruct (call_Mouse_pointers K w e s1) as [-> ->]. auto. }
  destruct (override_ s1) as [o|] eqn:Ho.
  - destruct (Hcall o) as [Hc Hv].
    destruct (call_Mouse K o e s1) as [s' h]; simpl in *.
    rewrite Hv. destruct (is_button_up e); simpl; rewrite ?Hc, ?Hv; split; auto.
  - destruct (current_ s1) as [c|] eqn:Hcur.
    + destruct (Hcall c) as [Hc Hv].
      destruct (call_Mouse K c e s1) as [s' h]; simpl in *.
      rewrite Hv. simpl. rewrite Hc, Hv. auto.
    + simpl. rewrite Ho. simpl. split; [congruence | left; exact Ho].
Qed.

Lemma step_pointers (K : Codes) o s :
  (current_ s <> None -> current_ (step K o s) <> None)
  /\ (override_ (step K o s) = None
      \/ override_ (step K o s) = Some sun
      \/ override_ (step K o s) = override_ s).
Proof.
  destruct o; simpl.
  - destruct (Mouse_pointers K e s) as [-> H]. auto.
  - unfold Key. destruct (current_ s) as [[| | | |]|] eqn:Hc; simpl;
      rewrite ?Hc; auto.
  - auto.
  - destruct mode; simpl; split; auto; discriminate.
  - auto.
  - auto.
  - auto.
Qed.

(** X1.  Whatever sequence of mouse events, key events, ticks, mode
    switches and configuration calls the dispatcher goes through after
    its construction, its active interactor is never null, and its
    override is either null or the light-rotation interactor. *)
Theorem dispatcher_pointers_invariant
    (K : Codes) (l : Logic) (ops : list Op) :
  current_ (run K ops (new_Interactors l)) <> None
  /\ (override_ (run K ops (new_Interactors l)) = None
      \/ override_ (run K ops (new_Interactors l)) = Some sun).
Proof.
  unfold run.
  assert (H : forall s,
             current_ s <> None ->
             override_ s = None \/ override_ s = Some sun ->
             current_ (fold_left (fun s o => step K o s) ops s) <> None
             /\ (override_ (fold_left (fun s o => step K o s) ops s) = None
                 \/ override_ (fold_left (fun s o => step K o s) ops s)
                    = Some sun)).
  { induction ops as [|o ops IH]; intros s Hc Ho; simpl; [auto|].
    destruct (step_pointers K o s) as [Hc' Ho'].
    apply IH; [auto|].
    destruct Ho' as [H | [H | H]]; auto. rewrite H; exact Ho. }
  apply H; [discriminate | left; reflexivity].
Qed.

End SessionFacts.

Section SessionFacts2.

Import Geometry Events Interactor Session.

(** X2.  A mode switch does not end a gesture in progress.  While the
    light-rotation override is armed, [SetControls] changes the active
    interactor and what [GetControls] reports, but the next mouse event
    still goes to the light-rotation interactor, and the override stays
    armed until a button-up. *)
Theorem override_outlives_mode_switch
    (K : Codes) (s : Interactors) (mode : Controls.t) (e : MouseEvent) :
  override_ s = Some sun ->
  GetControls (SetControls mode s) = mode
  /\ snd (Mouse K e (SetControls mode s))
     = Some (sun, snd (RotateSun_Mouse e (sun_ s)))
  /\ override_ (fst (Mouse K e (SetControls mode s)))
     = (if is_button_up e then None else Some sun).
Proof.
  intros Hov.
  split; [destruct mode; reflexivity|].
  set (s' := SetControls mode s).
  assert (Hov' : override_ s' = Some sun)
    by (unfold s'; destruct mode; exact Hov).
  assert (Hsun : sun_ s' = sun_ s) by (unfold s'; destruct mode; reflexivity).
  set (s1 := if is_current rotate s' && arms K e
             then set_override (Some sun) s' else s').
  assert (Ho1 : override_ s1 = Some sun)
    by (unfold s1; destruct (is_current rotate s' && arms K e); auto).
  assert (Hs1 : sun_ s1 = sun_ s)
    by (unfold s1; destruct (is_current rotate s' && arms K e); auto).
  destruct (Mouse_overridden K e s' sun Ho1) as (Hh & Ho & _).
  fold s1 in Hh. rewrite Hh, Ho.
  destruct (call_Mouse_sun K e s1) as [-> _]. rewrite Hs1. auto.
Qed.

Lemma override_outlives_mode_switch_witness :
  override_ (fst (Mouse desktop middle_down demo_orbit)) = Some sun
  /\ snd (Mouse desktop (drag_to 120 100)
            (SetControls Controls.FLY
               (fst (Mouse desktop middle_down demo_orbit))))
     = Some (sun, snd (RotateSun_Mouse (drag_to 120 100)
                         (sun_ (fst (Mouse desktop middle_down demo_orbit))))).
Proof.
  split; [reflexivity|].
  exact (proj1 (proj2 (override_outlives_mode_switch
                         desktop (fst (Mouse desktop middle_down demo_orbit))
                         Controls.FLY (drag_to 120 100) eq_refl))).
Defined.

(** X3.  With no override armed and an active interactor other than the
    orbit camera, no mouse event arms the override, whatever its button
    and modifiers: the event goes to the active interactor. *)
Theorem no_override_outside_orbit_mode
    (K : Codes) (s : Interactors) (c : Which) (e : MouseEvent) :
  current_ s = Some c ->
  c <> rotate ->
  override_ s = None ->
  override_ (fst (Mouse K e s)) = None
  /\ snd (Mouse K e s) = Some (snd (call_Mouse K c e s))
  /\ fst (snd (call_Mouse K c e s)) = c.
Proof.
  intros Hc Hne Hov.
  assert (Hcur : is_current rotate s = false).
  { unfold is_current; rewrite Hc. destruct c; try reflexivity.
    contradiction Hne; reflexivity. }
  destruct (Mouse_plain K e s c Hov) as [Hh Ho]; auto.
  { rewrite Hcur; reflexivity. }
  refine (conj Ho (conj Hh _)).
  destruct c; simpl;
    [ destruct (RotateCamera_Mouse K e (rotate_ s))
    | destruct (Fly_Mouse K e (fly_ s))
    | destruct (RotateSun_Mouse e (sun_ s))
    | destruct (RotateIBL_Mouse K e (ibl_ s))
    | destruct (Rotation_Mouse K e (model_ s)) ]; reflexivity.
Qed.

Lemma no_override_outside_orbit_mode_witness :
  current_ (SetControls Controls.FLY demo_orbit) = Some fly
  /\ fly <> rotate
  /\ override_ (SetControls Controls.FLY demo_orbit) = None
  /\ override_ (fst (Mouse desktop middle_down
                       (SetControls Controls.FLY demo_orbit))) = None
  /\ snd (Mouse desktop middle_down (SetControls Controls.FLY demo_orbit))
     = Some (snd (call_Mouse desktop fly middle_down
                    (SetControls Controls.FLY demo_orbit))).
Proof.
  assert (Hne : fly <> rotate) by discriminate.
  destruct (no_override_outside_orbit_mode
              desktop (SetControls Controls.FLY demo_orbit) fly middle_down
              eq_refl Hne eq_refl) as (H1 & H2 & _).
  exact (conj eq_refl (conj Hne (conj eq_refl (conj H1 H2)))).
Defined.

Lemma when_lambda_split (b : bool) (c : list Call) (rest : Ticked) :
  snd (when b (lambda c) +> rest) = b || snd rest
  /\ fst (when b (lambda c) +> rest) = (if b then c else []) ++ fst rest.
Proof. destruct b; simpl; auto. Qed.

Lemma Fly_Tick_redraw_existsb (K : Codes) (s : Fly) :
  snd (Fly_Tick K s) = existsb (HasKey s) (tick_keys K)
  /\ (existsb (HasKey s) (tick_keys K) = false -> fst (Fly_Tick K s) = []).
Proof.
  unfold Fly_Tick.
  destruct (bool_decide (keys_down_ s = ∅)) eqn:He.
  - apply bool_decide_eq_true_1 in He.
    assert (Hno : forall k, HasKey s k = false).
    { intros k. unfold HasKey. apply bool_decide_eq_false_2.
      rewrite He. apply not_elem_of_empty. }
    split; [|reflexivity].
    simpl. rewrite !Hno. reflexivity.
  - cbv zeta. unfold tick_keys. simpl existsb.
    repeat rewrite (proj1 (when_lambda_split _ _ _)).
    repeat rewrite (proj2 (when_lambda_split _ _ _)).
    split.
    + destruct (HasKey s (KEY_RIGHT K)); simpl;
        rewrite ?orb_false_r, ?orb_true_r; reflexivity.
    + intros H. repeat (apply orb_false_elim in H; destruct H as [-> H]).
      reflexivity.
Qed.

(** X4.  A tick of the fly interactor reports that a redraw is needed
    exactly when one of the twelve keys it knows (a, d, w, s, q, z, e, r
    and the four arrows) is held.  A held key that is none of them gives
    no request and no redraw. *)
Theorem Fly_Tick_redraw_iff_known_key_held (K : Codes) (s : Fly) :
  (snd (Fly_Tick K s) = true <->
   exists k, In k (tick_keys K) /\ k ∈ keys_down_ s)
  /\ (snd (Fly_Tick K s) = false -> fst (Fly_Tick K s) = []).
Proof.
  destruct (Fly_Tick_redraw_existsb K s) as [Hs Hf].
  split.
  - rewrite Hs, existsb_exists. split.
    + intros (k & Hin & Hk). exists k. split; [exact Hin|].
      unfold HasKey in Hk. apply bool_decide_eq_true_1 in Hk. exact Hk.
    + intros (k & Hin & Hk). exists k. split; [exact Hin|].
      apply bool_decide_eq_true_2; exact Hk.
  - rewrite Hs. exact Hf.
Qed.

End SessionFacts2.

Section SessionFacts3.

Import Geometry Events Interactor Session.

Lemma Key_outside_fly (e : KeyEvent) (s : Interactors) :
  current_ s <> Some fly -> Key e s = s.
Proof.
  unfold Key. destruct (current_ s) as [[| | | |]|]; intros H;
    try reflexivity. contradiction H; reflexivity.
Qed.

(** X5.  Key events reach the fly interactor only while it is the
    active one; in every other mode [Key] changes nothing.  So a key
    pressed in fly mode and released after a switch to another mode is
    still held when fly mode is selected again, and if it is one of the
    keys [Tick] knows, the next tick moves the camera and asks for a
    redraw. *)
Theorem key_released_in_another_mode_stays_held
    (K : Codes) (s : Interactors) (k : N) (mode : Controls.t) :
  current_ s = Some fly ->
  mode <> Controls.FLY ->
  let s' := SetControls Controls.FLY
              (Key (mkKey UP k)
                 (SetControls mode (Key (mkKey DOWN k) s))) in
  (forall e, Key e (SetControls mode s) = SetControls mode s)
  /\ k ∈ keys_down_ (fly_ s')
  /\ (In k (tick_keys K) -> snd (Tick K s') = DrawResult.REDRAW).
Proof.
  intros Hcur Hmode s'.
  assert (Hnot : forall t, current_ (SetControls mode t) <> Some fly).
  { intros t. destruct mode; simpl; try discriminate.
    contradiction Hmode; reflexivity. }
  assert (Hs' : s' = SetControls Controls.FLY
                       (SetControls mode (Key (mkKey DOWN k) s))).
  { unfold s'. rewrite Key_outside_fly by apply Hnot. reflexivity. }
  assert (Hheld : k ∈ keys_down_ (fly_ s')).
  { rewrite Hs'. unfold Key. rewrite Hcur.
    destruct mode; simpl; apply elem_of_union_l, elem_of_singleton_2;
      reflexivity. }
  refine (conj _ (conj Hheld _)).
  - intros e. apply Key_outside_fly, Hnot.
  - intros Hin. unfold Tick.
    assert (Hc : current_ s' = Some fly) by (rewrite Hs'; reflexivity).
    rewrite Hc.
    assert (Hr : snd (Fly_Tick K (fly_ s')) = true).
    { rewrite (proj1 (Fly_Tick_redraw_existsb K (fly_ s'))).
      apply existsb_exists. exists k. split; [exact Hin|].
      apply bool_decide_eq_true_2; exact Hheld. }
    destruct (Fly_Tick K (fly_ s')) as [calls redraw]; simpl in *.
    rewrite Hr; reflexivity.
Qed.

Lemma key_released_in_another_mode_stays_held_witness :
  current_ (SetControls Controls.FLY demo_orbit) = Some fly
  /\ Controls.ROTATE_OBJ <> Controls.FLY
  /\ 119%N ∈ keys_down_
        (fly_ (SetControls Controls.FLY
                 (Key (mkKey UP 119)
                    (SetControls Controls.ROTATE_OBJ
                       (Key (mkKey DOWN 119)
                          (SetControls Controls.FLY demo_orbit)))))).
Proof.
  assert (Hne : Controls.ROTATE_OBJ <> Controls.FLY) by discriminate.
  exact (conj eq_refl (conj Hne
           (proj1 (proj2 (key_released_in_another_mode_stays_held
                            desktop (SetControls Controls.FLY demo_orbit)
                            119%N Controls.ROTATE_OBJ eq_refl Hne))))).
Defined.

Lemma HasKey_after_Key (e : KeyEvent) (s : Fly) (k : N) :
  HasKey (Fly_Key e s) k
  = if N.eqb k (key e)
    then match ktype e with DOWN => true | UP => false end
    else HasKey s k.
Proof.
  unfold HasKey, Fly_Key.
  destruct (N.eqb_spec k (key e)) as [-> | Hne], (ktype e); simpl.
  - apply bool_decide_eq_true_2, elem_of_union_l, elem_of_singleton_2.
    reflexivity.
  - apply bool_decide_eq_false_2. intros H.
    apply elem_of_difference in H as [_ H].
    apply H, elem_of_singleton_2. reflexivity.
  - apply bool_decide_ext. rewrite elem_of_union, elem_of_singleton. tauto.
  - apply bool_decide_ext. rewrite elem_of_difference, elem_of_singleton.
    tauto.
Qed.

(** X6.  The fly interactor holds a key from its key-down to its
    key-up: after a key event, the key of the event is held exactly if
    the event was a key-down, and every other key is held as before.  A
    repeated key-down does not accumulate: the interactor is left as
    after the first, and one key-up releases the key. *)
Theorem Fly_Key_holds_between_down_and_up
    (e : KeyEvent) (s : Fly) (k : N) :
  HasKey (Fly_Key e s) k
  = (if N.eqb k (key e)
     then match ktype e with DOWN => true | UP => false end
     else HasKey s k)
  /\ Fly_Key (mkKey DOWN k) (Fly_Key (mkKey DOWN k) s)
     = Fly_Key (mkKey DOWN k) s
  /\ HasKey (Fly_Key (mkKey UP k)
               (Fly_Key (mkKey DOWN k) (Fly_Key (mkKey DOWN k) s))) k
     = false.
Proof.
  split; [apply HasKey_after_Key|]. split.
  - unfold Fly_Key; simpl. f_equal.
    apply leibniz_equiv. intros j.
    rewrite !elem_of_union, elem_of_singleton. tauto.
  - rewrite HasKey_after_Key. simpl. rewrite N.eqb_refl. reflexivity.
Qed.

Lemma last_cons_default {A : Type} (a d : A) (l : list A) :
  last (a :: l) d = last l a.
Proof.
  revert a d. induction l as [|q l IH]; intros a d; [reflexivity|].
  change (last (a :: q :: l) d) with (last (q :: l) d).
  rewrite IH. symmetry. apply IH.
Qed.

Lemma Fly_drags_total (K : Codes) (m : Z) :
  has_modifier m (META K) = false ->
  forall (ps : list (Z * Z)) (s : Fly),
    RotateFly_total (snd (Fly_drags K m ps s))
    = ((last_mouse_x_ s - fst (last ps (last_mouse_x_ s, last_mouse_y_ s)))%Z,
       (last_mouse_y_ s - snd (last ps (last_mouse_x_ s, last_mouse_y_ s)))%Z)
    /\ (last_mouse_x_ (fst (Fly_drags K m ps s)),
        last_mouse_y_ (fst (Fly_drags K m ps s)))
       = last ps (last_mouse_x_ s, last_mouse_y_ s)
    /\ keys_down_ (fst (Fly_drags K m ps s)) = keys_down_ s.
Proof.
  intros Hm. induction ps as [|[px py] ps IH]; intros s.
  - simpl. repeat split; f_equal; lia.
  - rewrite last_cons_default. simpl. rewrite Hm.
    set (s1 := mkFly (f_logic s) px py (keys_down_ s)).
    destruct (IH s1) as (Ht & Hl & Hk).
    destruct (Fly_drags K m ps s1) as [s2 c2]; simpl in *.
    rewrite Ht, Hl, Hk.
    repeat split. f_equal; lia.
Qed.

(** X7.  The fly interactor turns by relative movement: over a drag
    gesture without the meta modifier, whatever path the pointer takes,
    the deltas of the [RotateFly] requests add up to the negated
    displacement of the pointer from where the button went down to where
    the last drag event left it; held keys are not touched. *)
Theorem Fly_drag_deltas_add_up
    (K : Codes) (m m0 : Z) (b : MouseButton) (x0 y0 : Z)
    (ps : list (Z * Z)) (s : Fly) :
  has_modifier m (META K) = false ->
  let s0 := fst (Fly_Mouse K (mkMouse (BUTTON_DOWN b) x0 y0 m0) s) in
  RotateFly_total (snd (Fly_drags K m ps s0))
  = ((x0 - fst (last ps (x0, y0)))%Z, (y0 - snd (last ps (x0, y0)))%Z)
  /\ keys_down_ (fst (Fly_drags K m ps s0)) = keys_down_ s.
Proof.
  intros Hm s0.
  destruct (Fly_drags_total K m Hm ps s0) as (Ht & _ & Hk).
  split; [exact Ht | exact Hk].
Qed.

Lemma Fly_drag_deltas_add_up_witness :
  has_modifier 0 (META desktop) = false
  /\ RotateFly_total
       (snd (Fly_drags desktop 0 [(13, 9); (20, 2); (18, 30)]%Z
               (fst (Fly_Mouse desktop (mkMouse (BUTTON_DOWN LEFT) 10 10 0)
                               demo_fly))))
     = ((10 - 18)%Z, (10 - 30)%Z).
Proof.
  exact (conj eq_refl
           (proj1 (Fly_drag_deltas_add_up desktop 0 0 LEFT 10 10
                     [(13, 9); (20, 2); (18, 30)]%Z demo_fly eq_refl))).
Defined.

End SessionFacts3.

Section GestureFacts.

Import Geometry Events Interactor Session SceneWidget.
Local Open Scope R_scope.

Lemma Rotation_Mouse_within (K : Codes) (e : MouseEvent) (s : Rotation) :
  within_gesture e = true -> fst (Rotation_Mouse K e s) = s.
Proof.
  unfold within_gesture, Rotation_Mouse.
  destruct (type e); intros H; try discriminate; reflexivity.
Qed.

Lemma Rotation_all_within (K : Codes) (es : list MouseEvent) (s : Rotation) :
  Forall (fun e => within_gesture e = true) es -> Rotation_all K es s = s.
Proof.
  induction 1 as [|e es He _ IH]; simpl; [reflexivity|].
  rewrite (Rotation_Mouse_within K e s He). exact IH.
Qed.

(** X8.  A drag of a rotation interactor is relative to the point where
    the button went down: whatever drags, moves and wheel events came in
    between, a drag to [(x, y)] makes the request that the button and
    the modifiers of the button-down selected, with the deltas
    [(x - x0, y - y0)], followed by [UpdateMouseDragUI].  A button other
    than the left and the right one, pressed on an idle interactor,
    selects no request.  After a button-up the interactor is idle: a
    drag makes no transform request. *)
Theorem Rotation_drag_is_relative_to_button_down
    (K : Codes) (s : Rotation) (b : MouseButton) (x0 y0 m0 : Z)
    (es : list MouseEvent) (x y m : Z) :
  Forall (fun e => within_gesture e = true) es ->
  let s0 := fst (Rotation_Mouse K (mkMouse (BUTTON_DOWN b) x0 y0 m0) s) in
  snd (Rotation_Mouse K (mkMouse DRAG x y m) (Rotation_all K es s0))
  = drag_request (button_down_state K b m0 (state_ s)) (x - x0) (y - y0)
    ++ [UpdateMouseDragUI]
  /\ (b <> LEFT -> b <> RIGHT -> state_ s = State.NONE ->
      drag_request (button_down_state K b m0 (state_ s)) (x - x0) (y - y0)
      = [])
  /\ (forall (b' : MouseButton) (x' y' m' : Z),
        snd (Rotation_Mouse K (mkMouse DRAG x y m)
               (fst (Rotation_Mouse K (mkMouse (BUTTON_UP b') x' y' m')
                       (Rotation_all K es s0))))
        = [UpdateMouseDragUI]).
Proof.
  intros Hes s0.
  rewrite (Rotation_all_within K es s0 Hes).
  refine (conj _ (conj _ _)).
  - unfold s0, Rotation_Mouse; simpl.
    destruct (button_down_state K b m0 (state_ s)); reflexivity.
  - intros Hl Hr Hidle. unfold button_down_state.
    destruct b; try (contradiction Hl; reflexivity);
      try (contradiction Hr; reflexivity); simpl; rewrite Hidle; reflexivity.
  - intros b' x' y' m'. reflexivity.
Qed.

Lemma Rotation_drag_is_relative_to_button_down_witness :
  Forall (fun e => within_gesture e = true)
         [drag_to 5 5; mkMouse MOVE 7 7 0; drag_to 300 2]
  /\ snd (Rotation_Mouse desktop (mkMouse DRAG 130 90 0)
            (Rotation_all desktop
               [drag_to 5 5; mkMouse MOVE 7 7 0; drag_to 300 2]
               (fst (Rotation_Mouse desktop
                       (mkMouse (BUTTON_DOWN LEFT) 100 100 0)
                       (rotate_ demo_orbit)))))
     = drag_request
         (button_down_state desktop LEFT 0 (state_ (rotate_ demo_orbit)))
         (130 - 100) (90 - 100)
       ++ [UpdateMouseDragUI].
Proof.
  assert (H : Forall (fun e => within_gesture e = true)
                     [drag_to 5 5; mkMouse MOVE 7 7 0; drag_to 300 2])
    by (repeat constructor).
  exact (conj H
           (proj1 (Rotation_drag_is_relative_to_button_down
                     desktop (rotate_ demo_orbit) LEFT 100 100 0
                     [drag_to 5 5; mkMouse MOVE 7 7 0; drag_to 300 2]
                     130 90 0 H))).
Defined.

(** X9.  [SetupCamera] does not use its [center_of_rotation] argument:
    the orbit camera ends up rotating about the centre of the given
    bounding box.  All five interactors get the box, so that the step of
    the fly interactor becomes [0.0025 * norm (extent of the box)], and
    the aspect ratio is that of the widget's frame, or 1 for a frame
    without height. *)
Theorem SetupCamera_configures_interactors
    (LookAt : Vec3 -> Vec3 -> Vec3 -> Camera -> Camera)
    (verticalFoV : R) (b : AxisAlignedBoundingBox)
    (center_of_rotation : Vec3) (w : Impl) :
  let w' := SetupCamera LookAt verticalFoV b center_of_rotation w in
  orbit_center w' = GetCenter b
  /\ bounds_ w' = b
  /\ model_bounds (rot_logic (rotate_ (controls_ w'))) = b
  /\ model_bounds (f_logic (fly_ (controls_ w'))) = b
  /\ model_bounds (r_logic (sun_ (controls_ w'))) = b
  /\ model_bounds (r_logic (ibl_ (controls_ w'))) = b
  /\ model_bounds (rot_logic (model_ (controls_ w'))) = b
  /\ Fly_dist (fly_ (controls_ w')) = 0.0025 * norm (GetExtent b)
  /\ aspect (projection (camera_ w'))
     = (if (0 <? frame_height w)%Z
        then IZR (frame_width w) / IZR (frame_height w) else 1)
  /\ fov (projection (camera_ w')) = verticalFoV
  /\ current_ (controls_ w') = current_ (controls_ w)
  /\ keys_down_ (fly_ (controls_ w')) = keys_down_ (fly_ (controls_ w)).
Proof.
  intros w'. unfold w', SetupCamera, orbit_center, Fly_dist; simpl.
  repeat split; try reflexivity.
  destruct (0 <? frame_height w)%Z; [reflexivity | lra].
Qed.

End GestureFacts.

(** ** Sizing the capture target *)

Section RenderTargetFacts.

Import RenderToBuffer RenderTarget.

Lemma same_target_refl s : same_target s s.
Proof. repeat split; auto. Qed.

Lemma same_target_trans s1 s2 s3 :
  same_target s1 s2 -> same_target s2 s3 -> same_target s1 s3.
Proof.
  intros (Hw & Hh & Hs & Hb) (Hw' & Hh' & Hs' & Hb').
  repeat split; try congruence. auto.
Qed.

Lemma same_target_accept (malloc : N -> option Ptr) cb s :
  same_target s
    (fst ((modify (set_pending true) ;;;
           modify (fun s => match buffer_ s with
                            | None => set_buffer (malloc (buffer_size_ s)) s
                            | Some _ => s
                            end) ;;;
           modify (set_callback cb)) s)).
Proof.
  unfold bind, modify; simpl.
  destruct (buffer_ s) as [p|] eqn:Hb; simpl; repeat split; auto.
  intros q Hq; congruence.
Qed.

Lemma invoke_same_target (malloc : N -> option Ptr) :
  forall cb arg s, same_target s (fst (invoke malloc cb arg s)).
Proof.
  intros cb.
  induction cb using callback_mut with
    (P0 := fun r => forall s, same_target s (fst (reenter malloc r s))).
  - intros arg s. simpl. specialize (H arg s).
    destruct (reenter malloc (body arg) s); exact H.
  - intros s. apply same_target_refl.
  - intros s. simpl.
    assert (H1 : same_target s
                   (fst (RequestFrame_with malloc (invoke malloc) scene cb s))).
    { unfold RequestFrame_with.
      destruct scene; [destruct (pending_ s)|]; try apply IHcb.
      apply same_target_accept. }
    destruct (RequestFrame_with malloc (invoke malloc) scene cb s) as [s1 t1].
    specialize (IHcb0 s1).
    destruct (reenter malloc rest s1) as [s2 t2]; simpl in *.
    eapply same_target_trans; eassumption.
Qed.

Lemma RequestFrame_same_target (malloc : N -> option Ptr) scene cb s :
  same_target s (fst (RequestFrame malloc scene cb s)).
Proof.
  unfold RequestFrame, RequestFrame_with.
  destruct scene; [destruct (pending_ s)|]; try apply invoke_same_target.
  apply same_target_accept.
Qed.

Lemma same_target_flag b s : same_target s (set_frame_done b s).
Proof. repeat split; auto. Qed.

Lemma Render_loop_same_target (malloc : N -> option Ptr) :
  forall sched shotDone user s s' t,
    Render_loop malloc sched shotDone user s = Returned s' t ->
    same_target s s'.
Proof.
  induction sched as [|f sched IH]; intros shotDone user s s' t; simpl.
  - destruct (frame_done_ s); [|discriminate].
    intros [= <- _]. apply same_target_refl.
  - destruct (frame_done_ s); [intros [= <- _]; apply same_target_refl|].
    destruct (begin_ok f).
    + destruct (if completes f
                then if shotDone then user else Some (callback_ s)
                else None) as [u|].
      * unfold ReadPixelsCallback. destruct u as [cb|]; [|discriminate].
        pose proof (invoke_same_target malloc cb
                      (mkBuffer (width_ s) (height_ s) (buffer_ s)
                                (buffer_size_ s)) s) as Hinv.
        destruct (invoke malloc cb _ s) as [s1 t1]; simpl in Hinv.
        destruct (Render_loop malloc sched true None (set_frame_done true s1))
          as [s2 t2| |] eqn:Hrun; simpl; try discriminate.
        intros [= <- _].
        eapply same_target_trans; [exact Hinv|].
        eapply same_target_trans; [apply (same_target_flag true)|].
        eapply IH; exact Hrun.
      * destruct (Render_loop malloc sched true
                    (if shotDone then user else Some (callback_ s)) s)
          as [s2 t2| |] eqn:Hrun; simpl; try discriminate.
        intros [= <- _]. eapply IH; exact Hrun.
    + destruct (Render_loop malloc sched shotDone user s)
        as [s2 t2| |] eqn:Hrun; simpl; try discriminate.
      intros [= <- _]. eapply IH; exact Hrun.
Qed.

(** X10.  Neither [RequestFrame] nor [Render] resizes the target or
    replaces its buffer, whatever the callbacks do when they call back
    into the object: the width, the height and the size of the buffer
    stay as they are, and a buffer that has been allocated is the one
    every later request and frame uses.  A [Render] that returns leaves
    no request pending. *)
Theorem request_path_keeps_target
    (malloc : N -> option Ptr) (s : State) (scene : option Scene)
    (cb : BufferReadyCallback) (sched : list Frame) :
  same_target s (fst (RequestFrame malloc scene cb s))
  /\ (forall s' t,
        Render malloc sched s = Returned s' t ->
        same_target s s' /\ pending_ s' = false).
Proof.
  split; [apply RequestFrame_same_target|].
  intros s' t. unfold Render.
  destruct (Render_loop malloc sched false None (set_frame_done false s))
    as [s2 t2| |] eqn:Hrun; try discriminate.
  intros [= <- _]. split; [|reflexivity].
  apply Render_loop_same_target in Hrun.
  destruct Hrun as (Hw & Hh & Hs & Hb). repeat split; auto.
Qed.

End RenderTargetFacts.

Section RenderTargetFacts2.

Import RenderToBuffer RenderTarget.

Lemma buffer_size_wrap (w h : N) :
  wrap64 (wrap64 (wrap64 (w * h) * 3) * 1) = wrap64 (w * h * 3).
Proof.
  unfold wrap64.
  rewrite N.mul_1_r, N.Div0.mod_mod, N.Div0.mul_mod_idemp_l.
  reflexivity.
Qed.

(** X11.  [CopySettings] with a Filament view does not copy the view: it
    keeps a pointer to it, takes over the width and the height of its
    viewport, sets the size of the buffer to [width * height * 3] (in
    [size_t] arithmetic), reallocates the buffer if there is one and
    leaves it unallocated if there is none, and moves the viewport of
    that very view to the origin.  Other views, the pending flag and the
    stored callback are untouched.  With a view that is not a Filament
    view only the pointer is cleared, after which [SetDimensions] has no
    view to work on. *)
Theorem CopySettings_adopts_view_size
    (realloc : Ptr -> N -> option Ptr) (v : N) (vp : Viewport)
    (t : Target) (views : Views) :
  views !! v = Some vp ->
  (exists t' views',
     CopySettings realloc (Some v) t views = Some (t', views')
     /\ view_ t' = Some v
     /\ width_ (core t') = vp_width vp
     /\ height_ (core t') = vp_height vp
     /\ buffer_size_ (core t') = wrap64 (vp_width vp * vp_height vp * 3)
     /\ sized (core t')
     /\ buffer_ (core t')
        = match buffer_ (core t) with
          | Some p => realloc p (wrap64 (vp_width vp * vp_height vp * 3))
          | None => None
          end
     /\ pending_ (core t') = pending_ (core t)
     /\ callback_ (core t') = callback_ (core t)
     /\ views' !! v
        = Some (mkViewport 0 0 (wrap32 (vp_width vp)) (wrap32 (vp_height vp)))
     /\ (forall u, u <> v -> views' !! u = views !! u))
  /\ CopySettings realloc None t views
     = Some (mkTarget (core t) (swapchain_ t) None, views)
  /\ (forall w h,
        SetDimensions realloc w h (mkTarget (core t) (swapchain_ t) None) views
        = None).
Proof.
  intros Hv. split; [|split; reflexivity].
  unfold CopySettings, SetDimensions. simpl. rewrite Hv.
  eexists _, _. split; [reflexivity|]. simpl.
  rewrite buffer_size_wrap.
  refine (conj eq_refl (conj eq_refl (conj eq_refl (conj eq_refl
           (conj _ (conj eq_refl (conj eq_refl (conj eq_refl
              (conj _ _))))))))).
  - unfold sized; simpl. rewrite buffer_size_wrap. reflexivity.
  - apply lookup_insert_eq.
  - intros u Hu. apply lookup_insert_ne. congruence.
Qed.

Lemma CopySettings_adopts_view_size_witness :
  demo_views !! 1%N = Some (mkViewport 10 20 640 480)
  /\ exists t' views',
       CopySettings demo_realloc (Some 1%N) demo_target demo_views
       = Some (t', views')
       /\ view_ t' = Some 1%N
       /\ width_ (core t') = 640%N
       /\ height_ (core t') = 480%N
       /\ buffer_size_ (core t') = wrap64 (640 * 480 * 3)
       /\ sized (core t')
       /\ buffer_ (core t')
          = match buffer_ (core demo_target) with
            | Some p => demo_realloc p (wrap64 (640 * 480 * 3))
            | None => None
            end
       /\ pending_ (core t') = pending_ (core demo_target)
       /\ callback_ (core t') = callback_ (core demo_target)
       /\ views' !! 1%N
          = Some (mkViewport 0 0 (wrap32 640) (wrap32 480))
       /\ (forall u, u <> 1%N -> views' !! u = demo_views !! u).
Proof.
  assert (H : demo_views !! 1%N = Some (mkViewport 10 20 640 480))
    by (apply lookup_singleton_eq).
  exact (conj H
           (proj1 (CopySettings_adopts_view_size
                     demo_realloc 1%N (mkViewport 10 20 640 480)
                     demo_target demo_views H))).
Defined.

Lemma calls_single pre e :
  calls pre = [] -> is_call e = true -> calls (pre ++ [e]) = [e].
Proof.
  intros Hp He. unfold calls in *. rewrite filter_app, Hp. simpl.
  rewrite He. reflexivity.
Qed.

(** X12.  A frame is delivered with the dimensions that were set: after
    [SetDimensions(width, height)] on an idle target, an accepted
    request, once rendered, hands its callback the buffer
    [{width, height, buffer_, width * height * 3}] (the size in [size_t]
    arithmetic), three bytes for a pixel. *)
Theorem frame_has_the_dimensions_set
    (malloc : N -> option Ptr) (realloc : Ptr -> N -> option Ptr)
    (width height : N) (t t' : Target) (views views' : Views)
    (scene : Scene) (cb : BufferReadyCallback) (sched : list Frame) :
  SetDimensions realloc width height t views = Some (t', views') ->
  pending_ (core t) = false ->
  delivers sched = true ->
  let s1 := fst (RequestFrame malloc (Some scene) cb (core t')) in
  exists pre nested,
    Render malloc sched s1
    = Returned (set_pending false (set_frame_done true s1))
               (pre ++ Called (handler_name cb)
                              (mkBuffer width height (buffer_ s1)
                                        (wrap64 (width * height * 3)))
                              true false
                    :: nested)
    /\ calls pre = []
    /\ Forall (nested_rejection false) nested.
Proof.
  intros Hset Hidle Hdel s1.
  unfold SetDimensions in Hset.
  destruct (view_ t) as [v|]; [|discriminate].
  destruct (views !! v); [|discriminate].
  injection Hset as <- _.
  assert (Hs1 : pending_ s1 = true /\ callback_ s1 = Some cb
                /\ width_ s1 = width /\ height_ s1 = height
                /\ buffer_size_ s1 = wrap64 (width * height * 3)).
  { unfold s1, RequestFrame, RequestFrame_with; simpl. rewrite Hidle.
    unfold bind, modify; simpl.
    rewrite <- buffer_size_wrap.
    destruct (match buffer_ (core t) with
              | Some p => realloc p _
              | None => None
              end); simpl; auto. }
  destruct Hs1 as (Hp & Hcb & Hw & Hh & Hsz).
  destruct (Render_loop_delivers malloc cb sched false None
              (set_frame_done false s1) eq_refl Hp Hcb
              (fun H => False_ind _ (diff_false_true H)) Hdel)
    as (pre & nested & Hrun & [Hpre _] & Hall & _).
  exists pre, nested. unfold Render. rewrite Hrun.
  unfold frame_of; simpl. rewrite Hw, Hh, Hsz.
  auto.
Qed.

Lemma frame_has_the_dimensions_set_witness :
  exists t' views',
    SetDimensions demo_realloc 4 2 (mkTarget initial None (Some 1%N))
                  demo_views
    = Some (t', views')
    /\ pending_ (core (mkTarget initial None (Some 1%N))) = false
    /\ delivers demo_sched = true
    /\ let s1 := fst (RequestFrame demo_malloc (Some 7%N) demo_inner
                                   (core t')) in
       exists pre nested,
         Render demo_malloc demo_sched s1
         = Returned (set_pending false (set_frame_done true s1))
                    (pre ++ Called (handler_name demo_inner)
                                   (mkBuffer 4 2 (buffer_ s1)
                                             (wrap64 (4 * 2 * 3)))
                                   true false
                         :: nested)
         /\ calls pre = []
         /\ Forall (nested_rejection false) nested.
Proof.
  destruct (SetDimensions demo_realloc 4 2 (mkTarget initial None (Some 1%N))
                          demo_views) as [[t' views']|] eqn:Hset.
  - exists t', views'.
    exact (conj eq_refl (conj eq_refl (conj eq_refl
             (frame_has_the_dimensions_set
                demo_malloc demo_realloc 4 2
                (mkTarget initial None (Some 1%N)) t' demo_views views'
                7%N demo_inner demo_sched Hset eq_refl eq_refl)))).
  - exfalso. vm_compute in Hset. discriminate.
Defined.

Example frame_after_SetDimensions :
  calls
    match
      Render demo_malloc demo_sched
        (fst (RequestFrame demo_malloc (Some 7%N) demo_inner
                (set_dimensions 4 2 None initial)))
    with
    | Returned _ t => t
    | _ => []
    end
  = [Called 2 (mkBuffer 4 2 (Some 4096%N) 24) true false].
Proof. reflexivity. Qed.

(** One request with a callback that does not re-enter, from an idle
    target to an idle target. *)
Lemma RequestFrame_stores_and_Render_completes_aux
    (malloc : N -> option Ptr) (s : State) (scene : Scene)
    (cb : BufferReadyCallback) (sched : list Frame) :
  pending_ s = false -> inert cb -> delivers sched = true ->
  exists s1 t1,
    Render malloc sched (fst (RequestFrame malloc (Some scene) cb s))
    = Returned s1 t1
    /\ calls t1 = [Called (handler_name cb) (frame_of s1) true false]
    /\ pending_ s1 = false.
Proof.
  intros Hidle Hin Hdel.
  set (s0 := fst (RequestFrame malloc (Some scene) cb s)).
  assert (Hs0 : pending_ s0 = true /\ callback_ s0 = Some cb).
  { unfold s0, RequestFrame, RequestFrame_with. rewrite Hidle.
    unfold bind, modify; simpl. destruct (buffer_ s); simpl; auto. }
  destruct Hs0 as [Hp Hcb].
  destruct (Render_loop_delivers malloc cb sched false None
              (set_frame_done false s0) eq_refl Hp Hcb
              (fun H => False_ind _ (diff_false_true H)) Hdel)
    as (pre & nested & Hrun & [Hpre _] & _ & Hcall).
  rewrite (invoke_inert malloc cb _ _ Hin) in Hcall.
  injection Hcall as _ Hnested.
  eexists _, _. unfold Render. rewrite Hrun. split; [reflexivity|].
  split; [|reflexivity].
  rewrite <- Hnested. apply calls_single; [exact Hpre | reflexivity].
Qed.

Lemma request_path_keeps_target_aux
    (malloc : N -> option Ptr) (sched : list Frame) (s : State) :
  forall s' t, Render malloc sched s = Returned s' t -> same_target s s'.
Proof.
  intros s' t. unfold Render.
  destruct (Render_loop malloc sched false None (set_frame_done false s))
    as [s2 t2| |] eqn:Hrun; try discriminate.
  intros [= <- _].
  apply Render_loop_same_target in Hrun.
  destruct Hrun as (Hw & Hh & Hs & Hb). repeat split; auto.
Qed.

(** X13.  Requests are served one after the other.  When the frame of a
    request has been rendered, the next request is accepted; each of the
    two callbacks is called once, in its own [Render], with a frame of
    the same dimensions, and when the first request got a buffer the
    second frame is in that same buffer: it is allocated once. *)
Theorem requests_are_served_in_turn
    (malloc : N -> option Ptr) (s : State) (scene1 scene2 : Scene)
    (cb1 cb2 : BufferReadyCallback) (sched1 sched2 : list Frame) :
  pending_ s = false ->
  inert cb1 -> inert cb2 ->
  delivers sched1 = true -> delivers sched2 = true ->
  exists s1 t1 s2 t2,
    Render malloc sched1 (fst (RequestFrame malloc (Some scene1) cb1 s))
    = Returned s1 t1
    /\ calls t1 = [Called (handler_name cb1) (frame_of s1) true false]
    /\ snd (RequestFrame malloc (Some scene2) cb2 s1) = []
    /\ callback_ (fst (RequestFrame malloc (Some scene2) cb2 s1)) = Some cb2
    /\ Render malloc sched2 (fst (RequestFrame malloc (Some scene2) cb2 s1))
       = Returned s2 t2
    /\ calls t2 = [Called (handler_name cb2) (frame_of s2) true false]
    /\ width (frame_of s2) = width (frame_of s1)
    /\ height (frame_of s2) = height (frame_of s1)
    /\ size (frame_of s2) = size (frame_of s1)
    /\ (forall p, bytes (frame_of s1) = Some p ->
                  bytes (frame_of s2) = Some p).
Proof.
  intros Hidle Hin1 Hin2 Hd1 Hd2.
  destruct (RequestFrame_stores_and_Render_completes_aux
              malloc s scene1 cb1 sched1 Hidle Hin1 Hd1)
    as (s1 & t1 & Hr1 & Hc1 & Hp1).
  destruct (RequestFrame_stores_and_Render_completes_aux
              malloc s1 scene2 cb2 sched2 Hp1 Hin2 Hd2)
    as (s2 & t2 & Hr2 & Hc2 & Hp2).
  exists s1, t1, s2, t2.
  assert (Hacc : RequestFrame malloc (Some scene2) cb2 s1
                 = ((modify (set_pending true) ;;;
                     modify (fun s => match buffer_ s with
                                      | None =>
                                          set_buffer (malloc (buffer_size_ s))
                                                     s
                                      | Some _ => s
                                      end) ;;;
                     modify (set_callback cb2)) s1)).
  { unfold RequestFrame, RequestFrame_with. rewrite Hp1. reflexivity. }
  pose proof (RequestFrame_same_target malloc (Some scene2) cb2 s1) as Hk1.
  pose proof (request_path_keeps_target_aux malloc sched2
                (fst (RequestFrame malloc (Some scene2) cb2 s1))
                s2 t2 Hr2) as Hk2.
  destruct (same_target_trans _ _ _ Hk1 Hk2) as (Hw & Hh & Hs & Hb).
  refine (conj Hr1 (conj Hc1 (conj _ (conj _ (conj Hr2 (conj Hc2
           (conj Hw (conj Hh (conj Hs Hb))))))))).
  - rewrite Hacc. reflexivity.
  - rewrite Hacc. reflexivity.
Qed.

Lemma requests_are_served_in_turn_witness :
  pending_ initial = false
  /\ inert demo_inner
  /\ inert (Handler 3 (fun _ => Return))
  /\ delivers demo_sched = true
  /\ exists s1 t1 s2 t2,
       Render demo_malloc demo_sched
              (fst (RequestFrame demo_malloc (Some 7%N) demo_inner initial))
       = Returned s1 t1
       /\ calls t1 = [Called 2 (frame_of s1) true false]
       /\ snd (RequestFrame demo_malloc (Some 8%N)
                            (Handler 3 (fun _ => Return)) s1) = []
       /\ callback_ (fst (RequestFrame demo_malloc (Some 8%N)
                                       (Handler 3 (fun _ => Return)) s1))
          = Some (Handler 3 (fun _ => Return))
       /\ Render demo_malloc demo_sched
                 (fst (RequestFrame demo_malloc (Some 8%N)
                                    (Handler 3 (fun _ => Return)) s1))
          = Returned s2 t2
       /\ calls t2 = [Called 3 (frame_of s2) true false]
       /\ width (frame_of s2) = width (frame_of s1)
       /\ height (frame_of s2) = height (frame_of s1)
       /\ size (frame_of s2) = size (frame_of s1)
       /\ (forall p, bytes (frame_of s1) = Some p ->
                     bytes (frame_of s2) = Some p).
Proof.
  assert (H1 : inert demo_inner) by (intros b; reflexivity).
  assert (H2 : inert (Handler 3 (fun _ => Return))) by (intros b; reflexivity).
  exact (conj eq_refl (conj H1 (conj H2 (conj eq_refl
           (requests_are_served_in_turn
              demo_malloc initial 7%N 8%N demo_inner
              (Handler 3 (fun _ => Return)) demo_sched demo_sched
              eq_refl H1 H2 eq_refl eq_refl))))).
Defined.

End RenderTargetFacts2.

(** ** Reading and writing a [NumberEdit] *)

Section NumberEditValueFacts.

Import NumberEdit NumberEditValue.
Local Open Scope Q_scope.

Lemma Qle_bool_false (a b : Q) : Qle_bool a b = false -> b < a.
Proof.
  intros H. apply Qnot_le_lt. intros Hle.
  apply Qle_bool_iff in Hle. congruence.
Qed.

(** [round] is within one half of its argument, halves going away from
    zero. *)
Lemma round_nearest (v : Q) :
  exists z : Z,
    round v = inject_Z z
    /\ (0 <= v -> v - (1 # 2) < inject_Z z /\ inject_Z z <= v + (1 # 2))
    /\ (v < 0 -> v - (1 # 2) <= inject_Z z /\ inject_Z z < v + (1 # 2)).
Proof.
  unfold round. destruct (Qle_bool 0 v) eqn:Hs.
  - apply Qle_bool_iff in Hs.
    exists (Qfloor (v + (1 # 2))). split; [reflexivity|]. split.
    + intros _.
      pose proof (Qfloor_le (v + (1 # 2))) as Hlo.
      pose proof (Qlt_floor (v + (1 # 2))) as Hhi.
      rewrite inject_Z_plus in Hhi.
      change (inject_Z 1) with 1 in Hhi.
      revert Hlo Hhi. generalize (inject_Z (Qfloor (v + (1 # 2)))).
      intros f Hlo Hhi. split; Lqa.lra.
    + intros Hneg. exfalso. eapply Qlt_not_le; eassumption.
  - apply Qle_bool_false in Hs.
    exists (Qceiling (v - (1 # 2))). split; [reflexivity|]. split.
    + intros Hpos. exfalso. eapply Qlt_not_le; eassumption.
    + intros _.
      pose proof (Qle_ceiling (v - (1 # 2))) as Hlo.
      pose proof (Qceiling_lt (v - (1 # 2))) as Hhi.
      unfold Z.sub in Hhi. rewrite inject_Z_plus in Hhi.
      revert Hlo Hhi. generalize (inject_Z (Qceiling (v - (1 # 2)))).
      intros f Hlo Hhi.
      assert (Hhi' : f - 1 < v - (1 # 2)) by exact Hhi.
      split; Lqa.lra.
Qed.

(** X14.  [SetValue] on an edit of the integer type stores the integer
    nearest to the value given, a half going away from zero; on one of
    the floating-point type it stores the value as it is.  In both cases
    the limits are neither changed nor consulted. *)
Theorem SetValue_stores_nearest_integer (val : Q) (s : Impl) :
  (type_ s = INT ->
   exists z : Z,
     value_ (SetValue val s) = inject_Z z
     /\ (0 <= val ->
         val - (1 # 2) < inject_Z z /\ inject_Z z <= val + (1 # 2))
     /\ (val < 0 ->
         val - (1 # 2) <= inject_Z z /\ inject_Z z < val + (1 # 2)))
  /\ (type_ s = DOUBLE -> value_ (SetValue val s) = val)
  /\ min_value_ (SetValue val s) = min_value_ s
  /\ max_value_ (SetValue val s) = max_value_ s
  /\ type_ (SetValue val s) = type_ s.
Proof.
  unfold SetValue.
  refine (conj _ (conj _ _)).
  - intros ->. simpl. apply round_nearest.
  - intros ->. reflexivity.
  - destruct (type_ s); repeat split; reflexivity.
Qed.

Lemma round_integer (z : Z) : round (inject_Z z) = inject_Z z.
Proof.
  unfold round.
  destruct (Qle_bool 0 (inject_Z z)); f_equal.
  - unfold Qfloor, inject_Z, Qplus; simpl.
    symmetry. apply Z.div_unique with (r := 1%Z); lia.
  - unfold Qceiling, Qfloor, inject_Z, Qminus, Qplus, Qopp; simpl.
    assert (H : (- (z * 2 + - (1) * 1) / Z.pos (1 * 2) = - z)%Z)
      by (symmetry; apply Z.div_unique with (r := 1%Z); lia).
    rewrite H. lia.
Qed.

(** X15.  An integer in the range of [int] survives [SetValue] followed
    by [GetIntValue], whatever the type of the edit. *)
Theorem GetIntValue_after_SetValue (z : Z) (s : Impl) :
  (INT_MIN <= z <= INT_MAX)%Z ->
  GetIntValue (SetValue (inject_Z z) s) = Some z.
Proof.
  intros [Hlo Hhi].
  assert (Hv : value_ (SetValue (inject_Z z) s) = inject_Z z).
  { unfold SetValue. destruct (type_ s); simpl; [apply round_integer|].
    reflexivity. }
  unfold GetIntValue. rewrite Hv.
  unfold truncate; simpl. rewrite Z.quot_1_r.
  apply Z.leb_le in Hlo, Hhi. rewrite Hlo, Hhi. reflexivity.
Qed.

Lemma GetIntValue_after_SetValue_witness :
  (INT_MIN <= -7 <= INT_MAX)%Z
  /\ GetIntValue (SetValue (inject_Z (-7)) demo_edit) = Some (-7)%Z.
Proof.
  assert (H : (INT_MIN <= -7 <= INT_MAX)%Z) by (split; discriminate).
  exact (conj H (GetIntValue_after_SetValue (-7) demo_edit H)).
Defined.

(** The two types part on a fraction: the integer type rounds when the
    value is set, the floating-point type drops the fraction when it is
    read. *)
Example GetIntValue_of_a_fraction :
  GetIntValue (SetValue (27 # 10) (mkImpl INT 0 0 10)) = Some 3%Z
  /\ GetIntValue (SetValue (27 # 10) (mkImpl DOUBLE 0 0 10)) = Some 2%Z
  /\ GetIntValue (SetValue (- (5 # 2)) (mkImpl INT 0 0 10)) = Some (-3)%Z
  /\ GetIntValue (SetValue (- (5 # 2)) (mkImpl DOUBLE 0 0 10)) = Some (-2)%Z.
Proof. repeat split; reflexivity. Qed.

Lemma Qlt_bool_no (a b : Q) : Qlt_bool a b = false -> b <= a.
Proof.
  unfold Qlt_bool. intros H. apply negb_false_iff in H.
  apply Qle_bool_iff; exact H.
Qed.

Ltac order_cases :=
  repeat match goal with
         | |- context [Qlt_bool ?x ?y] =>
             is_var x; is_var y;
             let H := fresh "H" in
             destruct (Qlt_bool x y) eqn:H;
             [apply Qlt_bool_true in H | apply Qlt_bool_no in H]
         end.

Lemma clamp_again (lo hi v : Q) :
  std_min hi (std_max lo (std_min hi (std_max lo v)))
  = std_min hi (std_max lo v).
Proof.
  unfold std_min, std_max.
  order_cases; try reflexivity; exfalso; Lqa.lra.
Qed.

(** X16.  [SetLimits] applied twice with the same limits does what it
    does applied once.  On an edit of the integer type the value is held
    against the limits as given, the bounds are stored rounded: with
    limits in order the value lies within one half of the stored
    bounds, but not always within them. *)
Theorem SetLimits_twice (min_value max_value : Q) (s : Impl) :
  SetLimits min_value max_value (SetLimits min_value max_value s)
  = SetLimits min_value max_value s
  /\ (type_ s = INT -> min_value <= max_value ->
      min_value_ (SetLimits min_value max_value s) - (1 # 2)
        <= value_ (SetLimits min_value max_value s)
      /\ value_ (SetLimits min_value max_value s)
         <= max_value_ (SetLimits min_value max_value s) + (1 # 2)).
Proof.
  split.
  - unfold SetLimits. destruct (type_ s); simpl; rewrite clamp_again;
      reflexivity.
  - intros Hty Hle. unfold SetLimits. rewrite Hty. simpl.
    destruct (clamp_between min_value max_value (value_ s) Hle) as [Hlo Hhi].
    destruct (round_nearest min_value) as (zl & -> & Hl1 & Hl2).
    destruct (round_nearest max_value) as (zh & -> & Hh1 & Hh2).
    revert Hlo Hhi.
    generalize (std_min max_value (std_max min_value (value_ s))).
    intros c Hlo Hhi.
    destruct (Qlt_le_dec min_value 0) as [Hn | Hp];
      destruct (Qlt_le_dec max_value 0) as [Hn' | Hp'];
      try specialize (Hl1 Hp); try specialize (Hl2 Hn);
      try specialize (Hh1 Hp'); try specialize (Hh2 Hn');
      split; Lqa.lra.
Qed.

Example SetLimits_int_value_outside_stored_bounds :
  SetLimits (1 # 2) (19 # 2) (mkImpl INT (1 # 5) 0 0)
  = mkImpl INT (1 # 2) 1 10.
Proof. reflexivity. Qed.

End NumberEditValueFacts.

(** ** [ListView] *)

Section ListViewFacts.

Import ListView.
Local Open Scope Z_scope.

Lemma to_int_small (z : Z) : - 2 ^ 31 <= z < 2 ^ 31 -> to_int z = z.
Proof.
  intros H. unfold to_int. rewrite Z.mod_small by lia. lia.
Qed.

Lemma to_int_le (z : Z) : 0 <= z -> to_int z <= z.
Proof.
  intros H. unfold to_int.
  pose proof (Z.mod_le (z + 2 ^ 31) (2 ^ 32)) as Hle. lia.
Qed.

Lemma at_index_some (s : Impl) (i : Z) :
  0 <= i < size s -> exists v, at_index s i = Some v
                               /\ nth_error (items_ s) (Z.to_nat i) = Some v.
Proof.
  intros [Hlo Hhi]. unfold at_index.
  apply Z.leb_le in Hlo as Hlo'. apply Z.ltb_lt in Hhi as Hhi'.
  rewrite Hlo', Hhi'. simpl.
  destruct (nth_error (items_ s) (Z.to_nat i)) as [v|] eqn:Hn.
  - exists v; auto.
  - apply nth_error_None in Hn. unfold size in Hhi. lia.
Qed.

Lemma GetSelectedValue_in_range (s : Impl) :
  0 <= selected_index_ s < to_int (size s) ->
  GetSelectedValue s = nth_error (items_ s) (Z.to_nat (selected_index_ s)).
Proof.
  assert (Hsize : 0 <= size s) by (unfold size; lia).
  pose proof (to_int_le (size s) Hsize) as Hle.
  unfold GetSelectedValue. intros [Hlo Hhi].
  apply Z.ltb_ge in Hlo as Hneg. rewrite Hneg. simpl.
  assert (Hbig : (selected_index_ s >=? to_int (size s)) = false)
    by (rewrite Z.geb_leb; apply Z.leb_gt; lia).
  rewrite Hbig.
  destruct (at_index_some s (selected_index_ s)) as (v & Hv & Hn);
    [lia | congruence].
Qed.

Lemma GetSelectedValue_out_of_range (s : Impl) :
  selected_index_ s < 0 \/ to_int (size s) <= selected_index_ s ->
  GetSelectedValue s = Some String.EmptyString.
Proof.
  unfold GetSelectedValue. intros [Hneg | Hbig].
  - apply Z.ltb_lt in Hneg. rewrite Hneg. reflexivity.
  - assert (H : (selected_index_ s >=? to_int (size s)) = true)
      by (rewrite Z.geb_leb; apply Z.leb_le; exact Hbig).
    rewrite H, orb_true_r. reflexivity.
Qed.

(** X17.  [GetSelectedValue] never reads outside the vector of items,
    whatever the selected index and however many items there are: it
    returns the empty string for a negative index and for an index not
    below the size (converted to [int]), and the item at the index
    otherwise.  After [SetItems] nothing is selected: the index is -1
    and the value is the empty string. *)
Theorem GetSelectedValue_is_safe (s : Impl) :
  (exists v, GetSelectedValue s = Some v)
  /\ (0 <= selected_index_ s < to_int (size s) ->
      GetSelectedValue s
      = nth_error (items_ s) (Z.to_nat (selected_index_ s)))
  /\ (selected_index_ s < 0 \/ to_int (size s) <= selected_index_ s ->
      GetSelectedValue s = Some String.EmptyString)
  /\ (forall items,
        GetSelectedIndex (SetItems items s) = -1
        /\ GetSelectedValue (SetItems items s) = Some String.EmptyString).
Proof.
  assert (Hsize : 0 <= size s) by (unfold size; lia).
  pose proof (to_int_le (size s) Hsize) as Hle.
  unfold GetSelectedValue.
  refine (conj _ (conj _ (conj _ _))).
  - destruct (selected_index_ s <? 0) eqn:Hneg; simpl; [eauto|].
    destruct (selected_index_ s >=? to_int (size s)) eqn:Hbig; [eauto|].
    apply Z.ltb_ge in Hneg. rewrite Z.geb_leb in Hbig.
    apply Z.leb_gt in Hbig.
    destruct (at_index_some s (selected_index_ s)) as (v & Hv & _);
      [lia | eauto].
  - intros [Hlo Hhi].
    apply Z.ltb_ge in Hlo as Hneg. rewrite Hneg. simpl.
    assert (Hbig : (selected_index_ s >=? to_int (size s)) = false)
      by (rewrite Z.geb_leb; apply Z.leb_gt; lia).
    rewrite Hbig.
    destruct (at_index_some s (selected_index_ s)) as (v & Hv & Hn);
      [lia | congruence].
  - intros [Hneg | Hbig].
    + apply Z.ltb_lt in Hneg. rewrite Hneg. reflexivity.
    + assert (H : (selected_index_ s >=? to_int (size s)) = true)
        by (rewrite Z.geb_leb; apply Z.leb_le; exact Hbig).
      rewrite H, orb_true_r. reflexivity.
  - intros items. split; reflexivity.
Qed.

Lemma last_index (n : Z) :
  0 <= n < 2 ^ 31 -> to_int (to_size_t (n - 1)) = n - 1.
Proof.
  intros H. destruct (Z.eq_dec n 0) as [-> | Hn]; [reflexivity|].
  unfold to_size_t. rewrite Z.mod_small by lia.
  apply to_int_small. lia.
Qed.

(** X18.  [SetSelectedIndex] bounds the index from above only.  On a
    list of fewer than 2^31 items the index stored is the smaller of the
    index given and the index of the last item, which for the empty list
    is -1.  So an index within the list selects its item, an index past
    the end selects the last item, and a negative index is stored as it
    is and selects nothing. *)
Theorem SetSelectedIndex_bounds_above (index : Z) (s : Impl) :
  size s < 2 ^ 31 ->
  GetSelectedIndex (SetSelectedIndex index s) = Z.min (size s - 1) index
  /\ GetSelectedIndex (SetSelectedIndex index s) < size s
  /\ (0 <= index < size s ->
      GetSelectedValue (SetSelectedIndex index s)
      = nth_error (items_ s) (Z.to_nat index))
  /\ (0 < size s <= index ->
      GetSelectedValue (SetSelectedIndex index s)
      = nth_error (items_ s) (Z.to_nat (size s - 1)))
  /\ (index < 0 ->
      GetSelectedIndex (SetSelectedIndex index s) = index
      /\ GetSelectedValue (SetSelectedIndex index s)
         = Some String.EmptyString).
Proof.
  intros Hsmall.
  assert (Hsize : 0 <= size s) by (unfold size; lia).
  assert (Hidx : GetSelectedIndex (SetSelectedIndex index s)
                 = Z.min (size s - 1) index).
  { unfold GetSelectedIndex, SetSelectedIndex; simpl.
    rewrite last_index by lia. reflexivity. }
  assert (Hint : to_int (size (SetSelectedIndex index s)) = size s)
    by (apply to_int_small; unfold size in *; simpl; lia).
  pose proof (GetSelectedValue_in_range (SetSelectedIndex index s)) as Hin.
  pose proof (GetSelectedValue_out_of_range (SetSelectedIndex index s)) as Hout.
  unfold GetSelectedIndex in Hidx. rewrite Hint in Hin, Hout.
  unfold GetSelectedIndex.
  refine (conj Hidx (conj _ (conj _ (conj _ _)))).
  - rewrite Hidx. lia.
  - intros Hi. rewrite Hin by (rewrite Hidx; lia).
    rewrite Hidx, Z.min_r by lia. reflexivity.
  - intros Hi. rewrite Hin by (rewrite Hidx; lia).
    rewrite Hidx, Z.min_l by lia. reflexivity.
  - intros Hi. split.
    + rewrite Hidx. lia.
    + apply Hout. left. rewrite Hidx. lia.
Qed.

Lemma SetSelectedIndex_bounds_above_witness :
  size demo_list < 2 ^ 31
  /\ GetSelectedIndex (SetSelectedIndex 7 demo_list)
     = Z.min (size demo_list - 1) 7
  /\ GetSelectedIndex (SetSelectedIndex 7 demo_list) < size demo_list.
Proof.
  assert (H : size demo_list < 2 ^ 31) by reflexivity.
  destruct (SetSelectedIndex_bounds_above 7 demo_list H) as (H1 & H2 & _).
  exact (conj H (conj H1 H2)).
Defined.

Import String.StringSyntax.
Local Open Scope string_scope.

Example SetSelectedIndex_on_three_items :
  GetSelectedValue (SetSelectedIndex 1 demo_list) = Some "green"
  /\ GetSelectedValue (SetSelectedIndex 7 demo_list) = Some "blue"
  /\ GetSelectedIndex (SetSelectedIndex (-5) demo_list) = -5
  /\ GetSelectedValue (SetSelectedIndex (-5) demo_list)
     = Some String.EmptyString
  /\ GetSelectedIndex (SetSelectedIndex 0 new_ListView) = -1.
Proof. repeat split; reflexivity. Qed.

End ListViewFacts.

(** ** [Application] *)

Section ResourcePathExamples.

Import Application.
Import String.StringSyntax.
Local Open Scope string_scope.

Example FindResourcePath_examples :
  FindResourcePath (linux_in "/home/u") (Some "/opt/open3d/bin/viewer")
  = "/opt/open3d/bin/../resources"
  /\ FindResourcePath (linux_in "/home/u") (Some "C:\apps\o3d\viewer.exe")
     = "C:/apps/o3d/../resources"
  /\ FindResourcePath (linux_in "/home/u") (Some "bin/viewer")
     = "/home/u/bin/../resources"
  /\ FindResourcePath (linux_in "/home/u") (Some "viewer")
     = "/home/u/viewer/../resources"
  /\ FindResourcePath (linux_in "/home/u") None
     = "/home/u//../resources"
  /\ FindResourcePath (macos_in "/") (Some "/A/V.app/Contents/MacOS/V")
     = "/A/V.app/Contents/Resources"
  /\ FindResourcePath (macos_in "/") (Some "/tmp/viewer")
     = "/tmpResources"
  /\ fst (Initialize_here (linux_in "/home/u/app") "Roboto-Medium.ttf")
     = "/home/u/../resources".
Proof. repeat split; vm_compute; reflexivity. Qed.

End ResourcePathExamples.

Section ResourcePathFacts.

Import Application.
Import String.StringSyntax.
Local Open Scope string_scope.

Lemma size_cons c s : size (String.String c s) = (size s + 1)%N.
Proof. unfold size; simpl. lia. Qed.

Lemma size_app a b : size (a +++ b) = (size a + size b)%N.
Proof.
  induction a as [|c a IH]; [reflexivity|].
  change (String.String c a +++ b) with (String.String c (a +++ b)).
  rewrite !size_cons, IH. lia.
Qed.

Lemma substr0_all (n : N) (s : String.string) :
  (size s <= n)%N -> substr0 n s = s.
Proof.
  revert n. induction s as [|c s IH]; intros n Hn; [reflexivity|].
  rewrite size_cons in Hn. simpl.
  destruct (N.eqb_spec n 0) as [-> | Hne]; [lia|].
  rewrite IH by lia. reflexivity.
Qed.

Lemma substr0_app (a b : String.string) : substr0 (size a) (a +++ b) = a.
Proof.
  induction a as [|c a IH].
  - simpl. destruct b; reflexivity.
  - change (String.String c a +++ b) with (String.String c (a +++ b)).
    rewrite size_cons. simpl.
    destruct (N.eqb_spec (size a + 1) 0) as [H | _]; [lia|].
    replace (size a + 1 - 1)%N with (size a) by lia.
    rewrite IH. reflexivity.
Qed.

Lemma prefix_length (p s : String.string) :
  String.prefix p s = true -> (size p <= size s)%N.
Proof.
  revert s. induction p as [|c p IH]; intros s H.
  - unfold size; simpl; lia.
  - destruct s as [|d s]; [discriminate|]. simpl in H.
    destruct (Ascii.ascii_dec c d); [|discriminate].
    rewrite !size_cons. specialize (IH s H). lia.
Qed.

Lemma prefix_refl (p : String.string) : String.prefix p p = true.
Proof.
  induction p as [|c p IH]; [reflexivity|]. simpl.
  destruct (Ascii.ascii_dec c c); [exact IH | contradiction].
Qed.

Lemma rfind_from_cons (pat : String.string) c s (i : N) :
  rfind_from pat (String.String c s) i =
  match rfind_from pat s (i + 1) with
  | Some j => Some j
  | None => if String.prefix pat (String.String c s) then Some i else None
  end.
Proof. reflexivity. Qed.

(** A string shorter than the pattern has no occurrence of it. *)
Lemma rfind_from_short (pat s : String.string) (i : N) :
  (size s < size pat)%N -> rfind_from pat s i = None.
Proof.
  revert i. induction s as [|c s IH]; intros i H; [reflexivity|].
  rewrite rfind_from_cons, IH by (rewrite size_cons in H; lia).
  destruct (String.prefix pat (String.String c s)) eqn:Hp; [|reflexivity].
  apply prefix_length in Hp. lia.
Qed.

(** The last occurrence of a pattern in a string that ends with it. *)
Lemma rfind_from_suffix (pat p : String.string) (i : N) :
  pat <> String.EmptyString ->
  rfind_from pat (p +++ pat) i = Some (i + size p)%N.
Proof.
  intros Hne. revert i. induction p as [|c p IH]; intros i.
  - change (String.EmptyString +++ pat) with pat.
    destruct pat as [|c pat]; [contradiction|].
    rewrite rfind_from_cons.
    rewrite rfind_from_short by (rewrite size_cons; lia).
    rewrite prefix_refl. f_equal. unfold size; simpl; lia.
  - change (String.String c p +++ pat) with (String.String c (p +++ pat)).
    rewrite rfind_from_cons, IH. f_equal. rewrite size_cons. lia.
Qed.

Lemma prefix_single (c d : Ascii.ascii) (s : String.string) :
  String.prefix (String.String c String.EmptyString) (String.String d s)
  = Ascii.eqb c d.
Proof.
  cbn [String.prefix].
  destruct (Ascii.ascii_dec c d) as [-> | Hne].
  - rewrite Ascii.eqb_refl. destruct s; reflexivity.
  - symmetry. apply Ascii.eqb_neq. exact Hne.
Qed.

Lemma rfind_from_free (name : String.string) (i : N) :
  free_of slash name = true -> rfind_from "/" name i = None.
Proof.
  revert i. induction name as [|c name IH]; intros i H; [reflexivity|].
  simpl in H. apply andb_true_iff in H as [Hc Hn].
  rewrite rfind_from_cons, IH by exact Hn.
  change "/" with (String.String slash String.EmptyString).
  rewrite prefix_single, Ascii.eqb_sym.
  destruct (Ascii.eqb c slash); [discriminate | reflexivity].
Qed.

(** The last slash of [dir/name] is the one before [name]. *)
Lemma rfind_from_split (dir name : String.string) (i : N) :
  free_of slash name = true ->
  rfind_from "/" (dir +++ "/" +++ name) i = Some (i + size dir)%N.
Proof.
  intros Hfree. revert i. induction dir as [|c dir IH]; intros i.
  - change (String.EmptyString +++ "/" +++ name)
      with (String.String slash name).
    rewrite rfind_from_cons, rfind_from_free by exact Hfree.
    change "/" with (String.String slash String.EmptyString).
    rewrite prefix_single, Ascii.eqb_refl.
    f_equal. unfold size; simpl; lia.
  - change (String.String c dir +++ "/" +++ name)
      with (String.String c (dir +++ "/" +++ name)).
    rewrite rfind_from_cons, IH. f_equal. rewrite size_cons. lia.
Qed.

(** The directory part that [FindResourcePath] works with. *)
Lemma chop_process_name (dir name : String.string) :
  free_of slash name = true ->
  substr0 (rfind "/" (dir +++ "/" +++ name)) (dir +++ "/" +++ name) = dir.
Proof.
  intros Hfree. unfold rfind. rewrite rfind_from_split by exact Hfree.
  simpl. apply substr0_app.
Qed.

Lemma keep_process_name (s : String.string) :
  free_of slash s = true -> (size s < 2 ^ 64)%N ->
  substr0 (rfind "/" s) s = s.
Proof.
  intros Hfree Hsize. unfold rfind. rewrite rfind_from_free by exact Hfree.
  apply substr0_all. unfold npos. lia.
Qed.

End ResourcePathFacts.

Section ResourcePathTheorems.

Import Application.
Import String.StringSyntax.
Local Open Scope string_scope.

(** [FindResourcePath] after the directory part was worked out. *)
Lemma FindResourcePath_eq (E : Env) (arg : option String.string)
    (path : String.string) :
  path =
    (let argv0 :=
       slashes (match arg with Some a => a | None => String.EmptyString end) in
     if is_absolute argv0 then substr0 (rfind "/" argv0) argv0
     else GetWorkingDirectory E +++ "/" +++ substr0 (rfind "/" argv0) argv0) ->
  FindResourcePath E arg =
    if APPLE E
       && (rfind "MacOS" path =? wrap64 (Z.of_N (size path) - 5))%N
    then substr0 (wrap64 (Z.of_N (size path) - 5)) path +++ "Resources"
    else if DirectoryExists E (path +++ "/resources")
         then path +++ "/resources"
         else path +++ "/../resources".
Proof. intros ->. reflexivity. Qed.

Lemma path_of_split (E : Env) (argv0 dir name : String.string) :
  slashes argv0 = dir +++ "/" +++ name ->
  free_of slash name = true ->
  (if is_absolute (slashes argv0) then dir
   else GetWorkingDirectory E +++ "/" +++ dir) =
  (let argv0 := slashes argv0 in
   if is_absolute argv0 then substr0 (rfind "/" argv0) argv0
   else GetWorkingDirectory E +++ "/" +++ substr0 (rfind "/" argv0) argv0).
Proof.
  intros Hsplit Hfree. cbv zeta.
  rewrite Hsplit, chop_process_name by exact Hfree. reflexivity.
Qed.

(** A path without a slash is not absolute. *)
Lemma relative_without_slash (s : String.string) :
  free_of slash s = true -> is_absolute s = false.
Proof.
  intros H. unfold is_absolute, at_.
  destruct s as [|a s]; [reflexivity|].
  simpl in H. apply andb_true_iff in H as [Ha H].
  apply negb_true_iff in Ha.
  simpl String.get. cbv iota. rewrite Ha. simpl orb.
  destruct s as [|b s]; [reflexivity|].
  destruct s as [|c s]; [reflexivity|].
  simpl in H. apply andb_true_iff in H as [_ H].
  apply andb_true_iff in H as [Hc _]. apply negb_true_iff in Hc.
  simpl String.get. cbv iota. rewrite Hc. apply andb_false_r.
Qed.

Lemma wrap64_less_five (n : N) :
  (n + 5 < 2 ^ 64)%N -> wrap64 (Z.of_N (n + 5) - 5) = n.
Proof.
  intros H. unfold wrap64.
  replace (Z.of_N (n + 5) - 5)%Z with (Z.of_N n) by lia.
  rewrite Z.mod_small by lia. apply N2Z.id.
Qed.

(** An occurrence found by [rfind_from] is an occurrence. *)
Lemma prefix_split (pat s : String.string) :
  String.prefix pat s = true -> exists b, s = pat +++ b.
Proof.
  revert s. induction pat as [|c pat IH]; intros s H.
  - exists s. reflexivity.
  - destruct s as [|d s]; [discriminate|].
    cbn [String.prefix] in H.
    destruct (Ascii.ascii_dec c d) as [-> | _]; [|discriminate].
    destruct (IH s H) as [b ->]. exists b. reflexivity.
Qed.

Lemma rfind_from_found (pat s : String.string) (i j : N) :
  rfind_from pat s i = Some j ->
  exists a b, s = a +++ pat +++ b /\ j = (i + size a)%N.
Proof.
  revert i. induction s as [|c s IH]; intros i H; [discriminate|].
  rewrite rfind_from_cons in H.
  destruct (rfind_from pat s (i + 1)) as [k|] eqn:Hk.
  - injection H as <-. destruct (IH _ Hk) as (a & b & -> & ->).
    exists (String.String c a), b. split; [reflexivity|].
    rewrite size_cons. lia.
  - destruct (String.prefix pat (String.String c s)) eqn:Hp; [|discriminate].
    injection H as <-. destruct (prefix_split _ _ Hp) as [b Hb].
    exists String.EmptyString, b. split; [exact Hb|].
    unfold size; simpl; lia.
Qed.

Lemma size_zero (s : String.string) : size s = 0%N -> s = String.EmptyString.
Proof. destruct s; [reflexivity|]. rewrite size_cons. lia. Qed.

(** Outside a bundle the test for one fails, but for a path of four
    characters. *)
Lemma not_in_a_bundle (path : String.string) :
  (size path < 2 ^ 64)%N -> size path <> 4%N ->
  (forall p, path <> p +++ "MacOS") ->
  (rfind "MacOS" path =? wrap64 (Z.of_N (size path) - 5))%N = false.
Proof.
  intros Hsize H4 Hend. apply N.eqb_neq. intros Heq.
  unfold rfind in Heq.
  destruct (rfind_from "MacOS" path 0) as [j|] eqn:Hj.
  - destruct (rfind_from_found _ _ _ _ Hj) as (a & b & Hpath & ->).
    assert (Hlen : size path = (size a + 5 + size b)%N).
    { rewrite Hpath, !size_app. unfold size at 2; simpl. lia. }
    rewrite Hlen in Heq, Hsize.
    replace (size a + 5 + size b)%N with ((size a + size b) + 5)%N in Heq
      by lia.
    rewrite wrap64_less_five in Heq by lia.
    assert (Hb : b = String.EmptyString) by (apply size_zero; lia).
    subst b. apply (Hend a). exact Hpath.
  - unfold wrap64, npos in Heq.
    assert (Hlt : (size path < 5)%N \/ (5 <= size path)%N) by lia.
    destruct Hlt as [Hlt | Hge].
    + replace (Z.of_N (size path) - 5)%Z
        with (-1 * 2 ^ 64 + (Z.of_N (size path) + 2 ^ 64 - 5))%Z in Heq
        by lia.
      rewrite Z.add_comm, Z.mod_add, Z.mod_small in Heq by lia. lia.
    + rewrite Z.mod_small in Heq by lia. lia.
Qed.

(** X19.  For a program started with a path that has a directory part,
    [dir/name] once backslashes are slashes, on a system other than macOS:
    the resources are looked for in [dir/resources], and when that
    directory does not exist the answer is [dir/../resources]; a path that
    is not absolute has the working directory put before [dir]. *)
Theorem FindResourcePath_beside_the_executable
    (E : Env) (argv0 dir name : String.string) :
  APPLE E = false ->
  slashes argv0 = dir +++ "/" +++ name ->
  free_of slash name = true ->
  let base :=
    if is_absolute (slashes argv0) then dir
    else GetWorkingDirectory E +++ "/" +++ dir in
  FindResourcePath E (Some argv0) =
    if DirectoryExists E (base +++ "/resources")
    then base +++ "/resources"
    else base +++ "/../resources".
Proof.
  intros Happle Hsplit Hfree base.
  rewrite (FindResourcePath_eq E (Some argv0) base)
    by (apply (path_of_split E argv0 dir name); assumption).
  rewrite Happle. reflexivity.
Qed.

Lemma FindResourcePath_beside_the_executable_witness :
  FindResourcePath
    (mkEnv "/home/u" (fun d => String.eqb d "/opt/open3d/bin/resources") false)
    (Some "/opt/open3d/bin/viewer")
  = "/opt/open3d/bin/resources"
  /\ FindResourcePath (linux_in "/home/u") (Some "build\bin\viewer.exe")
     = "/home/u/build/bin/../resources".
Proof.
  split.
  - apply (FindResourcePath_beside_the_executable
             (mkEnv "/home/u"
                    (fun d => String.eqb d "/opt/open3d/bin/resources") false)
             "/opt/open3d/bin/viewer" "/opt/open3d/bin" "viewer");
      reflexivity.
  - apply (FindResourcePath_beside_the_executable
             (linux_in "/home/u") "build\bin\viewer.exe" "build/bin"
             "viewer.exe");
      reflexivity.
Defined.

(** X20.  A program started by its bare name, or with no [argv] at all:
    nothing is chopped off, so the name of the program stays in the path
    as if it were a directory below the working directory. *)
Theorem FindResourcePath_keeps_a_bare_name
    (E : Env) (arg : option String.string) :
  APPLE E = false ->
  let name :=
    slashes (match arg with Some a => a | None => String.EmptyString end) in
  free_of slash name = true ->
  (size name < 2 ^ 64)%N ->
  let base := GetWorkingDirectory E +++ "/" +++ name in
  FindResourcePath E arg =
    if DirectoryExists E (base +++ "/resources")
    then base +++ "/resources"
    else base +++ "/../resources".
Proof.
  intros Happle name Hfree Hsize base.
  rewrite (FindResourcePath_eq E arg base).
  - rewrite Happle. reflexivity.
  - cbv zeta. fold name.
    rewrite (relative_without_slash name Hfree).
    rewrite keep_process_name by assumption. reflexivity.
Qed.

Lemma FindResourcePath_keeps_a_bare_name_witness :
  FindResourcePath (linux_in "/home/u") (Some "viewer")
  = "/home/u/viewer/../resources".
Proof.
  apply (FindResourcePath_keeps_a_bare_name
           (linux_in "/home/u") (Some "viewer"));
    [reflexivity | reflexivity | vm_compute; reflexivity].
Defined.

(** X21.  [Application::Initialize()] hands the working directory to
    [FindResourcePath] as if it were the path of the program, so its last
    part is chopped off: for an absolute working directory [parent/leaf]
    the resources are looked for beside the working directory, in
    [parent/resources], not in it; the font is looked for below the
    directory found. *)
Theorem Initialize_looks_beside_the_working_directory
    (E : Env) (parent leaf font : String.string) :
  APPLE E = false ->
  slashes (GetWorkingDirectory E) = parent +++ "/" +++ leaf ->
  free_of slash leaf = true ->
  is_absolute (slashes (GetWorkingDirectory E)) = true ->
  let found :=
    if DirectoryExists E (parent +++ "/resources")
    then parent +++ "/resources"
    else parent +++ "/../resources" in
  Initialize_here E font = (found, found +++ "/" +++ font).
Proof.
  intros Happle Hsplit Hfree Habs found.
  unfold Initialize_here, Initialize.
  rewrite (FindResourcePath_eq E (Some (GetWorkingDirectory E)) parent).
  - rewrite Happle. reflexivity.
  - rewrite <- (path_of_split E (GetWorkingDirectory E) parent leaf)
      by assumption.
    rewrite Habs. reflexivity.
Qed.

Lemma Initialize_looks_beside_the_working_directory_witness :
  Initialize_here
    (mkEnv "/home/u/app" (fun d => String.eqb d "/home/u/app/resources") false)
    "Roboto-Medium.ttf"
  = ("/home/u/../resources", "/home/u/../resources/Roboto-Medium.ttf").
Proof.
  apply (Initialize_looks_beside_the_working_directory
           (mkEnv "/home/u/app"
                  (fun d => String.eqb d "/home/u/app/resources") false)
           "/home/u" "app" "Roboto-Medium.ttf");
    reflexivity.
Defined.

(** X22.  On macOS, a program inside a bundle: when the directory of the
    program ends in [MacOS], the answer is that directory with [MacOS]
    replaced by [Resources], and no directory is tested for existence. *)
Theorem FindResourcePath_in_a_bundle
    (E : Env) (argv0 p name : String.string) :
  APPLE E = true ->
  slashes argv0 = (p +++ "MacOS") +++ "/" +++ name ->
  free_of slash name = true ->
  is_absolute (slashes argv0) = true ->
  (size p + 5 < 2 ^ 64)%N ->
  FindResourcePath E (Some argv0) = p +++ "Resources".
Proof.
  intros Happle Hsplit Hfree Habs Hsize.
  rewrite (FindResourcePath_eq E (Some argv0) (p +++ "MacOS")).
  - assert (Hlen : size (p +++ "MacOS") = (size p + 5)%N).
    { rewrite size_app. reflexivity. }
    rewrite Happle, Hlen, wrap64_less_five by exact Hsize.
    unfold rfind. rewrite rfind_from_suffix by discriminate.
    rewrite N.add_0_l, N.eqb_refl, substr0_app. reflexivity.
  - rewrite <- (path_of_split E argv0 (p +++ "MacOS") name) by assumption.
    rewrite Habs. reflexivity.
Qed.

Lemma FindResourcePath_in_a_bundle_witness :
  FindResourcePath (macos_in "/") (Some "/A/V.app/Contents/MacOS/V")
  = "/A/V.app/Contents/Resources".
Proof.
  apply (FindResourcePath_in_a_bundle
           (macos_in "/") "/A/V.app/Contents/MacOS/V" "/A/V.app/Contents/"
           "V");
    [reflexivity | reflexivity | reflexivity | reflexivity
    | vm_compute; reflexivity].
Defined.

(** X23.  On macOS, a directory of exactly four characters is taken for a
    bundle: [size() - 5] wraps around to the value [rfind] gives when it
    finds nothing, and [Resources] is put right after the directory,
    with no slash between. *)
Theorem FindResourcePath_four_characters
    (E : Env) (argv0 dir name : String.string) :
  APPLE E = true ->
  slashes argv0 = dir +++ "/" +++ name ->
  free_of slash name = true ->
  is_absolute (slashes argv0) = true ->
  size dir = 4%N ->
  FindResourcePath E (Some argv0) = dir +++ "Resources".
Proof.
  intros Happle Hsplit Hfree Habs Hsize.
  rewrite (FindResourcePath_eq E (Some argv0) dir).
  - rewrite Happle, Hsize.
    unfold rfind. rewrite rfind_from_short by (rewrite Hsize; reflexivity).
    change (wrap64 (Z.of_N 4 - 5)) with npos.
    rewrite N.eqb_refl, substr0_all by (rewrite Hsize; unfold npos; lia).
    reflexivity.
  - rewrite <- (path_of_split E argv0 dir name) by assumption.
    rewrite Habs. reflexivity.
Qed.

Lemma FindResourcePath_four_characters_witness :
  FindResourcePath (macos_in "/") (Some "/tmp/viewer") = "/tmpResources".
Proof.
  apply (FindResourcePath_four_characters
           (macos_in "/") "/tmp/viewer" "/tmp" "viewer");
    reflexivity.
Defined.

Lemma usr_bin_is_no_bundle (p : String.string) : "/usr/bin" <> p +++ "MacOS".
Proof.
  intros H. assert (Hs := f_equal size H). rewrite size_app in Hs.
  destruct p as [|a [|b [|c [|d p]]]];
    try discriminate H;
    repeat rewrite size_cons in Hs; unfold size in Hs; simpl in Hs; lia.
Qed.

(** X24.  On macOS outside a bundle: when the directory of the program
    does not end in [MacOS] and is not four characters long, the answer
    is the one given on the other systems. *)
Theorem FindResourcePath_outside_a_bundle
    (E : Env) (argv0 dir name : String.string) :
  APPLE E = true ->
  slashes argv0 = dir +++ "/" +++ name ->
  free_of slash name = true ->
  let base :=
    if is_absolute (slashes argv0) then dir
    else GetWorkingDirectory E +++ "/" +++ dir in
  (size base < 2 ^ 64)%N ->
  size base <> 4%N ->
  (forall p, base <> p +++ "MacOS") ->
  FindResourcePath E (Some argv0) =
    if DirectoryExists E (base +++ "/resources")
    then base +++ "/resources"
    else base +++ "/../resources".
Proof.
  intros Happle Hsplit Hfree base Hsize H4 Hend.
  rewrite (FindResourcePath_eq E (Some argv0) base)
    by (apply (path_of_split E argv0 dir name); assumption).
  rewrite not_in_a_bundle by assumption.
  rewrite andb_false_r. reflexivity.
Qed.

Lemma FindResourcePath_outside_a_bundle_witness :
  FindResourcePath (macos_in "/") (Some "/usr/bin/viewer")
  = "/usr/bin/../resources".
Proof.
  apply (FindResourcePath_outside_a_bundle
           (macos_in "/") "/usr/bin/viewer" "/usr/bin" "viewer");
    [reflexivity | reflexivity | reflexivity | vm_compute; reflexivity
    | vm_compute; discriminate | exact usr_bin_is_no_bundle].
Defined.

End ResourcePathTheorems.

Section WindowFacts.

Import Application.

Lemma first_window_elem (X : gset N) : X <> ∅ -> first_window X ∈ X.
Proof.
  intros Hne. unfold first_window.
  destruct (elements X) as [|x l] eqn:Hel.
  - exfalso. apply Hne. apply leibniz_equiv.
    apply elements_empty_inv. rewrite Hel. reflexivity.
  - simpl. apply elem_of_elements. rewrite Hel. apply list_elem_of_here.
Qed.

(** [RemoveWindow] of a window that is there. *)
Lemma RemoveWindow_known (w : N) (s : Impl) :
  w ∈ windows_ s ->
  RemoveWindow w s =
    mkImpl (windows_ s ∖ {[ w ]}) ({[ w ]} ∪ windows_to_be_destroyed_ s)
           (should_quit_ s || bool_decide (windows_ s ∖ {[ w ]} = ∅)).
Proof.
  intros Hin. unfold RemoveWindow.
  rewrite (bool_decide_eq_true_2 _ Hin). cbn [windows_ windows_to_be_destroyed_
    should_quit_].
  destruct (bool_decide (windows_ s ∖ {[ w ]} = ∅)).
  - rewrite orb_true_r. reflexivity.
  - rewrite orb_false_r. reflexivity.
Qed.

Lemma parked_union (w : N) (W T : gset N) :
  w ∈ W -> (W ∖ {[ w ]}) ∪ ({[ w ]} ∪ T) = W ∪ T.
Proof.
  intros Hin. apply leibniz_equiv. intros x.
  rewrite !elem_of_union, elem_of_difference, elem_of_singleton.
  split.
  - intros [[Hx _] | [-> | Hx]]; auto.
  - intros [Hx | Hx]; [|auto].
    destruct (decide (x = w)) as [-> | Hne]; auto.
Qed.

Lemma Quit_loop_total (begin : gset N -> N) (fuel : nat) :
  (forall X : gset N, X <> ∅ -> begin X ∈ X) ->
  forall s : Impl,
  (base.size (windows_ s) <= fuel)%nat ->
  Quit_loop begin fuel s =
    Some (mkImpl ∅ (windows_ s ∪ windows_to_be_destroyed_ s)
                 (should_quit_ s || negb (bool_decide (windows_ s = ∅)))).
Proof.
  intros Hbegin. induction fuel as [|fuel IH]; intros s Hsize.
  - assert (He : windows_ s = ∅).
    { apply leibniz_equiv. apply size_empty_inv. lia. }
    simpl. rewrite (bool_decide_eq_true_2 _ He).
    destruct s as [W T q]; simpl in *. subst W.
    rewrite orb_false_r. f_equal. f_equal.
    apply leibniz_equiv. intros x. rewrite elem_of_union, elem_of_empty. tauto.
  - simpl. destruct (decide (windows_ s = ∅)) as [He | Hne].
    + rewrite (bool_decide_eq_true_2 _ He).
      destruct s as [W T q]; simpl in *. subst W.
      rewrite orb_false_r. f_equal. f_equal.
      apply leibniz_equiv. intros x.
      rewrite elem_of_union, elem_of_empty. tauto.
    + rewrite (bool_decide_eq_false_2 _ Hne).
      pose proof (Hbegin _ Hne) as Hin.
      rewrite (RemoveWindow_known _ _ Hin).
      rewrite IH.
      * cbn [windows_ windows_to_be_destroyed_ should_quit_].
        rewrite (parked_union _ _ _ Hin).
        f_equal. f_equal.
        destruct (bool_decide (windows_ s ∖ {[begin (windows_ s)]} = ∅)),
                 (should_quit_ s); reflexivity.
      * cbn [windows_].
        assert (Hs : base.size (windows_ s ∖ {[begin (windows_ s)]}) =
                     (base.size (windows_ s)
                      - base.size ({[begin (windows_ s)]} : gset N))%nat).
        { apply size_difference. intros x Hx.
          apply elem_of_singleton in Hx. subst x. exact Hin. }
        rewrite size_singleton in Hs. lia.
Qed.

(** X25.  [Quit] comes to an end whichever window the hash table hands
    out first, and takes one turn of its loop for each window: afterwards
    no window is left, every window that was there waits to be destroyed
    beside those that waited already, and the run loop is told to stop if
    it had been told before or if there was a window; [Quit] of an
    application without windows does not tell it to.  [OnTerminate] does
    the same and then drops the windows that wait. *)
Theorem Quit_removes_every_window
    (begin : gset N -> N) (fuel : nat) (s : Impl) :
  (forall X : gset N, X <> ∅ -> begin X ∈ X) ->
  (base.size (windows_ s) <= fuel)%nat ->
  let asked := should_quit_ s || negb (bool_decide (windows_ s = ∅)) in
  Quit_loop begin fuel s =
    Some (mkImpl ∅ (windows_ s ∪ windows_to_be_destroyed_ s) asked)
  /\ OnTerminate begin fuel s = Some (mkImpl ∅ ∅ asked).
Proof.
  intros Hbegin Hsize asked.
  pose proof (Quit_loop_total begin fuel Hbegin s Hsize) as Hq.
  split; [exact Hq|].
  unfold OnTerminate. rewrite Hq. reflexivity.
Qed.

Lemma Quit_removes_every_window_witness :
  Quit_loop first_window 3 (mkImpl {[ 10%N; 20%N; 30%N ]} {[ 5%N ]} false)
  = Some (mkImpl ∅ ({[ 10%N; 20%N; 30%N ]} ∪ {[ 5%N ]})
            (false
             || negb (bool_decide (({[ 10%N; 20%N; 30%N ]} : gset N) = ∅))))
  /\ OnTerminate first_window 3
       (mkImpl {[ 10%N; 20%N; 30%N ]} {[ 5%N ]} false)
     = Some (mkImpl ∅ ∅
               (false
                || negb
                     (bool_decide (({[ 10%N; 20%N; 30%N ]} : gset N) = ∅)))).
Proof.
  refine (Quit_removes_every_window first_window 3
            (mkImpl {[ 10%N; 20%N; 30%N ]} {[ 5%N ]} false)
            first_window_elem _).
  vm_compute. lia.
Defined.

(** The run of [Quit] on three windows, with one waiting already. *)
Example Quit_of_three_windows :
  Quit_loop first_window 3 (mkImpl {[ 10%N; 20%N; 30%N ]} {[ 5%N ]} false)
  = Some (mkImpl ∅ {[ 5%N; 10%N; 20%N; 30%N ]} true)
  /\ Quit_loop first_window 2
       (mkImpl {[ 10%N; 20%N; 30%N ]} {[ 5%N ]} false) = None
  /\ Quit_loop first_window 0 (mkImpl ∅ ∅ false) = Some (mkImpl ∅ ∅ false).
Proof. repeat split; vm_compute; reflexivity. Qed.

End WindowFacts.

Section RenderQualityFacts.

Import Events Interactor Session RenderQuality.
Import PrimFloat.

Variable K : Codes.
Variable View : Type.
Variable GetSampleCount : View -> Z.
Variable SetSampleCount : Z -> View -> View.
Variable button_code : MouseButton -> Z.

Local Abbreviation Get := (GetRenderQuality GetSampleCount).
Local Abbreviation Set_ := (SetRenderQuality GetSampleCount SetSampleCount).
Local Abbreviation Mouse_ := (RenderQuality.Mouse K GetSampleCount SetSampleCount
                                        button_code).
Local Abbreviation Tick_ := (RenderQuality.Tick K GetSampleCount SetSampleCount).
Local Abbreviation step_ := (RenderQuality.step K GetSampleCount SetSampleCount
                                      button_code).
Local Abbreviation run_ := (RenderQuality.run K GetSampleCount SetSampleCount
                                    button_code).

Lemma Quality_eqb_eq (a b : Quality) : Quality_eqb a b = true <-> a = b.
Proof. destruct a, b; simpl; split; congruence. Qed.

Lemma Set_quality (q : Quality) (s : Impl View) :
  keeps_sample_count GetSampleCount SetSampleCount -> Get (fst (Set_ q s)) = q.
Proof.
  intros Hcell. unfold SetRenderQuality.
  destruct (Quality_eqb (Get s) q) eqn:Hq; simpl.
  - apply Quality_eqb_eq. exact Hq.
  - destruct q; simpl; unfold GetRenderQuality; simpl;
      rewrite Hcell; reflexivity.
Qed.

(** [SetRenderQuality] touches the view only. *)
Lemma Set_rest (q : Quality) (s : Impl View) :
  fst (Set_ q s) = set_view (view_ (fst (Set_ q s))) s.
Proof.
  unfold SetRenderQuality.
  destruct (negb (Quality_eqb (Get s) q)); simpl.
  - destruct (Quality_eqb q FAST); reflexivity.
  - destruct s; reflexivity.
Qed.

Lemma Set_buttons (q : Quality) (s : Impl View) :
  buttons_down_ (fst (Set_ q s)) = buttons_down_ s.
Proof. rewrite Set_rest. reflexivity. Qed.

Lemma Set_controls (q : Quality) (s : Impl View) :
  controls_ (fst (Set_ q s)) = controls_ s.
Proof. rewrite Set_rest. reflexivity. Qed.

Lemma Set_time (q : Quality) (s : Impl View) :
  last_fast_time_ (fst (Set_ q s)) = last_fast_time_ s.
Proof. rewrite Set_rest. reflexivity. Qed.

Lemma Set_same (q : Quality) (s : Impl View) :
  Get s = q -> Set_ q s = (s, []).
Proof.
  intros H. unfold SetRenderQuality.
  rewrite (proj2 (Quality_eqb_eq _ _) H). reflexivity.
Qed.

(** X26.  For a view that gives back the sample count it was given:
    after [SetRenderQuality] the widget has the quality asked for,
    whatever the sample count was before, and asking for it once more
    changes nothing and makes no call of the scene. *)
Theorem SetRenderQuality_then_Get (q : Quality) (s : Impl View) :
  keeps_sample_count GetSampleCount SetSampleCount ->
  Get (fst (Set_ q s)) = q
  /\ Set_ q (fst (Set_ q s)) = (fst (Set_ q s), []).
Proof.
  intros Hcell. split.
  - apply Set_quality. exact Hcell.
  - apply Set_same. apply Set_quality. exact Hcell.
Qed.

Lemma Get_set_controls (c : Interactors) (s : Impl View) :
  Get (set_controls c s) = Get s.
Proof. reflexivity. Qed.

(** The view and the buttons after [SceneWidget::Mouse]. *)
Lemma Mouse_view (e : MouseEvent) (now : float) (s : Impl View) :
  view_ (fst (Mouse_ e now s)) =
  view_ (if negb (is_move e) then fst (Set_ FAST s) else s).
Proof.
  unfold RenderQuality.Mouse.
  destruct (if negb (is_move e) then Set_ FAST s else (s, []))
    as [s1 calls] eqn:E.
  assert (Hs1 : s1 = if negb (is_move e) then fst (Set_ FAST s) else s).
  { apply (f_equal fst) in E. simpl in E. rewrite <- E.
    destruct (negb (is_move e)); reflexivity. }
  rewrite <- Hs1.
  match goal with
  | |- context [Interactor.Mouse K e ?c] =>
      destruct (Interactor.Mouse K e c) as [c' h]
  end.
  destruct (type e); reflexivity.
Qed.

Lemma Mouse_buttons (e : MouseEvent) (now : float) (s : Impl View) :
  buttons_down_ (fst (Mouse_ e now s)) =
  match type e with
  | BUTTON_DOWN button => Z.lor (buttons_down_ s) (button_code button)
  | BUTTON_UP button =>
      Z.land (buttons_down_ s) (Z.lnot (button_code button))
  | _ => buttons_down_ s
  end.
Proof.
  unfold RenderQuality.Mouse.
  destruct (if negb (is_move e) then Set_ FAST s else (s, []))
    as [s1 calls] eqn:E.
  assert (Hs1 : buttons_down_ s1 = buttons_down_ s).
  { apply (f_equal fst) in E. simpl in E. rewrite <- E.
    destruct (negb (is_move e)); [apply Set_buttons | reflexivity]. }
  match goal with
  | |- context [Interactor.Mouse K e ?c] =>
      destruct (Interactor.Mouse K e c) as [c' h]
  end.
  destruct (type e); simpl; rewrite ?Hs1; reflexivity.
Qed.

Lemma Get_of_view (s1 s2 : Impl View) :
  view_ s1 = view_ s2 -> Get s1 = Get s2.
Proof. unfold GetRenderQuality. intros ->. reflexivity. Qed.

(** With a button down, a tick leaves the quality alone. *)
Lemma Tick_with_a_button_down (t1 t2 : float) (s : Impl View) :
  keeps_sample_count GetSampleCount SetSampleCount ->
  Get s = FAST -> buttons_down_ s <> 0%Z ->
  Get (fst (Tick_ t1 t2 s)) = FAST
  /\ buttons_down_ (fst (Tick_ t1 t2 s)) = buttons_down_ s.
Proof.
  intros Hcell Hfast Hdown. unfold RenderQuality.Tick.
  destruct (Interactor.Tick K (controls_ s)) as [calls result].
  destruct result.
  - apply Z.eqb_neq in Hdown. rewrite Hdown. simpl. auto.
  - rewrite (Set_same FAST s Hfast). cbn [buttons_down_ set_last_fast_time].
    apply Z.eqb_neq in Hdown. rewrite Hdown. simpl. auto.
Qed.

Lemma step_keeps_fast (o : Op) (s : Impl View) :
  keeps_sample_count GetSampleCount SetSampleCount ->
  releases o = false ->
  Get s = FAST /\ buttons_down_ s <> 0%Z ->
  Get (step_ o s) = FAST /\ buttons_down_ (step_ o s) <> 0%Z.
Proof.
  intros Hcell Hrel [Hfast Hdown]. destruct o as [e now | e | t1 t2].
  - unfold RenderQuality.step. split.
    + rewrite (Get_of_view _ _ (Mouse_view e now s)).
      destruct (negb (is_move e)); [|exact Hfast].
      apply Set_quality. exact Hcell.
    + rewrite Mouse_buttons. simpl in Hrel. unfold is_button_up in Hrel.
      destruct (type e); try exact Hdown; try discriminate.
      intros H0. apply Z.lor_eq_0_iff in H0. tauto.
  - split; assumption.
  - unfold RenderQuality.step.
    destruct (Tick_with_a_button_down t1 t2 s Hcell Hfast Hdown) as [H1 H2].
    rewrite H2. split; assumption.
Qed.

Lemma run_keeps_fast (ops : list Op) (s : Impl View) :
  keeps_sample_count GetSampleCount SetSampleCount ->
  forallb (fun o => negb (releases o)) ops = true ->
  Get s = FAST /\ buttons_down_ s <> 0%Z ->
  Get (run_ ops s) = FAST /\ buttons_down_ (run_ ops s) <> 0%Z.
Proof.
  intros Hcell. revert s. induction ops as [|o ops IH]; intros s Hall Hinv.
  - exact Hinv.
  - simpl in Hall. apply andb_true_iff in Hall as [Ho Hall].
    apply negb_true_iff in Ho.
    change (run_ (o :: ops) s) with (run_ ops (step_ o s)).
    apply IH; [exact Hall|].
    apply step_keeps_fast; assumption.
Qed.

(** X27.  While a button is held the widget renders fast: once a button
    whose code is not zero went down, and as long as no button is
    released, the quality is [FAST] after every event, whatever the
    events and the time are: moves, drags, the wheel, keys, further
    buttons going down, and ticks however late. *)
Theorem quality_is_fast_while_a_button_is_held
    (s : Impl View) (b : MouseButton) (px py m : Z) (now : float)
    (ops : list Op) :
  keeps_sample_count GetSampleCount SetSampleCount ->
  button_code b <> 0%Z ->
  forallb (fun o => negb (releases o)) ops = true ->
  Get (run_ (OpMouse (mkMouse (BUTTON_DOWN b) px py m) now :: ops) s) = FAST.
Proof.
  intros Hcell Hcode Hall.
  change (run_ (OpMouse (mkMouse (BUTTON_DOWN b) px py m) now :: ops) s)
    with (run_ ops (step_ (OpMouse (mkMouse (BUTTON_DOWN b) px py m) now) s)).
  apply run_keeps_fast; [exact Hcell | exact Hall |].
  unfold RenderQuality.step. split.
  - rewrite (Get_of_view _ _ (Mouse_view _ now s)). simpl.
    apply Set_quality. exact Hcell.
  - rewrite Mouse_buttons. simpl.
    intros H0. apply Z.lor_eq_0_iff in H0. tauto.
Qed.

Lemma Tick_in_fly_mode (c : Interactors) (k : N) :
  current_ c = Some fly ->
  In k (tick_keys K) -> k ∈ keys_down_ (fly_ c) ->
  snd (Interactor.Tick K c) = DrawResult.REDRAW.
Proof.
  intros Hfly Hin Hk. unfold Interactor.Tick. rewrite Hfly.
  destruct (Fly_Tick K (fly_ c)) as [calls redraw] eqn:E.
  assert (Hr : redraw = true).
  { change redraw with (snd (calls, redraw)). rewrite <- E.
    rewrite (proj1 (Fly_Tick_redraw_existsb K (fly_ c))).
    apply existsb_exists. exists k. split; [exact Hin|].
    unfold HasKey. apply bool_decide_eq_true_2. exact Hk. }
  rewrite Hr. reflexivity.
Qed.

(** X28.  While a key that [FlyInteractor::Tick] looks for is held in
    fly mode, a tick asks for a redraw, renders fast and marks the time,
    provided the two readings of the clock it makes are not further
    apart than the delay, that is, their difference as the code computes
    it is not above the delay: the second reading is compared with the
    first, not with the time of an earlier event. *)
Theorem Tick_with_a_key_held_renders_fast
    (s : Impl View) (k : N) (t1 t2 : float) :
  keeps_sample_count GetSampleCount SetSampleCount ->
  current_ (controls_ s) = Some fly ->
  In k (tick_keys K) ->
  k ∈ keys_down_ (fly_ (controls_ s)) ->
  ltb DELAY_FOR_BEST_RENDERING_SECS (sub t2 t1) = false ->
  Get (fst (Tick_ t1 t2 s)) = FAST
  /\ last_fast_time_ (fst (Tick_ t1 t2 s)) = t1
  /\ snd (snd (Tick_ t1 t2 s)) = DrawResult.REDRAW.
Proof.
  intros Hcell Hfly Hin Hk Hclose.
  pose proof (Tick_in_fly_mode (controls_ s) k Hfly Hin Hk) as Hr.
  unfold RenderQuality.Tick.
  destruct (Interactor.Tick K (controls_ s)) as [calls result].
  simpl in Hr. subst result.
  destruct (Set_ FAST s) as [s' sc] eqn:E.
  assert (Hs' : s' = fst (Set_ FAST s)) by (rewrite E; reflexivity).
  assert (Hq : Get (set_last_fast_time t1 s') = FAST).
  { rewrite Hs'. apply (Set_quality FAST s Hcell). }
  change (last_fast_time_ (set_last_fast_time t1 s')) with t1.
  rewrite Hclose.
  destruct ((buttons_down_ (set_last_fast_time t1 s') =? 0)%Z
            && Quality_eqb (Get (set_last_fast_time t1 s')) FAST);
    simpl; auto.
Qed.

(** X29.  Out of fly mode a tick asks for a redraw exactly when it takes
    the widget back to the best quality: the widget renders fast, no
    button is down, and the clock is more than the delay past the time
    marked last, where the difference of the two doubles and its
    comparison with the double 0.2 are those of the code.  Then the
    quality is [BEST] afterwards; otherwise the tick changes nothing and
    makes no call. *)
Theorem Tick_goes_back_to_best (s : Impl View) (t1 t2 : float) :
  keeps_sample_count GetSampleCount SetSampleCount ->
  current_ (controls_ s) <> Some fly ->
  let due :=
    Get s = FAST /\ buttons_down_ s = 0%Z
    /\ ltb DELAY_FOR_BEST_RENDERING_SECS (sub t2 (last_fast_time_ s)) = true
  in
  (snd (snd (Tick_ t1 t2 s)) = DrawResult.REDRAW <-> due)
  /\ (due -> Get (fst (Tick_ t1 t2 s)) = BEST)
  /\ (~ due -> Tick_ t1 t2 s = (s, ([], [], DrawResult.NONE))).
Proof.
  intros Hcell Hmode due.
  assert (Hidle : Interactor.Tick K (controls_ s) = ([], DrawResult.NONE)).
  { unfold Interactor.Tick.
    destruct (current_ (controls_ s)) as [[ | | | | ]|]; try reflexivity.
    contradiction. }
  unfold RenderQuality.Tick. rewrite Hidle.
  destruct (Z.eqb_spec (buttons_down_ s) 0) as [Hb | Hb];
    [|simpl; subst due; repeat split; try tauto; try discriminate;
      intros (_ & H & _); contradiction].
  destruct (Get s) eqn:Hq;
    [|simpl; subst due; repeat split; try tauto; try discriminate;
      intros (H & _); discriminate].
  cbn [andb Quality_eqb].
  destruct (ltb DELAY_FOR_BEST_RENDERING_SECS (sub t2 (last_fast_time_ s)))
    eqn:Hlate.
  - assert (Hdue : due) by (subst due; auto).
    destruct (Set_ BEST s) as [s2 sc2] eqn:E.
    assert (Hs2 : s2 = fst (Set_ BEST s)) by (rewrite E; reflexivity).
    simpl. split; [split; [intros _; exact Hdue | reflexivity] | split].
    + intros _. rewrite Hs2. apply (Set_quality BEST s Hcell).
    + intros Hn. contradiction.
  - assert (Hnot : ~ due).
    { subst due. intros (_ & _ & Hlt). discriminate. }
    simpl. repeat split; try tauto; try discriminate.
Qed.

End RenderQualityFacts.

Section RenderQualityExamples.

Import Events Interactor Session RenderQuality.
Import PrimFloat.

Lemma cell_keeps : keeps_sample_count cell_get cell_set.
Proof. intros n v. reflexivity. Qed.

Lemma SetRenderQuality_then_Get_witness :
  GetRenderQuality cell_get
    (fst (SetRenderQuality cell_get cell_set FAST demo_widget)) = FAST
  /\ SetRenderQuality cell_get cell_set FAST
       (fst (SetRenderQuality cell_get cell_set FAST demo_widget))
     = (fst (SetRenderQuality cell_get cell_set FAST demo_widget), []).
Proof.
  exact (SetRenderQuality_then_Get Z cell_get cell_set FAST demo_widget
           cell_keeps).
Defined.

(** Going to the fast quality hides the point cloud and shows its
    stand-in; going back does the converse. *)
Example SetRenderQuality_swaps_the_point_clouds :
  snd (SetRenderQuality cell_get cell_set FAST demo_widget)
  = [SetEntityEnabled 7 false; SetEntityEnabled 8 true]
  /\ snd (SetRenderQuality cell_get cell_set BEST
            (fst (SetRenderQuality cell_get cell_set FAST demo_widget)))
     = [SetEntityEnabled 7 true; SetEntityEnabled 8 false]
  /\ snd (SetRenderQuality cell_get cell_set BEST demo_widget) = [].
Proof. repeat split. Qed.

Lemma quality_is_fast_while_a_button_is_held_witness :
  GetRenderQuality cell_get
    (run desktop cell_get cell_set one_bit
       (OpMouse (mkMouse (BUTTON_DOWN LEFT) 100 100 0) 1
        :: [OpMouse (drag_to 120 100) 2; OpTick 5 5;
            OpMouse (mkMouse MOVE 121 100 0) 6; OpTick 9 9])%float
       demo_widget)
  = FAST.
Proof.
  apply (quality_is_fast_while_a_button_is_held desktop Z cell_get cell_set
           one_bit demo_widget LEFT 100 100 0 1%float).
  - exact cell_keeps.
  - simpl. discriminate.
  - reflexivity.
Defined.

Lemma Tick_with_a_key_held_renders_fast_witness :
  let s :=
    set_controls
      (Interactor.Key (mkKey DOWN 119) (SetControls Controls.FLY demo_orbit))
      demo_widget in
  GetRenderQuality cell_get
    (fst (Tick desktop cell_get cell_set 1 1.125 s)) = FAST
  /\ last_fast_time_ (fst (Tick desktop cell_get cell_set 1 1.125 s))
     = 1%float
  /\ snd (snd (Tick desktop cell_get cell_set 1 1.125 s))
     = DrawResult.REDRAW.
Proof.
  apply (Tick_with_a_key_held_renders_fast desktop Z cell_get cell_set
           (set_controls
              (Interactor.Key (mkKey DOWN 119)
                 (SetControls Controls.FLY demo_orbit))
              demo_widget)
           119%N 1%float 1.125%float).
  - exact cell_keeps.
  - reflexivity.
  - simpl. tauto.
  - apply (bool_decide_eq_true_1 _). vm_compute. reflexivity.
  - vm_compute. reflexivity.
Defined.

Lemma Tick_goes_back_to_best_witness :
  let s := mkImpl 1%Z (mkModel [7%N] [8%N]) demo_orbit false 0 1%float in
  let due :=
    GetRenderQuality cell_get s = FAST /\ buttons_down_ s = 0%Z
    /\ ltb DELAY_FOR_BEST_RENDERING_SECS (sub 2 (last_fast_time_ s)) = true
  in
  (snd (snd (Tick desktop cell_get cell_set 2 2 s)) = DrawResult.REDRAW
   <-> due)
  /\ (due ->
      GetRenderQuality cell_get (fst (Tick desktop cell_get cell_set 2 2 s))
      = BEST)
  /\ (~ due ->
      Tick desktop cell_get cell_set 2 2 s
      = (s, ([], [], DrawResult.NONE))).
Proof.
  apply (Tick_goes_back_to_best desktop Z cell_get cell_set
           (mkImpl 1%Z (mkModel [7%N] [8%N]) demo_orbit false 0 1%float)
           2%float 2%float).
  - exact cell_keeps.
  - simpl. discriminate.
Defined.

(** The comparison is the one of the doubles.  A tick at the double 0.2
    after a time marked 0.0 is not late: the difference is the double 0.2
    and is not above it; the widget keeps rendering fast and no redraw
    is asked for.  One double later it is.  And 0.3 - 0.1 in doubles is
    below the double 0.2. *)
Example Tick_at_the_delay :
  let s := mkImpl 1%Z (mkModel [7%N] [8%N]) demo_orbit false 0 0%float in
  Tick desktop cell_get cell_set 0 0x1.999999999999ap-3 s
  = (s, ([], [], DrawResult.NONE))
  /\ snd (snd (Tick desktop cell_get cell_set 0 0x1.999999999999bp-3 s))
     = DrawResult.REDRAW
  /\ GetRenderQuality cell_get
       (fst (Tick desktop cell_get cell_set 0 0x1.999999999999bp-3 s))
     = BEST
  /\ ltb DELAY_FOR_BEST_RENDERING_SECS
         (sub 0x1.3333333333333p-2 0x1.999999999999ap-4) = false.
Proof. repeat split. Qed.

End RenderQualityExamples.
